(** * TikTok hashtag scraper: a shallow embedding of [scraper_2.py]

    The development follows the source file from its leaves upwards:
    text helpers and the count parser ([_parse_count]), the dynamically
    typed payload and its accessors, the structured extractors
    ([_parse_video_item], [_parse_hashtag_json],
    [_parse_video_details_json]), the scroll collector
    ([_scrape_videos_by_scrolling]), the detail visit
    ([scrape_video_details]), the comment harvester
    ([_scrape_comments_from_page], [_extract_comment_data]) and the session
    ([_extract_hashtag_data], [scrape_hashtag]).  The definitions come
    first, then the facts about them, one module per component, and at the
    end the statements C1 to C10 about the specification.

    Conventions.  A Python [str] is a Rocq [string] holding ASCII text.  A
    Python exception that a function lets escape is the [None] of an
    [option] (or the [Raises] of an [outcome] where the kind of exception
    matters); a [try]/[except] is the [match] that catches it.  The browser
    is an oracle: every page is a record of what its queries answer.  The
    one loop without a bound of its own, the scroll loop, runs on fuel. *)

From Stdlib Require Import ZArith NArith String Ascii List Bool Lia DecimalString DecimalPos.
From Stdlib Require Import Floats.SpecFloat.
From stdpp Require Import list.

Set Warnings "-register-all".

Open Scope string_scope.
Open Scope Z_scope.

(* ===================================================================== *)
(** * Text helpers (Python's [str] methods, on ASCII text) *)
(* ===================================================================== *)

Module Text.

(** [str.isspace] on one ASCII character: tab, line feed, vertical tab,
    form feed, carriage return, the four separators 28..31 and the space. *)
Definition is_space (c : ascii) : bool :=
  let n := nat_of_ascii c in
  ((9 <=? n)%nat && (n <=? 13)%nat) || ((28 <=? n)%nat && (n <=? 32)%nat).

Definition is_digit (c : ascii) : bool :=
  let n := nat_of_ascii c in (48 <=? n)%nat && (n <=? 57)%nat.

Definition no_digit (c : ascii) : bool := negb (is_digit c).

Definition is_lower (c : ascii) : bool :=
  let n := nat_of_ascii c in (97 <=? n)%nat && (n <=? 122)%nat.

Definition is_upper (c : ascii) : bool :=
  let n := nat_of_ascii c in (65 <=? n)%nat && (n <=? 90)%nat.

Definition upper_char (c : ascii) : ascii :=
  if is_lower c then ascii_of_nat (nat_of_ascii c - 32) else c.

Definition lower_char (c : ascii) : ascii :=
  if is_upper c then ascii_of_nat (nat_of_ascii c + 32) else c.

Fixpoint map_chars (f : ascii -> ascii) (s : string) : string :=
  match s with
  | EmptyString => EmptyString
  | String c r => String (f c) (map_chars f r)
  end.

(** [s.upper()] and [s.lower()]. *)
Definition upper (s : string) : string := map_chars upper_char s.
Definition lower (s : string) : string := map_chars lower_char s.

Fixpoint all_chars (p : ascii -> bool) (s : string) : bool :=
  match s with
  | EmptyString => true
  | String c r => p c && all_chars p r
  end.

(** [s.lstrip()], [s.rstrip()] and [s.strip()]. *)
Fixpoint lstrip (s : string) : string :=
  match s with
  | EmptyString => EmptyString
  | String c r => if is_space c then lstrip r else s
  end.

Fixpoint rstrip (s : string) : string :=
  match s with
  | EmptyString => EmptyString
  | String c r =>
      match rstrip r with
      | EmptyString => if is_space c then EmptyString else String c EmptyString
      | r' => String c r'
      end
  end.

Definition strip (s : string) : string := rstrip (lstrip s).

(** [s.lstrip(chars)] for a one-character [chars]. *)
Fixpoint lstrip_char (x : ascii) (s : string) : string :=
  match s with
  | EmptyString => EmptyString
  | String c r => if Ascii.eqb c x then lstrip_char x r else s
  end.

(** [x in s] for a one-character [x]. *)
Fixpoint contains_char (x : ascii) (s : string) : bool :=
  match s with
  | EmptyString => false
  | String c r => Ascii.eqb c x || contains_char x r
  end.

(** [s.replace(x, '')] for a one-character [x]. *)
Fixpoint remove_char (x : ascii) (s : string) : string :=
  match s with
  | EmptyString => EmptyString
  | String c r => if Ascii.eqb c x then remove_char x r else String c (remove_char x r)
  end.

(** [s.startswith(p)]. *)
Definition startswith (p s : string) : bool := String.prefix p s.

(** [p in s] for strings: [p] occurs in [s] as a substring. *)
Fixpoint contains (p s : string) : bool :=
  String.prefix p s ||
  match s with
  | EmptyString => false
  | String _ r => contains p r
  end.

(** What follows the prefix [p] in [s], when [s] starts with [p]. *)
Fixpoint after_prefix (p s : string) : option string :=
  match p, s with
  | EmptyString, _ => Some s
  | String a p', String b s' => if Ascii.eqb a b then after_prefix p' s' else None
  | String _ _, EmptyString => None
  end.

(** [sep.join(parts)]. *)
Fixpoint join (sep : string) (parts : list string) : string :=
  match parts with
  | [] => EmptyString
  | [x] => x
  | x :: r => x ++ sep ++ join sep r
  end.

(** The longest prefix of digits, and what follows it. *)
Fixpoint span_digits (s : string) : string * string :=
  match s with
  | EmptyString => (EmptyString, EmptyString)
  | String c r =>
      if is_digit c
      then let '(d, t) := span_digits r in (String c d, t)
      else (EmptyString, s)
  end.

Definition digit_value (c : ascii) : Z := Z.of_nat (nat_of_ascii c) - 48.

(** The number a run of decimal digits denotes, most significant first. *)
Fixpoint digits_value_from (acc : Z) (s : string) : Z :=
  match s with
  | EmptyString => acc
  | String c r => digits_value_from (10 * acc + digit_value c) r
  end.

Definition digits_value (s : string) : Z := digits_value_from 0 s.

End Text.

(* ===================================================================== *)
(** * Numbers: Python's [int(str)], [float(str)], [float * int], [int(float)] *)
(* ===================================================================== *)

Module Num.
Import Text.

(** Python floats are IEEE 754 binary64 values. *)
Definition prec : Z := 53.
Definition emax : Z := 1024.
Definition float : Type := spec_float.

(** An underscore is accepted only between two digits; [prev] is the
    character before the current one. *)
Fixpoint underscores_ok_from (prev : option ascii) (s : string) : bool :=
  match s with
  | EmptyString =>
      match prev with
      | Some c => negb (Ascii.eqb c "_")
      | None => true
      end
  | String c r =>
      let prev_digit := match prev with Some p => is_digit p | None => false end in
      let prev_us := match prev with Some p => Ascii.eqb p "_" | None => false end in
      (if Ascii.eqb c "_" then prev_digit
       else negb (prev_us && negb (is_digit c)))
      && underscores_ok_from (Some c) r
  end.

Definition underscores_ok (s : string) : bool := underscores_ok_from None s.

(** An optional sign; [true] is minus. *)
Definition parse_sign (s : string) : bool * string :=
  match s with
  | String "-" r => (true, r)
  | String "+" r => (false, r)
  | _ => (false, s)
  end.

(** A run of digits with or without a minus sign in front. *)
Definition signed (neg : bool) (ds : string) : string :=
  if neg then String "-" ds else ds.

(** CPython refuses to convert a numeral of more than this many digits
    ([sys.get_int_max_str_digits()], by default). *)
Definition int_max_str_digits : nat := 4300.

(** [int(s)] on a string, base ten.  [None] is [ValueError]. *)
Definition py_int (s : string) : option Z :=
  let s := strip s in
  let '(neg, r) := parse_sign s in
  if negb (underscores_ok r) then None else
  let ds := remove_char "_" r in
  match ds with
  | EmptyString => None
  | _ =>
      if all_chars is_digit ds && (String.length ds <=? int_max_str_digits)%nat
      then Some (if neg then - digits_value ds else digits_value ds)
      else None
  end.

(** The binary64 value nearest to [(-1)^neg * d * 10^e], ties to even. *)
Definition float_of_decimal (neg : bool) (d e : Z) : float :=
  match d with
  | Zpos m =>
      if 0 <=? e
      then binary_normalize prec emax
             (if neg then - (d * 10 ^ e) else d * 10 ^ e) 0 neg
      else
        let '(q, e', l) := SFdiv_core_binary prec emax d 0 (10 ^ (- e)) 0 in
        binary_round_aux prec emax neg q e' l
  | _ => S754_zero neg
  end.

(** The exponent part of a float literal: nothing, or [E], an optional
    sign and at least one digit, up to the end of the text. *)
Definition parse_exponent (s : string) : option Z :=
  match s with
  | EmptyString => Some 0
  | String c r =>
      if Ascii.eqb c "E" || Ascii.eqb c "e" then
        let '(neg, ds) := parse_sign r in
        match ds with
        | EmptyString => None
        | _ => if all_chars is_digit ds
               then Some (if neg then - digits_value ds else digits_value ds)
               else None
        end
      else None
  end.

(** [float(s)] on a string.  [None] is [ValueError]. *)
Definition py_float (s : string) : option float :=
  let s := strip s in
  if negb (underscores_ok s) then None else
  let '(neg, r) := parse_sign (remove_char "_" s) in
  let u := upper r in
  if String.eqb u "INF" || String.eqb u "INFINITY" then Some (S754_infinity neg)
  else if String.eqb u "NAN" then Some S754_nan
  else
    let '(ip, r1) := span_digits r in
    let '(fp, r2) := match r1 with
                     | String "." r' => span_digits r'
                     | _ => (EmptyString, r1)
                     end in
    match ip ++ fp with
    | EmptyString => None
    | ds =>
        match parse_exponent r2 with
        | None => None
        | Some ex =>
            Some (float_of_decimal neg (digits_value ds)
                    (ex - Z.of_nat (String.length fp)))
        end
    end.

(** [float(n)] for an integer [n] (exact below 2^53 in magnitude). *)
Definition float_of_int (n : Z) : float := binary_normalize prec emax n 0 false.

(** [x * n] for a float [x] and an integer [n]: [n] is converted first. *)
Definition float_mul_int (x : float) (n : Z) : float :=
  SFmul prec emax x (float_of_int n).

(** [int(x)] on a float: truncation towards zero.  [None] is the
    [OverflowError] of an infinity or the [ValueError] of a NaN. *)
Definition py_int_of_float (x : float) : option Z :=
  match x with
  | S754_zero _ => Some 0
  | S754_finite s m e =>
      let a := if 0 <=? e then Z.shiftl (Zpos m) e else Z.shiftr (Zpos m) (- e) in
      Some (if s then - a else a)
  | S754_infinity _ | S754_nan => None
  end.

End Num.

(* ===================================================================== *)
(** * CountParser: [_parse_count] *)
(* ===================================================================== *)

Import Text Num.

(** [int(float(count_str.replace(suffix, '')) * factor)]; [None] when the
    expression raises. *)
Definition scaled_count (suffix : ascii) (factor : Z) (count_str : string) : option Z :=
  match py_float (remove_char suffix count_str) with
  | Some x => py_int_of_float (float_mul_int x factor)
  | None => None
  end.

(** The body of the [try] of [_parse_count]. *)
Definition parse_count_body (count_str : string) : option Z :=
  let count_str := upper (strip count_str) in
  if contains_char "K" count_str then scaled_count "K" 1000 count_str
  else if contains_char "M" count_str then scaled_count "M" 1000000 count_str
  else py_int count_str.

(** [_parse_count]: the bare [except] turns every failure into 0. *)
Definition _parse_count (count_str : string) : Z :=
  match parse_count_body count_str with
  | Some n => n
  | None => 0
  end.

(* ===================================================================== *)
(** * Python values: parsed JSON, the records the scraper builds *)
(* ===================================================================== *)

(** What [json.loads] yields (numbers are integers here: the payload's
    counts and ids), plus [VHandle], a Playwright [ElementHandle], which is
    no JSON value.  A [dict] keeps its keys in insertion order. *)
Inductive value : Type :=
  | VNone
  | VBool (b : bool)
  | VInt (n : Z)
  | VStr (s : string)
  | VList (l : list value)
  | VDict (d : list (string * value))
  | VHandle (node : nat).

(** Exceptions, as far as the handlers of the source tell them apart:
    Playwright's [TimeoutError], and any other [Exception] with its
    [str(e)]. *)
Inductive exn : Type :=
  | PlaywrightTimeout
  | PyError (msg : string).

(** The end of a call that may raise. *)
Inductive outcome (A : Type) : Type :=
  | Returns (a : A)
  | Raises (e : exn).
Arguments Returns {A} a.
Arguments Raises {A} e.

Module Py.

Definition dict : Type := list (string * value).

(** [d.get(k)] at the level of the key table: the value bound to [k]. *)
Fixpoint dict_get (d : dict) (k : string) : option value :=
  match d with
  | [] => None
  | (k', v) :: r => if String.eqb k' k then Some v else dict_get r k
  end.

(** [d[k] = v]: overwrite in place, or add at the end. *)
Fixpoint dict_set (d : dict) (k : string) (v : value) : dict :=
  match d with
  | [] => [(k, v)]
  | (k', v') :: r =>
      if String.eqb k' k then (k', v) :: r else (k', v') :: dict_set r k v
  end.

Definition is_dict (v : value) : bool :=
  match v with VDict _ => true | _ => false end.

(** Truth value of an object ([if x:], [not x]). *)
Definition truthy (v : value) : bool :=
  match v with
  | VNone => false
  | VBool b => b
  | VInt n => negb (n =? 0)
  | VStr s => negb (String.eqb s "")
  | VList l => match l with [] => false | _ => true end
  | VDict d => match d with [] => false | _ => true end
  | VHandle _ => true
  end.

(** [x == s] for a string [s]. *)
Definition eq_str (x : value) (s : string) : bool :=
  match x with VStr t => String.eqb t s | _ => false end.

(** [k in v] for a string [k]; [None] is [TypeError]. *)
Definition contains_key (k : string) (v : value) : option bool :=
  match v with
  | VDict d => Some (match dict_get d k with Some _ => true | None => false end)
  | VList l => Some (existsb (fun x => eq_str x k) l)
  | VStr s => Some (Text.contains k s)
  | _ => None
  end.

(** [v[k]] for a string [k]; [None] is [KeyError] or [TypeError]. *)
Definition getitem (v : value) (k : string) : option value :=
  match v with
  | VDict d => dict_get d k
  | _ => None
  end.

(** [v.get(k, default)]; [None] is [AttributeError]. *)
Definition get (v : value) (k : string) (default : value) : option value :=
  match v with
  | VDict d => Some (match dict_get d k with Some x => x | None => default end)
  | _ => None
  end.

(** What [for x in v] runs through; [None] is [TypeError]. *)
Definition iter (v : value) : option (list value) :=
  match v with
  | VList l => Some l
  | VDict d => Some (map (fun kv => VStr (fst kv)) d)
  | VStr s => Some (map (fun c => VStr (String c EmptyString)) (list_ascii_of_string s))
  | _ => None
  end.

(** [v > 0]; [None] is [TypeError]. *)
Definition gt_zero (v : value) : option bool :=
  match v with
  | VInt n => Some (0 <? n)
  | VBool b => Some b
  | _ => None
  end.

(** [l[:n]]: a negative [n] counts from the end. *)
Definition slice_to {A : Type} (n : Z) (l : list A) : list A :=
  if 0 <=? n then take (Z.to_nat n) l
  else take (length l - Z.to_nat (- n)) l.

(** [len(l)] as a Python integer. *)
Definition len {A : Type} (l : list A) : Z := Z.of_nat (length l).

End Py.

(* ===================================================================== *)
(** * Formatting: [str(x)] inside f-strings, and [re.search] *)
(* ===================================================================== *)

Module Fmt.
Import Text.

Definition quote1 : ascii := ascii_of_nat 39.
Definition quote2 : ascii := ascii_of_nat 34.
Definition backslash : ascii := ascii_of_nat 92.

Definition hex_digit (n : nat) : ascii :=
  if (n <? 10)%nat then ascii_of_nat (48 + n) else ascii_of_nat (87 + n).

(** One character inside the quotes of [repr(s)], [q] being the quote. *)
Definition repr_char (q c : ascii) : string :=
  let n := nat_of_ascii c in
  if Ascii.eqb c backslash || Ascii.eqb c q then String backslash (String c EmptyString)
  else if (n =? 9)%nat then String backslash "t"
  else if (n =? 10)%nat then String backslash "n"
  else if (n =? 13)%nat then String backslash "r"
  else if (n <? 32)%nat || (n =? 127)%nat
  then String backslash (String "x" (String (hex_digit (n / 16)) (String (hex_digit (n mod 16)) EmptyString)))
  else String c EmptyString.

Fixpoint repr_chars (q : ascii) (s : string) : string :=
  match s with
  | EmptyString => EmptyString
  | String c r => repr_char q c ++ repr_chars q r
  end.

(** [repr(s)] of a string: single quotes, unless the text has a single
    quote and no double quote. *)
Definition repr_str (s : string) : string :=
  let q := if contains_char quote1 s && negb (contains_char quote2 s)
           then quote2 else quote1 in
  String q (repr_chars q s ++ String q EmptyString).

Definition str_of_int (n : Z) : string := NilZero.string_of_int (Z.to_int n).

(** [repr(v)].  The text of a handle is Playwright's and is not needed
    below; it stands for itself. *)
Fixpoint repr (v : value) : string :=
  match v with
  | VNone => "None"
  | VBool true => "True"
  | VBool false => "False"
  | VInt n => str_of_int n
  | VStr s => repr_str s
  | VList l => "[" ++ join ", " (map repr l) ++ "]"
  | VDict d =>
      "{" ++ join ", " (map (fun kv => let '(k, x) := kv in repr_str k ++ ": " ++ repr x) d) ++ "}"
  | VHandle _ => "<JSHandle>"
  end.

(** [str(v)], which is what [f"{v}"] writes. *)
Definition str (v : value) : string :=
  match v with
  | VStr s => s
  | _ => repr v
  end.

(** [re.search(r'/video/(\d+)', s)] followed by [group(1)]: the digits
    after the leftmost [/video/] that is followed by a digit. *)
Fixpoint search_video_id (s : string) : option string :=
  match s with
  | EmptyString => None
  | String _ r =>
      match after_prefix "/video/" s with
      | Some t =>
          match fst (span_digits t) with
          | EmptyString => search_video_id r
          | d => Some d
          end
      | None => search_video_id r
      end
  end.

End Fmt.

(* ===================================================================== *)
(** * StructuredExtractor: the embedded payload *)
(* ===================================================================== *)

(** Sequencing of steps that may raise: the first [None] ends the block. *)
Notation "'let*' x ':=' e 'in' k" :=
  (match e with Some x => k | None => None end)
  (at level 10, x name, e at level 100, k at level 200).

(** All results of a list of steps, or [None] when one of them raises. *)
Fixpoint all_some {A : Type} (l : list (option A)) : option (list A) :=
  match l with
  | [] => Some []
  | None :: _ => None
  | Some x :: r => let* xs := all_some r in Some (x :: xs)
  end.

(** [item.get(section, {}).get(key, default)]. *)
Definition sub_get (item : value) (section key : string) (default : value) : option value :=
  let* s := Py.get item section (VDict []) in
  Py.get s key default.

(** [_parse_video_item]: [None] is the result of the [except] branch. *)
Definition _parse_video_item (item : value) : option value :=
  let* id := Py.get item "id" VNone in
  let* desc := Py.get item "desc" (VStr "") in
  let* created := Py.get item "createTime" VNone in
  let* a_id := sub_get item "author" "id" VNone in
  let* a_username := sub_get item "author" "uniqueId" VNone in
  let* a_nickname := sub_get item "author" "nickname" VNone in
  let* a_verified := sub_get item "author" "verified" (VBool false) in
  let* a_avatar := sub_get item "author" "avatarThumb" VNone in
  let* s_views := sub_get item "stats" "playCount" (VInt 0) in
  let* s_likes := sub_get item "stats" "diggCount" (VInt 0) in
  let* s_comments := sub_get item "stats" "commentCount" (VInt 0) in
  let* s_shares := sub_get item "stats" "shareCount" (VInt 0) in
  let* v_duration := sub_get item "video" "duration" VNone in
  let* v_ratio := sub_get item "video" "ratio" VNone in
  let* v_cover := sub_get item "video" "cover" VNone in
  let* v_download := sub_get item "video" "downloadAddr" VNone in
  let* v_play := sub_get item "video" "playAddr" VNone in
  let* m_id := sub_get item "music" "id" VNone in
  let* m_title := sub_get item "music" "title" VNone in
  let* m_author := sub_get item "music" "authorName" VNone in
  let* challenges := Py.get item "challenges" (VList []) in
  let* tags := Py.iter challenges in
  let* titles := all_some (map (fun tag => Py.get tag "title" VNone) tags) in
  Some (VDict
    [ ("id", id);
      ("description", desc);
      ("created_at", created);
      ("author", VDict [ ("id", a_id); ("username", a_username);
                         ("nickname", a_nickname); ("verified", a_verified);
                         ("avatar", a_avatar) ]);
      ("stats", VDict [ ("views", s_views); ("likes", s_likes);
                        ("comments", s_comments); ("shares", s_shares) ]);
      ("video", VDict [ ("duration", v_duration); ("ratio", v_ratio);
                        ("cover", v_cover); ("download_url", v_download);
                        ("play_url", v_play) ]);
      ("music", VDict [ ("id", m_id); ("title", m_title); ("author", m_author) ]);
      ("hashtags", VList titles);
      ("url", VStr ("https://www.tiktok.com/@" ++ Fmt.str a_username
                      ++ "/video/" ++ Fmt.str id)) ]).

(** The inner loop of [_parse_hashtag_json]: [for item_id, item_data in
    items.items()], appending to [videos]. *)
Fixpoint scan_items (items : Py.dict) (videos : list value) : list value :=
  match items with
  | [] => videos
  | (_, item_data) :: r =>
      let videos' :=
        match item_data with
        | VDict d =>
            match Py.dict_get d "video" with
            | Some _ =>
                match _parse_video_item item_data with
                | Some video => if Py.truthy video then (videos ++ [video])%list else videos
                | None => videos
                end
            | None => videos
            end
        | _ => videos
        end in
      scan_items r videos'
  end.

(** [scope[key]] for a key met while iterating [scope].  A key that is
    not a string and whose text holds the module names is a list or a
    dict, which no container takes as an index. *)
Definition getitem_key (scope key : value) : option value :=
  match key with
  | VStr k => Py.getitem scope k
  | _ => None
  end.

(** The outer loop, [for key in scope]; it stops where the body raises,
    with the videos found so far. *)
Fixpoint scan_scope (scope : value) (keys : list value) (videos : list value)
  : list value :=
  match keys with
  | [] => videos
  | key :: r =>
      if Text.contains "itemList" (Fmt.str key) || Text.contains "itemModule" (Fmt.str key)
      then
        match getitem_key scope key with
        | Some (VDict items) => scan_scope scope r (scan_items items videos)
        | Some _ => scan_scope scope r videos
        | None => videos
        end
      else scan_scope scope r videos
  end.

(** The challenge block of [_parse_hashtag_json]: [None] when it raises,
    [Some None] when there is nothing to record. *)
Definition challenge_info (scope : value) : option (option value) :=
  let* has := Py.contains_key "webapp.challenge-detail" scope in
  if has then
    let* challenge := Py.getitem scope "webapp.challenge-detail" in
    let* has_info := Py.contains_key "challengeInfo" challenge in
    if has_info then
      let* ci := Py.getitem challenge "challengeInfo" in
      let* info := Py.getitem ci "challenge" in
      let* id := Py.get info "id" VNone in
      let* title := Py.get info "title" VNone in
      let* desc := Py.get info "desc" VNone in
      let* views := Py.get info "viewCount" VNone in
      let* count := Py.get info "videoCount" VNone in
      let* commerce := Py.get info "isCommerce" (VBool false) in
      Some (Some (VDict [ ("id", id); ("title", title); ("description", desc);
                          ("view_count", views); ("video_count", count);
                          ("is_commerce", commerce) ]))
    else Some None
  else Some None.

(** What the [try] of [_parse_hashtag_json] leaves in [result]: the
    hashtag info and the videos. *)
Definition parse_scope (data : value) : value * list value :=
  match Py.contains_key "__DEFAULT_SCOPE__" data with
  | Some true =>
      match Py.getitem data "__DEFAULT_SCOPE__" with
      | Some scope =>
          match challenge_info scope with
          | Some oi =>
              let info := match oi with Some i => i | None => VDict [] end in
              match Py.iter scope with
              | Some keys => (info, scan_scope scope keys [])
              | None => (info, [])
              end
          | None => (VDict [], [])
          end
      | None => (VDict [], [])
      end
  | _ => (VDict [], [])
  end.

(** [_parse_hashtag_json]; [now] is [datetime.now().isoformat()]. *)
Definition _parse_hashtag_json (now : string) (data : value) (hashtag : string) : value :=
  let '(info, videos) := parse_scope data in
  VDict [ ("hashtag", VStr hashtag); ("scraped_at", VStr now);
          ("hashtag_info", info); ("videos", VList videos) ].

(** [video_info[k] = v] when [k in item], nothing otherwise; the value is
    built by [build], which may raise. *)
Definition set_if_present (item : value) (k field : string)
    (build : value -> option value) (video_info : Py.dict) : option Py.dict :=
  let* has := Py.contains_key k item in
  if has then
    let* part := Py.getitem item k in
    let* v := build part in
    Some (Py.dict_set video_info field v)
  else Some video_info.

Definition detail_author (author : value) : option value :=
  let* id := Py.get author "id" VNone in
  let* username := Py.get author "uniqueId" VNone in
  let* nickname := Py.get author "nickname" VNone in
  let* verified := Py.get author "verified" (VBool false) in
  let* avatar := Py.get author "avatarThumb" VNone in
  let* signature := Py.get author "signature" (VStr "") in
  Some (VDict [ ("id", id); ("username", username); ("nickname", nickname);
                ("verified", verified); ("avatar", avatar);
                ("signature", signature) ]).

Definition detail_stats (stats : value) : option value :=
  let* views := Py.get stats "playCount" (VInt 0) in
  let* likes := Py.get stats "diggCount" (VInt 0) in
  let* comments := Py.get stats "commentCount" (VInt 0) in
  let* shares := Py.get stats "shareCount" (VInt 0) in
  let* saves := Py.get stats "collectCount" (VInt 0) in
  Some (VDict [ ("views", views); ("likes", likes); ("comments", comments);
                ("shares", shares); ("saves", saves) ]).

Definition detail_video (video : value) : option value :=
  let* duration := Py.get video "duration" VNone in
  let* ratio := Py.get video "ratio" VNone in
  let* cover := Py.get video "cover" VNone in
  let* download := Py.get video "downloadAddr" VNone in
  let* play := Py.get video "playAddr" VNone in
  let* width := Py.get video "width" VNone in
  let* height := Py.get video "height" VNone in
  Some (VDict [ ("duration", duration); ("ratio", ratio); ("cover", cover);
                ("download_url", download); ("play_url", play);
                ("width", width); ("height", height) ]).

Definition detail_music (music : value) : option value :=
  let* id := Py.get music "id" VNone in
  let* title := Py.get music "title" VNone in
  let* author := Py.get music "authorName" VNone in
  let* duration := Py.get music "duration" VNone in
  let* original := Py.get music "original" (VBool false) in
  Some (VDict [ ("id", id); ("title", title); ("author", author);
                ("duration", duration); ("original", original) ]).

Definition detail_tag (tag : value) : option value :=
  let* id := Py.get tag "id" VNone in
  let* title := Py.get tag "title" VNone in
  let* desc := Py.get tag "desc" (VStr "") in
  Some (VDict [ ("id", id); ("title", title); ("description", desc) ]).

(** The list comprehension over [item.get('challenges', [])]. *)
Definition detail_hashtags (challenges : value) : option value :=
  let* tags := Py.iter challenges in
  let* l := all_some (map detail_tag tags) in
  Some (VList l).

(** [_parse_video_details_json]: [None] is [return None], reached either
    directly or through the [except] branch. *)
Definition _parse_video_details_json (data : value) (video_url : string) : option value :=
  let video_info := [ ("url", VStr video_url); ("scraped_via", VStr "video_page") ] in
  let* has_scope := Py.contains_key "__DEFAULT_SCOPE__" data in
  if negb has_scope then None else
  let* scope := Py.getitem data "__DEFAULT_SCOPE__" in
  let* has_detail := Py.contains_key "webapp.video-detail" scope in
  if negb has_detail then None else
  let* detail := Py.getitem scope "webapp.video-detail" in
  let* has_info := Py.contains_key "itemInfo" detail in
  if negb has_info then None else
  let* item_info := Py.getitem detail "itemInfo" in
  let* has_struct := Py.contains_key "itemStruct" item_info in
  if negb has_struct then None else
  let* item := Py.getitem item_info "itemStruct" in
  let* id := Py.get item "id" VNone in
  let video_info := Py.dict_set video_info "id" id in
  let* desc := Py.get item "desc" (VStr "") in
  let video_info := Py.dict_set video_info "description" desc in
  let* created := Py.get item "createTime" VNone in
  let video_info := Py.dict_set video_info "created_at" created in
  let* video_info := set_if_present item "author" "author" detail_author video_info in
  let* video_info := set_if_present item "stats" "stats" detail_stats video_info in
  let* video_info := set_if_present item "video" "video" detail_video video_info in
  let* video_info := set_if_present item "music" "music" detail_music video_info in
  let* video_info := set_if_present item "challenges" "hashtags" detail_hashtags video_info in
  Some (VDict video_info).

(* ===================================================================== *)
(** * The browser, as the scraper sees it *)
(* ===================================================================== *)

(** Each Playwright call is answered by the page it is made on; the
    records below hold the answers.  Delays ([asyncio.sleep], the jitter
    of a detail visit) change no answer and are left out, and so are
    [print]s. *)
Module Browser.

(** An [<a>] inside a feed item: [link.get_attribute('href')]. *)
Record Link : Type := { get_href : outcome (option string) }.

(** A feed item ([data-e2e="challenge-item"]): [element.query_selector('a')]
    and [element.inner_text()]. *)
Record FeedElement : Type := {
  query_a : outcome (option Link);
  inner_text : outcome string
}.

(** One round of the scroll loop: the items rendered when the round
    starts, and [document.body.scrollHeight] before and after the scroll. *)
Record Round : Type := {
  video_elements : list FeedElement;
  current_height : Z;
  new_height : Z
}.

(** A node found inside a comment: [inner_text()]. *)
Record SubElement : Type := { sub_inner_text : outcome string }.

(** A top-level comment node, a handle with an identity. *)
Record CommentNode : Type := {
  node_id : nat;
  node_query : string -> outcome (option SubElement);
  node_inner_text : outcome string
}.

(** One scroll of the comment list: the [page.evaluate] that scrolls, and
    the [query_selector_all] that follows. *)
Record ScrollAnswer : Type := {
  scrolled : outcome unit;
  requery : outcome (list CommentNode)
}.

(** The comment side of a detail page: the comment icon (absent, or with
    the end of its [click()]), the first query for comment nodes, and the
    answers to the scrolls, by attempt. *)
Record CommentPage : Type := {
  comment_icon : outcome (option (outcome unit));
  first_query : outcome (list CommentNode);
  scroll_answer : nat -> ScrollAnswer
}.

(** The embedded payload of a page: the [page.evaluate] that looks for the
    script may raise, find nothing (or an empty text), find a text that
    [json.loads] refuses, or a text that it parses. *)
Inductive Script : Type :=
  | EvalRaises
  | NoScript
  | BadJson
  | Json (data : value).

(** A detail page. *)
Record DetailPage : Type := {
  dp_goto : outcome unit;
  dp_script : Script;
  dp_comments : CommentPage;
  dp_close : outcome unit
}.

(** A browser context: [context.new_page()] for the [i]-th visit, to be
    sent to [url]. *)
Definition Context : Type := nat -> string -> outcome DetailPage.

(** The feed page of a session. *)
Record FeedPage : Type := {
  goto : outcome unit;
  refresh_button : option (outcome unit);
  script : Script;
  rounds : nat -> Round;
  context : Context
}.

(** [page.get_by_role("button", name="Refresh").click()]: a locator waits
    for its element, and raises [TimeoutError] when none shows up. *)
Definition click_locator (button : option (outcome unit)) : outcome unit :=
  match button with
  | Some o => o
  | None => Raises PlaywrightTimeout
  end.

Definition data_e2e (name : string) : string :=
  "[data-e2e=" ++ String Fmt.quote2 (name ++ String Fmt.quote2 "]").

Definition class_has (tag name : string) : string :=
  tag ++ "[class*=" ++ String Fmt.quote2 (name ++ String Fmt.quote2 "]").

End Browser.
Import Browser.

(* ===================================================================== *)
(** * ElementExtractor and ScrollCollector *)
(* ===================================================================== *)

(** [_extract_video_info_from_element]. *)
Definition _extract_video_info_from_element (element : FeedElement) (url : string)
  : option value :=
  let video_id := match Fmt.search_video_id url with
                  | Some d => VStr d
                  | None => VNone
                  end in
  match inner_text element with
  | Raises _ => None
  | Returns stats_text =>
      Some (VDict
        [ ("id", video_id);
          ("url", VStr (if startswith "http" url then url
                        else "https://www.tiktok.com" ++ url));
          ("stats_text", VStr stats_text);
          ("scraped_via", VStr "html_scroll");
          ("stats", VDict [ ("views", VInt 0); ("likes", VInt 0);
                            ("comments", VInt 0); ("shares", VInt 0) ]) ])
  end.

(** [[v.get('url') for v in videos]]. *)
Definition collected_urls (videos : list value) : option (list value) :=
  all_some (map (fun v => Py.get v "url" VNone) videos).

(** [href in urls]. *)
Definition href_in (href : string) (urls : list value) : bool :=
  existsb (fun u => Py.eq_str u href) urls.

(** The [try] block run for one element of a round; an exception leaves
    [videos] as it was ([continue]). *)
Definition visit_element (element : FeedElement) (videos : list value) : list value :=
  match query_a element with
  | Returns (Some link) =>
      match get_href link with
      | Returns (Some href) =>
          if String.eqb href "" then videos else
          match collected_urls videos with
          | Some urls =>
              if href_in href urls then videos else
              match _extract_video_info_from_element element href with
              | Some video_info =>
                  if Py.truthy video_info then (videos ++ [video_info])%list else videos
              | None => videos
              end
          | None => videos
          end
      | _ => videos
      end
  | _ => videos
  end.

(** [for element in video_elements], with its [break]. *)
Fixpoint visit_elements (max_videos : Z) (elements : list FeedElement)
    (videos : list value) : list value :=
  match elements with
  | [] => videos
  | element :: r =>
      if max_videos <=? Py.len videos then videos
      else visit_elements max_videos r (visit_element element videos)
  end.

(** The variables of the scroll loop. *)
Record ScrollState : Type := {
  videos : list value;
  last_height : Z;
  scroll_attempts : Z
}.

Definition max_scroll_attempts : Z := 20.

Definition scroll_start : ScrollState :=
  {| videos := []; last_height := 0; scroll_attempts := 0 |}.

(** The condition of the [while]. *)
Definition keep_scrolling (max_videos : Z) (st : ScrollState) : bool :=
  (Py.len (videos st) <? max_videos) && (scroll_attempts st <? max_scroll_attempts).

(** The body of the [while]. *)
Definition scroll_round (max_videos : Z) (r : Round) (st : ScrollState) : ScrollState :=
  {| videos := visit_elements max_videos (video_elements r) (videos st);
     last_height := new_height r;
     scroll_attempts := if new_height r =? current_height r
                        then scroll_attempts st + 1 else 0 |}.

(** The [while] loop from round [n] on; [None] when [fuel] rounds were
    not enough to leave it. *)
Fixpoint scroll_loop (fuel : nat) (page : nat -> Round) (n : nat) (max_videos : Z)
    (st : ScrollState) : option ScrollState :=
  if keep_scrolling max_videos st then
    match fuel with
    | O => None
    | S fuel' => scroll_loop fuel' page (S n) max_videos (scroll_round max_videos (page n) st)
    end
  else Some st.

(* ===================================================================== *)
(** * CommentHarvester *)
(* ===================================================================== *)

(** One selector chain of [_extract_comment_data]: the first selector
    whose node exists and gives its text decides; [f] is applied to the
    text, and [default] stands when no selector does. *)
Fixpoint first_match {A : Type} (element : CommentNode) (selectors : list string)
    (f : string -> A) (default : A) : A :=
  match selectors with
  | [] => default
  | selector :: r =>
      match node_query element selector with
      | Returns (Some elem) =>
          match sub_inner_text elem with
          | Returns text => f text
          | Raises _ => first_match element r f default
          end
      | _ => first_match element r f default
      end
  end.

Definition text_selectors : list string :=
  [ data_e2e "comment-text"; class_has "" "CommentText"; class_has "span" "SpanText" ].
Definition username_selectors : list string :=
  [ data_e2e "comment-username"; class_has "" "CommentUsername";
    class_has "a" "StyledUserLinkName" ].
Definition like_selectors : list string :=
  [ data_e2e "comment-like-count"; class_has "" "LikeCount" ].
Definition time_selectors : list string :=
  [ data_e2e "comment-time"; class_has "span" "CommentTime"; "time" ].

(** [_extract_comment_data]. *)
Definition _extract_comment_data (element : CommentNode) : option value :=
  let comment_text := first_match element text_selectors (fun t => t) "" in
  match (if String.eqb comment_text "" then node_inner_text element
         else Returns comment_text) with
  | Raises _ => None
  | Returns comment_text =>
      let username := first_match element username_selectors (fun t => t) "" in
      let likes := first_match element like_selectors _parse_count 0 in
      let timestamp := first_match element time_selectors (fun t => t) "" in
      if String.eqb comment_text "" then None
      else Some (VDict
        [ ("text", VStr (strip comment_text));
          ("author", VStr (if String.eqb username "" then "Unknown" else strip username));
          ("likes", VInt likes);
          ("timestamp", VStr (if String.eqb timestamp "" then "" else strip timestamp)) ])
  end.

(** What the list [comments] holds: element handles, and the records
    appended to it. *)
Inductive entry : Type :=
  | Node (element : CommentNode)
  | Data (comment_data : value).

Definition max_scroll : nat := 5.

(** The [while] of [_scrape_comments_from_page]; [remaining] is
    [max_scroll - scroll_attempts]. *)
Fixpoint comment_scroll (page : CommentPage) (max_comments : Z) (remaining : nat)
    (scroll_attempts : nat) (comments : list CommentNode) : list CommentNode :=
  match remaining with
  | O => comments
  | S remaining' =>
      if Py.len comments <? max_comments then
        let answer := scroll_answer page scroll_attempts in
        let comments' :=
          match scrolled answer with
          | Returns _ =>
              match requery answer with
              | Returns elements =>
                  if Py.len comments <? Py.len elements then elements else comments
              | Raises _ => comments
              end
          | Raises _ => comments
          end in
        comment_scroll page max_comments remaining' (S scroll_attempts) comments'
      else comments
  end.

(** The last loop: every element of [comments[:max_comments]] is
    extracted, and its record appended to [comments]. *)
Fixpoint extract_into (elements : list CommentNode) (comments : list entry) : list entry :=
  match elements with
  | [] => comments
  | element :: r =>
      match _extract_comment_data element with
      | Some comment_data =>
          if Py.truthy comment_data
          then extract_into r (comments ++ [Data comment_data])%list
          else extract_into r comments
      | None => extract_into r comments
      end
  end.

(** The list [_scrape_comments_from_page] returns. *)
Definition scrape_comment_entries (page : CommentPage) (max_comments : Z) : list entry :=
  match comment_icon page with
  | Returns (Some (Returns _)) =>
      match first_query page with
      | Returns [] => []
      | Returns comments =>
          let comments := comment_scroll page max_comments max_scroll 0 comments in
          extract_into (Py.slice_to max_comments comments) (map Node comments)
      | Raises _ => []
      end
  | _ => []
  end.

(** An entry as a Python object. *)
Definition entry_value (e : entry) : value :=
  match e with
  | Node element => VHandle (node_id element)
  | Data comment_data => comment_data
  end.

(** [_scrape_comments_from_page]. *)
Definition _scrape_comments_from_page (page : CommentPage) (max_comments : Z) : list value :=
  map entry_value (scrape_comment_entries page max_comments).

(* ===================================================================== *)
(** * DetailEnricher *)
(* ===================================================================== *)

(** The comment step of [scrape_video_details], for a parsed record:
    [None] when [comment_count > 0] raises. *)
Definition attach_comments (page : DetailPage) (max_comments : Z)
    (video_details : Py.dict) : option value :=
  let* stats := Py.get (VDict video_details) "stats" (VDict []) in
  let* comment_count := Py.get stats "comments" (VInt 0) in
  let* positive := Py.gt_zero comment_count in
  if positive then
    match _scrape_comments_from_page (dp_comments page) max_comments with
    | [] => Some (VDict video_details)
    | comments => Some (VDict (Py.dict_set video_details "comments" (VList comments)))
    end
  else Some (VDict video_details).

(** The inner [try] of [scrape_video_details], on an open page; [None] is
    either [return None] or an exception on its way to the outer
    [except], which returns [None] as well. *)
Definition visit_detail_page (page : DetailPage) (video_url : string)
    (scrape_comments : bool) (max_comments : Z) : option value :=
  match dp_goto page with
  | Raises _ => None
  | Returns _ =>
      match dp_script page with
      | Json data =>
          match _parse_video_details_json data video_url with
          | Some (VDict video_details) =>
              if scrape_comments && Py.truthy (VDict video_details)
              then attach_comments page max_comments video_details
              else Some (VDict video_details)
          | other => other
          end
      | _ => None
      end
  end.

(** [scrape_video_details]: the page is closed on every path, and an
    exception of [close()] is caught like any other. *)
Definition scrape_video_details (new_page : outcome DetailPage) (video_url : string)
    (scrape_comments : bool) (max_comments : Z) : option value :=
  match new_page with
  | Raises _ => None
  | Returns page =>
      let result := visit_detail_page page video_url scrape_comments max_comments in
      match dp_close page with
      | Returns _ => result
      | Raises _ => None
      end
  end.

Definition type_name (v : value) : string :=
  match v with
  | VNone => "NoneType"
  | VBool _ => "bool"
  | VInt _ => "int"
  | VStr _ => "str"
  | VList _ => "list"
  | VDict _ => "dict"
  | VHandle _ => "ElementHandle"
  end.

(** One turn of the detail loop of [_scrape_videos_by_scrolling]: the
    record that is appended to [detailed_videos].  The loop is outside any
    [try]: a [video] without [get] or without a url raises. *)
Definition enrich (ctx : Context) (i : nat) (scrape_comments : bool)
    (max_comments : Z) (video : value) : outcome value :=
  match Py.get video "url" VNone with
  | None =>
      Raises (PyError (String Fmt.quote1 (type_name video)
                         ++ String Fmt.quote1 " object has no attribute "
                         ++ Fmt.repr_str "get"))
  | Some _ =>
      match Py.getitem video "url" with
      | None => Raises (PyError (Fmt.repr_str "url"))
      | Some url =>
          let detailed_info :=
            match url with
            | VStr u => scrape_video_details (ctx i u) u scrape_comments max_comments
            | _ => None
            end in
          match detailed_info with
          | Some d => Returns (if Py.truthy d then d else video)
          | None => Returns video
          end
      end
  end.

(** [for i, video in enumerate(videos, 1)]: the detail visits, one after
    the other, in the order of [videos]. *)
Fixpoint enrich_from (ctx : Context) (i : nat) (scrape_comments : bool)
    (max_comments : Z) (videos : list value) (detailed_videos : list value)
  : outcome (list value) :=
  match videos with
  | [] => Returns detailed_videos
  | video :: r =>
      match enrich ctx i scrape_comments max_comments video with
      | Returns d =>
          enrich_from ctx (S i) scrape_comments max_comments r (detailed_videos ++ [d])%list
      | Raises e => Raises e
      end
  end.

(** What follows the [while] of [_scrape_videos_by_scrolling]. *)
Definition finish_scrolling (max_videos : Z) (ctx : option Context)
    (scrape_comments : bool) (max_comments : Z) (videos : list value)
  : outcome (list value) :=
  match ctx with
  | Some c =>
      match enrich_from c 1 scrape_comments max_comments videos [] with
      | Returns detailed_videos => Returns (Py.slice_to max_videos detailed_videos)
      | Raises e => Raises e
      end
  | None => Returns (Py.slice_to max_videos videos)
  end.

(** [_scrape_videos_by_scrolling]; [None] when the scroll loop needs more
    than [fuel] rounds. *)
Definition _scrape_videos_by_scrolling (fuel : nat) (page : nat -> Round)
    (max_videos : Z) (ctx : option Context) (scrape_comments : bool)
    (max_comments : Z) : option (outcome (list value)) :=
  match scroll_loop fuel page 0 max_videos scroll_start with
  | Some st => Some (finish_scrolling max_videos ctx scrape_comments max_comments (videos st))
  | None => None
  end.

(* ===================================================================== *)
(** * FeedSession *)
(* ===================================================================== *)

(** [_extract_from_json]; every failure gives the record without
    payload. *)
Definition _extract_from_json (now : string) (page : FeedPage) (hashtag : string)
  : Py.dict :=
  match script page with
  | Json data =>
      match _parse_hashtag_json now data hashtag with
      | VDict d => d
      | _ => [ ("hashtag", VStr hashtag); ("videos", VList []) ]
      end
  | _ => [ ("hashtag", VStr hashtag); ("videos", VList []) ]
  end.

(** [_extract_hashtag_data]. *)
Definition _extract_hashtag_data (fuel : nat) (now : string) (page : FeedPage)
    (hashtag : string) (max_videos : Z) (ctx : option Context)
    (scrape_comments : bool) (max_comments : Z) : option (outcome value) :=
  let hashtag_info := _extract_from_json now page hashtag in
  let found := match Py.dict_get hashtag_info "videos" with
               | Some v => v
               | None => VNone
               end in
  if Py.truthy found then Some (Returns (VDict hashtag_info))
  else
    match _scrape_videos_by_scrolling fuel (rounds page) max_videos ctx
            scrape_comments max_comments with
    | Some (Returns videos) =>
        Some (Returns (VDict (Py.dict_set hashtag_info "videos" (VList videos))))
    | Some (Raises e) => Some (Raises e)
    | None => None
    end.

(** The two [except] branches of [scrape_hashtag]. *)
Definition session_error (hashtag : string) (e : exn) : value :=
  VDict [ ("hashtag", VStr hashtag); ("videos", VList []);
          ("error", VStr match e with
                         | PlaywrightTimeout => "timeout"
                         | PyError msg => msg
                         end) ].

(** [scrape_hashtag], from the [try] on, for a browser that was launched
    and closes; [None] when the scroll loop needs more than [fuel]
    rounds. *)
Definition scrape_hashtag (fuel : nat) (now : string) (page : FeedPage)
    (hashtag : string) (max_videos : Z) (detailed_scrape : bool)
    (scrape_comments : bool) (max_comments : Z) : option value :=
  let hashtag := lstrip_char "#" hashtag in
  match goto page with
  | Raises e => Some (session_error hashtag e)
  | Returns _ =>
      match click_locator (refresh_button page) with
      | Raises e => Some (session_error hashtag e)
      | Returns _ =>
          match _extract_hashtag_data fuel now page hashtag max_videos
                  (if detailed_scrape then Some (context page) else None)
                  scrape_comments max_comments with
          | Some (Returns hashtag_data) => Some hashtag_data
          | Some (Raises e) => Some (session_error hashtag e)
          | None => None
          end
      end
  end.

(* ===================================================================== *)
(** * Vocabulary of the statements *)
(* ===================================================================== *)

(** The url of a record, as [v['url']] reads it. *)
Definition url_field (v : value) : option value := Py.getitem v "url".

(** A record with a url that is a string. *)
Definition has_url (v : value) : Prop := exists u, url_field v = Some (VStr u).

(** A record of the scroll collector: it has a url and the mark of the
    scroll. *)
Definition scroll_record (v : value) : Prop :=
  has_url v /\ Py.getitem v "scraped_via" = Some (VStr "html_scroll").

(** The href an element shows, when it shows a non-empty one. *)
Definition element_href (element : FeedElement) : option string :=
  match query_a element with
  | Returns (Some link) =>
      match get_href link with
      | Returns (Some href) => if String.eqb href "" then None else Some href
      | _ => None
      end
  | _ => None
  end.

(** The record an element gives when it is extracted, whatever was
    collected before it. *)
Definition candidate (element : FeedElement) : option value :=
  match element_href element with
  | Some href => _extract_video_info_from_element element href
  | None => None
  end.

(** Everything the first [k] rounds show, in the order the loop meets it. *)
Definition discovered (page : nat -> Round) (k : nat) : list value :=
  flat_map (fun n => omap candidate (video_elements (page n))) (seq 0 k).

(** The loop variables after [k] runs of the body. *)
Fixpoint scroll_state (page : nat -> Round) (max_videos : Z) (k : nat) : ScrollState :=
  match k with
  | O => scroll_start
  | S j => scroll_round max_videos (page j) (scroll_state page max_videos j)
  end.

(** A feed whose height no scroll changes from round [n0] on. *)
Definition stagnant_from (page : nat -> Round) (n0 : nat) : Prop :=
  forall n, (n0 <= n)%nat -> new_height (page n) = current_height (page n).

(** A feed all of whose hrefs are absolute. *)
Definition absolute_feed (page : nat -> Round) : Prop :=
  forall n element href,
    element ∈ video_elements (page n) ->
    element_href element = Some href ->
    startswith "http" href = true.

(** A record made from a detail page: it has the two fields every such
    record starts with. *)
Definition detail_record (video_url : string) (d : value) : Prop :=
  exists fields,
    d = VDict fields
    /\ Py.dict_get fields "url" = Some (VStr video_url)
    /\ Py.dict_get fields "scraped_via" = Some (VStr "video_page").

(** No record without a url, and no url twice. *)
Definition unique_urls (vs : list value) : Prop :=
  Forall has_url vs /\ NoDup (map url_field vs).

(** What the detail loop puts in the place of [video] on its [i]-th
    visit. *)
Definition enriched (ctx : Context) (scrape_comments : bool) (max_comments : Z)
    (i : nat) (video : value) : value :=
  match url_field video with
  | Some (VStr u) =>
      match scrape_video_details (ctx i u) u scrape_comments max_comments with
      | Some d => d
      | None => video
      end
  | _ => video
  end.

(** The detail page of a visit yields no record: the page cannot be
    opened or reached, or its payload is absent, malformed, or without
    the item. *)
Definition detail_parse_fails (new_page : outcome DetailPage) (video_url : string) : Prop :=
  match new_page with
  | Raises _ => True
  | Returns page =>
      match dp_goto page with
      | Raises _ => True
      | Returns _ =>
          match dp_script page with
          | Json data => _parse_video_details_json data video_url = None
          | _ => True
          end
      end
  end.

(* ===================================================================== *)
(** * Sample pages *)
(* ===================================================================== *)

(** Small pages on which the statements below are tried. *)
Module Samples.

(** A feed item with a link and a visible text. *)
Definition feed_item (href text : string) : FeedElement :=
  {| query_a := Returns (Some {| get_href := Returns (Some href) |});
     inner_text := Returns text |}.

(** A feed that shows the same items in every round and never grows. *)
Definition still_feed (elements : list FeedElement) : nat -> Round :=
  fun _ => {| video_elements := elements; current_height := 1000; new_height := 1000 |}.

(** A detail page without a comment icon. *)
Definition no_comments : CommentPage :=
  {| comment_icon := Returns None;
     first_query := Returns [];
     scroll_answer := fun _ => {| scrolled := Returns tt; requery := Returns [] |} |}.

Definition detail_page (s : Script) : DetailPage :=
  {| dp_goto := Returns tt; dp_script := s;
     dp_comments := no_comments; dp_close := Returns tt |}.

(** A context all of whose pages carry the script [s]. *)
Definition context_with (s : Script) : Context := fun _ _ => Returns (detail_page s).

(** The payload of a detail page. *)
Definition detail_payload : value :=
  VDict [ ("__DEFAULT_SCOPE__",
           VDict [ ("webapp.video-detail",
                    VDict [ ("itemInfo",
                             VDict [ ("itemStruct",
                                      VDict [ ("id", VStr "12");
                                              ("desc", VStr "clip") ]) ]) ]) ]) ].

(** An item of a feed payload. *)
Definition payload_item : value :=
  VDict [ ("id", VStr "7"); ("video", VDict []);
          ("author", VDict [ ("uniqueId", VStr "u") ]) ].

(** A feed payload that lists the same item in two modules. *)
Definition feed_payload : value :=
  VDict [ ("__DEFAULT_SCOPE__",
           VDict [ ("webapp.itemList", VDict [ ("7", payload_item) ]);
                   ("itemModule", VDict [ ("7", payload_item) ]) ]) ].

(** The record [_parse_video_item] makes of [payload_item]. *)
Definition payload_video : value :=
  VDict
    [ ("id", VStr "7"); ("description", VStr ""); ("created_at", VNone);
      ("author", VDict [ ("id", VNone); ("username", VStr "u"); ("nickname", VNone);
                         ("verified", VBool false); ("avatar", VNone) ]);
      ("stats", VDict [ ("views", VInt 0); ("likes", VInt 0);
                        ("comments", VInt 0); ("shares", VInt 0) ]);
      ("video", VDict [ ("duration", VNone); ("ratio", VNone); ("cover", VNone);
                        ("download_url", VNone); ("play_url", VNone) ]);
      ("music", VDict [ ("id", VNone); ("title", VNone); ("author", VNone) ]);
      ("hashtags", VList []);
      ("url", VStr "https://www.tiktok.com/@u/video/7") ].

(** The record the scroll collector makes of an item. *)
Definition scroll_video (id : value) (url text : string) : value :=
  VDict [ ("id", id); ("url", VStr url); ("stats_text", VStr text);
          ("scraped_via", VStr "html_scroll");
          ("stats", VDict [ ("views", VInt 0); ("likes", VInt 0);
                            ("comments", VInt 0); ("shares", VInt 0) ]) ].

(** The record made of [detail_payload] for the url [u]. *)
Definition detail_video (u : string) : value :=
  VDict [ ("url", VStr u); ("scraped_via", VStr "video_page");
          ("id", VStr "12"); ("description", VStr "clip"); ("created_at", VNone) ].

(** A feed page that loads; [refresh] tells whether it has the button. *)
Definition feed_page (refresh : option (outcome unit)) (s : Script)
    (elements : list FeedElement) (details : Script) : FeedPage :=
  {| goto := Returns tt; refresh_button := refresh; script := s;
     rounds := still_feed elements; context := context_with details |}.

(** A feed page that cannot be reached. *)
Definition unreachable_page (e : exn) : FeedPage :=
  {| goto := Raises e; refresh_button := Some (Returns tt); script := NoScript;
     rounds := still_feed []; context := context_with NoScript |}.

(** A node inside a comment with the text [t]. *)
Definition sub_text (t : string) : outcome (option SubElement) :=
  Returns (Some {| sub_inner_text := Returns t |}).

(** A comment node with a text and a like count. *)
Definition comment_node (id : nat) (text likes : string) : CommentNode :=
  {| node_id := id;
     node_query := fun selector =>
       if String.eqb selector (data_e2e "comment-text") then sub_text text
       else if String.eqb selector (data_e2e "comment-like-count") then sub_text likes
       else Returns None;
     node_inner_text := Returns text |}.

(** A detail page whose comment icon works and which shows [nodes]. *)
Definition comment_page (nodes : list CommentNode) : CommentPage :=
  {| comment_icon := Returns (Some (Returns tt));
     first_query := Returns nodes;
     scroll_answer := fun _ => {| scrolled := Returns tt; requery := Returns nodes |} |}.

End Samples.

(* ===================================================================== *)
(** * Output: [clean_for_json] *)
(* ===================================================================== *)

(** [clean_for_json] of [main]: dicts and lists are cleaned inside,
    strings, numbers, booleans and [None] are kept, and any other object
    is replaced by its [str].  The only other objects in this model are
    element handles; [handle_str] is the text Playwright gives them. *)
Fixpoint clean_for_json (handle_str : nat -> string) (obj : value) : value :=
  match obj with
  | VDict d =>
      VDict (map (fun kv => let '(k, v) := kv in (k, clean_for_json handle_str v)) d)
  | VList l => VList (map (clean_for_json handle_str) l)
  | VHandle node => VStr (handle_str node)
  | _ => obj
  end.

(** A value that [json.dump] can write: no handle anywhere inside. *)
Fixpoint json_value (v : value) : bool :=
  match v with
  | VDict d => forallb (fun kv => let '(_, x) := kv in json_value x) d
  | VList l => forallb json_value l
  | VHandle _ => false
  | _ => true
  end.

(* ===================================================================== *)
(** * Vocabulary of the further properties *)
(* ===================================================================== *)

(** The text a selector gives for a comment node, when its node exists
    and yields its text. *)
Definition answers (element : CommentNode) (selector : string) : option string :=
  match node_query element selector with
  | Returns (Some elem) =>
      match sub_inner_text elem with
      | Returns text => Some text
      | Raises _ => None
      end
  | _ => None
  end.

(** Whether an element gives a record when it is extracted. *)
Definition has_candidate (element : FeedElement) : bool :=
  match candidate element with Some _ => true | None => false end.

(** The video an entry of an item module gives, if any. *)
Definition item_video (item_data : value) : option value :=
  match item_data with
  | VDict d =>
      match Py.dict_get d "video" with
      | Some _ => _parse_video_item item_data
      | None => None
      end
  | _ => None
  end.

(** The videos of one key of the scope. *)
Definition module_videos (kv : string * value) : list value :=
  let '(key, items) := kv in
  if Text.contains "itemList" key || Text.contains "itemModule" key then
    match items with
    | VDict d => omap item_video (map snd d)
    | _ => []
    end
  else [].

(** A record of the scroll collector, field by field. *)
Definition basic_record (v : value) : Prop :=
  exists id url text,
    v = Samples.scroll_video id url text
    /\ startswith "http" url = true
    /\ (id = VNone \/ exists d, id = VStr d /\ d <> "" /\ all_chars is_digit d = true).

(** A record of the comment harvester, field by field. *)
Definition comment_record (c : value) : Prop :=
  exists text author likes timestamp,
    c = VDict [ ("text", VStr text); ("author", VStr author);
                ("likes", VInt likes); ("timestamp", VStr timestamp) ]
    /\ strip text = text /\ strip author = author /\ strip timestamp = timestamp.

(** A round without the elements that give no record. *)
Definition working_round (r : Round) : Round :=
  {| video_elements := List.filter has_candidate (video_elements r);
     current_height := current_height r;
     new_height := new_height r |}.

(** A feed that shows the one element [element] in every round, with a
    height that no scroll changes. *)
Definition single_item_feed (element : FeedElement) (height : Z) : nat -> Round :=
  fun _ => {| video_elements := [element]; current_height := height; new_height := height |}.

(** The comment nodes [_scrape_comments_from_page] ends up with: those of
    the last query that gave more than the one before it. *)
Definition harvest_nodes (page : CommentPage) (max_comments : Z) : list CommentNode :=
  match comment_icon page with
  | Returns (Some (Returns _)) =>
      match first_query page with
      | Returns [] => []
      | Returns comments => comment_scroll page max_comments max_scroll 0 comments
      | Raises _ => []
      end
  | _ => []
  end.

(** [x.get(k, default)] on the key table. *)
Definition dict_get_default (d : Py.dict) (k : string) (default : value) : value :=
  match Py.dict_get d k with
  | Some x => x
  | None => default
  end.

(* ===================================================================== *)
(** * Properties of the text helpers *)
(* ===================================================================== *)

Module TextFacts.
Import Text.

Ltac each_char c := destruct c as [[] [] [] [] [] [] [] []]; reflexivity.

Lemma is_space_upper c : is_space (upper_char c) = is_space c.
Proof. each_char c. Qed.

Lemma is_space_lower c : is_space (lower_char c) = is_space c.
Proof. each_char c. Qed.

Lemma is_digit_upper c : is_digit (upper_char c) = is_digit c.
Proof. each_char c. Qed.

Lemma upper_lower_char c : upper_char (lower_char c) = upper_char c.
Proof. each_char c. Qed.

Lemma upper_upper_char c : upper_char (upper_char c) = upper_char c.
Proof. each_char c. Qed.

Lemma digit_not_space c : is_digit c = true -> is_space c = false.
Proof. destruct c as [[] [] [] [] [] [] [] []]; vm_compute; intros; congruence. Qed.

Lemma digit_upper_fixed c : is_digit c = true -> upper_char c = c.
Proof. destruct c as [[] [] [] [] [] [] [] []]; vm_compute; intros; congruence. Qed.

Lemma map_chars_compose f g s :
  map_chars f (map_chars g s) = map_chars (fun c => f (g c)) s.
Proof. induction s as [|c r IH]; simpl; [reflexivity | now rewrite IH]. Qed.

Lemma map_chars_ext f g s :
  (forall c, f c = g c) -> map_chars f s = map_chars g s.
Proof. intros E. induction s as [|c r IH]; simpl; [reflexivity | now rewrite E, IH]. Qed.

Lemma upper_lower s : upper (lower s) = upper s.
Proof.
  unfold upper, lower. rewrite map_chars_compose.
  apply map_chars_ext, upper_lower_char.
Qed.

Lemma upper_upper s : upper (upper s) = upper s.
Proof.
  unfold upper. rewrite map_chars_compose.
  apply map_chars_ext, upper_upper_char.
Qed.

Section Mapped.
Variable f : ascii -> ascii.
Hypothesis keeps_space : forall c, is_space (f c) = is_space c.

Lemma lstrip_map s : lstrip (map_chars f s) = map_chars f (lstrip s).
Proof.
  induction s as [|c r IH]; simpl; [reflexivity|].
  rewrite keeps_space. destruct (is_space c); [exact IH | reflexivity].
Qed.

Lemma rstrip_map s : rstrip (map_chars f s) = map_chars f (rstrip s).
Proof.
  induction s as [|c r IH]; simpl; [reflexivity|].
  rewrite IH, keeps_space.
  destruct (rstrip r); simpl; [destruct (is_space c)|]; reflexivity.
Qed.

Lemma strip_map s : strip (map_chars f s) = map_chars f (strip s).
Proof. unfold strip. now rewrite lstrip_map, rstrip_map. Qed.
End Mapped.

Lemma strip_upper s : strip (upper s) = upper (strip s).
Proof. apply strip_map, is_space_upper. Qed.

Lemma strip_lower s : strip (lower s) = lower (strip s).
Proof. apply strip_map, is_space_lower. Qed.

(** Blank text on either side is stripped away. *)
Lemma lstrip_blank_app l s : all_chars is_space l = true -> lstrip (l ++ s) = lstrip s.
Proof.
  induction l as [|c r IH]; simpl; [reflexivity|].
  intros H. apply andb_true_iff in H as [Hc Hr]. rewrite Hc. auto.
Qed.

Lemma lstrip_blank r : all_chars is_space r = true -> lstrip r = "".
Proof.
  induction r as [|c r IH]; simpl; [reflexivity|].
  intros H. apply andb_true_iff in H as [Hc Hr]. rewrite Hc. auto.
Qed.

Lemma rstrip_blank r : all_chars is_space r = true -> rstrip r = "".
Proof.
  induction r as [|c r IH]; simpl; [reflexivity|].
  intros H. apply andb_true_iff in H as [Hc Hr]. now rewrite IH, Hc.
Qed.

Lemma rstrip_app_blank s r : all_chars is_space r = true -> rstrip (s ++ r) = rstrip s.
Proof.
  intros H. induction s as [|c s IH]; simpl.
  - now apply rstrip_blank.
  - now rewrite IH.
Qed.

Lemma strip_app_blank s r : all_chars is_space r = true -> strip (s ++ r) = strip s.
Proof.
  intros H. unfold strip. induction s as [|c s IH]; simpl.
  - now rewrite lstrip_blank.
  - destruct (is_space c); [exact IH|].
    change (String c (s ++ r)) with (String c s ++ r).
    now apply rstrip_app_blank.
Qed.

Lemma strip_padded l s r :
  all_chars is_space l = true -> all_chars is_space r = true ->
  strip (l ++ s ++ r) = strip s.
Proof.
  intros Hl Hr. unfold strip at 1. rewrite lstrip_blank_app by exact Hl.
  now apply strip_app_blank.
Qed.

(** Text without blanks at its ends is its own [strip]. *)
Lemma rstrip_no_space s : all_chars (fun c => negb (is_space c)) s = true -> rstrip s = s.
Proof.
  induction s as [|c r IH]; simpl; [reflexivity|].
  intros H. apply andb_true_iff in H as [Hc Hr]. rewrite IH by exact Hr.
  destruct r; [|reflexivity]. apply negb_true_iff in Hc. now rewrite Hc.
Qed.

Lemma lstrip_no_space s : all_chars (fun c => negb (is_space c)) s = true -> lstrip s = s.
Proof.
  destruct s as [|c r]; simpl; [reflexivity|].
  intros H. apply andb_true_iff in H as [Hc Hr].
  apply negb_true_iff in Hc. now rewrite Hc.
Qed.

Lemma strip_no_space s : all_chars (fun c => negb (is_space c)) s = true -> strip s = s.
Proof. intros H. unfold strip. rewrite lstrip_no_space by exact H. now apply rstrip_no_space. Qed.

Lemma all_chars_impl (p q : ascii -> bool) s :
  (forall c, p c = true -> q c = true) -> all_chars p s = true -> all_chars q s = true.
Proof.
  intros I. induction s as [|c r IH]; simpl; [reflexivity|].
  intros H. apply andb_true_iff in H as [Hc Hr]. rewrite (I _ Hc). simpl. auto.
Qed.

(** The helpers below only drop or rewrite characters, so a property of
    every character survives them. *)
Lemma all_chars_lstrip p s : all_chars p s = true -> all_chars p (lstrip s) = true.
Proof.
  induction s as [|c r IH]; simpl; [reflexivity|].
  intros H. destruct (is_space c); [|exact H].
  apply andb_true_iff in H as [_ Hr]. auto.
Qed.

Lemma all_chars_rstrip p s : all_chars p s = true -> all_chars p (rstrip s) = true.
Proof.
  induction s as [|c r IH]; simpl; [reflexivity|].
  intros H. apply andb_true_iff in H as [Hc Hr]. specialize (IH Hr).
  destruct (rstrip r).
  - destruct (is_space c); simpl; [reflexivity | now rewrite Hc].
  - simpl in *. now rewrite Hc, IH.
Qed.

Lemma all_chars_strip p s : all_chars p s = true -> all_chars p (strip s) = true.
Proof. intros H. now apply all_chars_rstrip, all_chars_lstrip. Qed.

Lemma all_chars_remove p x s : all_chars p s = true -> all_chars p (remove_char x s) = true.
Proof.
  induction s as [|c r IH]; simpl; [reflexivity|].
  intros H. apply andb_true_iff in H as [Hc Hr].
  destruct (Ascii.eqb c x); simpl; [|rewrite Hc]; auto.
Qed.

Lemma all_chars_map p f s :
  (forall c, p c = true -> p (f c) = true) ->
  all_chars p s = true -> all_chars p (map_chars f s) = true.
Proof.
  intros I. induction s as [|c r IH]; simpl; [reflexivity|].
  intros H. apply andb_true_iff in H as [Hc Hr]. rewrite (I _ Hc). simpl. auto.
Qed.

Lemma remove_char_absent x s : contains_char x s = false -> remove_char x s = s.
Proof.
  induction s as [|c r IH]; simpl; [reflexivity|].
  intros H. apply orb_false_iff in H as [Hc Hr]. rewrite Hc. now rewrite IH.
Qed.

Lemma contains_char_absent (p : ascii -> bool) x s :
  p x = false -> all_chars p s = true -> contains_char x s = false.
Proof.
  intros Hx. induction s as [|c r IH]; simpl; [reflexivity|].
  intros H. apply andb_true_iff in H as [Hc Hr]. rewrite IH by exact Hr.
  destruct (Ascii.eqb_spec c x) as [->|]; [congruence | reflexivity].
Qed.

Lemma upper_digits s : all_chars is_digit s = true -> upper s = s.
Proof.
  unfold upper. induction s as [|c r IH]; simpl; [reflexivity|].
  intros H. apply andb_true_iff in H as [Hc Hr].
  now rewrite digit_upper_fixed, IH.
Qed.

End TextFacts.

(* ===================================================================== *)
(** * Properties of the number readers *)
(* ===================================================================== *)

Module NumFacts.
Import Text Num TextFacts.

Lemma parse_sign_digit c r :
  is_digit c = true -> parse_sign (String c r) = (false, String c r).
Proof.
  destruct c as [[] [] [] [] [] [] [] []]; vm_compute; intros; congruence.
Qed.

Lemma digit_not_underscore c : is_digit c = true -> Ascii.eqb c "_" = false.
Proof.
  destruct c as [[] [] [] [] [] [] [] []]; vm_compute; intros; congruence.
Qed.

Lemma underscores_ok_digits prev ds :
  all_chars is_digit ds = true ->
  match prev with Some p => Ascii.eqb p "_" = false | None => True end ->
  underscores_ok_from prev ds = true.
Proof.
  revert prev. induction ds as [|c r IH]; intros prev H Hp; simpl.
  - destruct prev as [p|]; [|reflexivity]. now rewrite Hp.
  - simpl in H. apply andb_true_iff in H as [Hc Hr].
    rewrite (digit_not_underscore c Hc), Hc, andb_false_r. simpl.
    apply IH; [exact Hr | now apply digit_not_underscore].
Qed.

Lemma digits_no_underscore ds : all_chars is_digit ds = true -> remove_char "_" ds = ds.
Proof.
  intros H. apply remove_char_absent.
  now apply (contains_char_absent is_digit).
Qed.

Lemma digits_no_space ds :
  all_chars is_digit ds = true -> all_chars (fun c => negb (is_space c)) ds = true.
Proof.
  apply all_chars_impl. intros c Hc. now rewrite digit_not_space.
Qed.

(** [int] reads a run of digits as the number it denotes. *)
Lemma py_int_digits ds :
  ds <> "" -> all_chars is_digit ds = true ->
  (String.length ds <= int_max_str_digits)%nat ->
  py_int ds = Some (digits_value ds).
Proof.
  intros Hne Hd Hlen. unfold py_int.
  rewrite strip_no_space by now apply digits_no_space.
  destruct ds as [|c r]; [congruence|].
  pose proof Hd as Hd'. simpl in Hd'. apply andb_true_iff in Hd' as [Hc _].
  rewrite (parse_sign_digit c r Hc).
  unfold underscores_ok. rewrite underscores_ok_digits by (exact Hd || exact I).
  simpl negb. cbv iota. rewrite digits_no_underscore by exact Hd.
  rewrite Hd. apply Nat.leb_le in Hlen. rewrite Hlen. reflexivity.
Qed.

Lemma py_int_minus_digits ds :
  ds <> "" -> all_chars is_digit ds = true ->
  (String.length ds <= int_max_str_digits)%nat ->
  py_int (String "-" ds) = Some (- digits_value ds).
Proof.
  intros Hne Hd Hlen. unfold py_int.
  rewrite strip_no_space.
  2:{ simpl. now apply digits_no_space. }
  change (parse_sign (String "-" ds)) with (true, ds).
  unfold underscores_ok. rewrite underscores_ok_digits by (exact Hd || exact I).
  simpl negb. cbv iota. rewrite digits_no_underscore by exact Hd.
  destruct ds as [|c r]; [congruence|].
  rewrite Hd. apply Nat.leb_le in Hlen. rewrite Hlen. reflexivity.
Qed.

(** The numeral that [str] writes for a natural number. *)
Lemma uint_digits u : all_chars is_digit (NilEmpty.string_of_uint u) = true.
Proof. induction u; simpl; auto. Qed.

Lemma digits_value_acc u acc :
  digits_value_from (Zpos acc) (NilEmpty.string_of_uint u) = Zpos (Pos.of_uint_acc u acc).
Proof.
  revert acc. induction u; intros acc; simpl; [reflexivity|..];
    rewrite <- IHu; f_equal;
    match goal with |- context [digit_value ?c] =>
      let d := eval vm_compute in (digit_value c) in
      change (digit_value c) with d
    end; lia.
Qed.

Lemma digits_value_uint u :
  digits_value (NilEmpty.string_of_uint u) = Z.of_uint u.
Proof.
  unfold digits_value, Z.of_uint.
  induction u; simpl; [reflexivity | exact IHu | ..];
    exact (digits_value_acc u _).
Qed.

Lemma pos_numeral p :
  NilZero.string_of_uint (Pos.to_uint p) = NilEmpty.string_of_uint (Pos.to_uint p)
  /\ NilEmpty.string_of_uint (Pos.to_uint p) <> ""
  /\ digits_value (NilEmpty.string_of_uint (Pos.to_uint p)) = Zpos p.
Proof.
  assert (V : digits_value (NilEmpty.string_of_uint (Pos.to_uint p)) = Zpos p).
  { rewrite digits_value_uint. unfold Z.of_uint.
    now rewrite DecimalPos.Unsigned.of_to. }
  assert (N : NilEmpty.string_of_uint (Pos.to_uint p) <> "").
  { intros E. rewrite E in V. discriminate V. }
  repeat split; try assumption.
  destruct (Pos.to_uint p); [now contradiction N | reflexivity..].
Qed.

(** A literal without a digit is read as an infinity, as a NaN, or not
    at all. *)

Lemma span_digits_no_digit s :
  all_chars no_digit s = true -> span_digits s = ("", s).
Proof.
  destruct s as [|c r]; simpl; [reflexivity|].
  intros H. apply andb_true_iff in H as [Hc _].
  apply negb_true_iff in Hc. now rewrite Hc.
Qed.

Lemma no_digit_sign s :
  all_chars no_digit s = true -> all_chars no_digit (snd (parse_sign s)) = true.
Proof.
  destruct s as [|c r]; [reflexivity|].
  intros H. pose proof H as H'. simpl in H'. apply andb_true_iff in H' as [_ Hr].
  destruct c as [[] [] [] [] [] [] [] []]; simpl; solve [exact H | exact Hr].
Qed.

Lemma no_digit_tail c r : all_chars no_digit (String c r) = true -> all_chars no_digit r = true.
Proof. simpl. intros H. now apply andb_true_iff in H as [_ Hr]. Qed.

Lemma py_float_no_digit s x :
  all_chars no_digit s = true -> py_float s = Some x ->
  (exists neg, x = S754_infinity neg) \/ x = S754_nan.
Proof.
  intros H. unfold py_float.
  destruct (negb (underscores_ok (strip s))); [discriminate|].
  assert (Hr : all_chars no_digit (snd (parse_sign (remove_char "_" (strip s)))) = true)
    by now apply no_digit_sign, all_chars_remove, all_chars_strip.
  destruct (parse_sign (remove_char "_" (strip s))) as [neg r]. simpl in Hr.
  destruct (String.eqb (upper r) "INF" || String.eqb (upper r) "INFINITY").
  { intros [= <-]. left. now exists neg. }
  destruct (String.eqb (upper r) "NAN").
  { intros [= <-]. now right. }
  rewrite (span_digits_no_digit r Hr).
  assert (E : (match r with
               | String "." r' => span_digits r'
               | _ => ("", r)
               end) = ("", match r with String "." r' => r' | _ => r end)).
  { destruct r as [|c r']; [reflexivity|].
    apply no_digit_tail in Hr.
    destruct c as [[] [] [] [] [] [] [] []]; try reflexivity.
    now apply span_digits_no_digit. }
  rewrite E. simpl. discriminate.
Qed.

Lemma py_int_no_digit s : all_chars no_digit s = true -> py_int s = None.
Proof.
  intros H. unfold py_int.
  assert (Hr : all_chars no_digit (snd (parse_sign (strip s))) = true)
    by now apply no_digit_sign, all_chars_strip.
  destruct (parse_sign (strip s)) as [neg r]. simpl in Hr.
  destruct (negb (underscores_ok r)); [reflexivity|].
  apply (all_chars_remove _ "_") in Hr.
  destruct (remove_char "_" r) as [|c t]; [reflexivity|].
  simpl in Hr. apply andb_true_iff in Hr as [Hc _].
  apply negb_true_iff in Hc. simpl. now rewrite Hc.
Qed.

Lemma scaled_no_digit suffix factor s :
  all_chars no_digit s = true ->
  (exists m e, float_of_int factor = S754_finite false m e) ->
  scaled_count suffix factor s = None.
Proof.
  intros H (m & e & F). unfold scaled_count.
  destruct (py_float (remove_char suffix s)) as [x|] eqn:E; [|reflexivity].
  apply py_float_no_digit in E; [|now apply all_chars_remove].
  unfold float_mul_int. rewrite F.
  destruct E as [[neg ->] | ->]; reflexivity.
Qed.

End NumFacts.

(* ===================================================================== *)
(** * Exact float arithmetic on small integers *)
(* ===================================================================== *)

Module FloatFacts.
Import Text Num TextFacts NumFacts.

Lemma digits2_size p : digits2_pos p = Pos.size p.
Proof. induction p; simpl; now rewrite ?IHp. Qed.

Lemma digits2_log2 p : Zpos (digits2_pos p) = Z.log2 (Zpos p) + 1.
Proof.
  rewrite digits2_size. destruct p; simpl; try reflexivity; now rewrite Pos2Z.inj_succ.
Qed.

Lemma shr_1_even a :
  shr_1 {| shr_m := a * 2; shr_r := false; shr_s := false |}
  = {| shr_m := a; shr_r := false; shr_s := false |}.
Proof. destruct a; rewrite Z.mul_comm; reflexivity. Qed.

Lemma shr_exact n : forall a,
  SpecFloat.iter_pos shr_1 n {| shr_m := a * 2 ^ Zpos n; shr_r := false; shr_s := false |}
  = {| shr_m := a; shr_r := false; shr_s := false |}.
Proof.
  induction n as [n IH|n IH|]; intros a.
  - change (SpecFloat.iter_pos shr_1 n~1 ?x)
      with (SpecFloat.iter_pos shr_1 n (SpecFloat.iter_pos shr_1 n (shr_1 x))).
    replace (a * 2 ^ Zpos n~1) with (((a * 2 ^ Zpos n) * 2 ^ Zpos n) * 2).
    + now rewrite shr_1_even, !IH.
    + replace (Zpos n~1) with (Zpos n + Zpos n + 1) by lia.
      rewrite !Z.pow_add_r by lia. change (2 ^ 1) with 2. ring.
  - change (SpecFloat.iter_pos shr_1 n~0 ?x)
      with (SpecFloat.iter_pos shr_1 n (SpecFloat.iter_pos shr_1 n x)).
    replace (a * 2 ^ Zpos n~0) with ((a * 2 ^ Zpos n) * 2 ^ Zpos n).
    + now rewrite !IH.
    + replace (Zpos n~0) with (Zpos n + Zpos n) by lia.
      rewrite !Z.pow_add_r by lia. ring.
  - change (2 ^ 1) with 2. apply shr_1_even.
Qed.

Lemma shr_by_exact a e n :
  0 <= n ->
  shr {| shr_m := a * 2 ^ n; shr_r := false; shr_s := false |} e n
  = ({| shr_m := a; shr_r := false; shr_s := false |}, e + n).
Proof.
  intros Hn. unfold shr. destruct n as [|n|n]; [|now rewrite shr_exact|lia].
  change (2 ^ 0) with 1. now rewrite Z.mul_1_r, Z.add_0_r.
Qed.

Lemma digits_mul_pow2 q k :
  0 <= k -> Zdigits2 (Zpos q * 2 ^ k) = Zpos (digits2_pos q) + k.
Proof.
  intros Hk. assert (P : 0 < Zpos q * 2 ^ k) by (apply Z.mul_pos_pos; [lia | now apply Z.pow_pos_nonneg]).
  destruct (Zpos q * 2 ^ k) as [|m|m] eqn:E; try lia.
  simpl Zdigits2. rewrite !digits2_log2, <- E, Z.log2_mul_pow2 by lia. lia.
Qed.

(** Rounding an integer that fits in 53 bits changes nothing. *)
Lemma round_aux_exact s q k :
  Zpos (digits2_pos q) <= 53 -> 53 - Zpos (digits2_pos q) <= k ->
  binary_round_aux prec emax s (Zpos q * 2 ^ k) (- k) loc_Exact
  = S754_finite s (Z.to_pos (Zpos q * 2 ^ (53 - Zpos (digits2_pos q))))
      (Zpos (digits2_pos q) - 53).
Proof.
  intros Hd Hk. set (d := Zpos (digits2_pos q)) in *.
  assert (Hd1 : 1 <= d) by (unfold d; lia).
  unfold binary_round_aux, shr_fexp.
  rewrite digits_mul_pow2 by lia. fold d.
  replace (fexp prec emax (d + k + - k) - - k) with (k - (53 - d))
    by (unfold fexp, SpecFloat.emin, prec, emax; lia).
  replace (Zpos q * 2 ^ k) with ((Zpos q * 2 ^ (53 - d)) * 2 ^ (k - (53 - d))).
  2:{ rewrite <- Z.mul_assoc, <- Z.pow_add_r by lia. do 2 f_equal. lia. }
  simpl shr_record_of_loc. rewrite shr_by_exact by lia.
  simpl shr_m. simpl loc_of_shr_record. simpl round_nearest_even.
  rewrite digits_mul_pow2 by lia. fold d.
  replace (fexp prec emax (d + (53 - d) + (- k + (k - (53 - d)))) - (- k + (k - (53 - d)))) with 0
    by (unfold fexp, SpecFloat.emin, prec, emax; lia).
  simpl shr. simpl shr_m.
  assert (P : 0 < Zpos q * 2 ^ (53 - d)) by (apply Z.mul_pos_pos; [lia | apply Z.pow_pos_nonneg; lia]).
  destruct (Zpos q * 2 ^ (53 - d)) as [|m|m] eqn:E; try lia.
  replace (- k + (k - (53 - d))) with (d - 53) by lia.
  replace (d - 53 <=? emax - prec) with true; [reflexivity|].
  symmetry. apply Z.leb_le. unfold emax, prec. lia.
Qed.

Lemma pos_iter_xO p x : Zpos (Pos.iter xO p x) = Zpos p * 2 ^ Zpos x.
Proof.
  induction x as [|x IH] using Pos.peano_ind.
  - simpl. lia.
  - rewrite Pos.iter_succ, Pos2Z.inj_xO, IH, Pos2Z.inj_succ, Z.pow_succ_r by lia. ring.
Qed.

Lemma digits_bound q : Zpos q < 2 ^ 53 -> Zpos (digits2_pos q) <= 53.
Proof.
  intros H. rewrite digits2_log2.
  assert (Z.log2 (Zpos q) < 53) by (apply Z.log2_lt_pow2; lia). lia.
Qed.

(** [float(n)] for a positive [n] below 2^53, with the sign [s]. *)
Lemma round_int_exact s p :
  Zpos p < 2 ^ 53 ->
  binary_round prec emax s p 0
  = S754_finite s (Z.to_pos (Zpos p * 2 ^ (53 - Zpos (digits2_pos p))))
      (Zpos (digits2_pos p) - 53).
Proof.
  intros H. pose proof (digits_bound p H) as Hd.
  unfold binary_round, shl_align.
  replace (fexp prec emax (Zpos (digits2_pos p) + 0) - 0) with (Zpos (digits2_pos p) - 53)
    by (unfold fexp, SpecFloat.emin, prec, emax; lia).
  replace (fexp prec emax (Zpos (digits2_pos p) + 0)) with (Zpos (digits2_pos p) - 53)
    by (unfold fexp, SpecFloat.emin, prec, emax; lia).
  destruct (Zpos (digits2_pos p) - 53) as [|x|x] eqn:E; try lia.
  - pose proof (round_aux_exact s p 0 ltac:(lia) ltac:(lia)) as R.
    change (- 0) with 0 in R. change (2 ^ 0) with 1 in R. rewrite Z.mul_1_r in R.
    rewrite R. f_equal. lia.
  - pose proof (round_aux_exact s p (Zpos x) ltac:(lia) ltac:(lia)) as R.
    change (- Zpos x) with (Zneg x) in R.
    rewrite pos_iter_xO, R. f_equal. lia.
Qed.

(** The product of two integers, when it is below 2^53, is computed
    exactly, and [int] gives it back. *)
Lemma mul_int_exact s p f :
  Zpos p * Zpos f < 2 ^ 53 ->
  py_int_of_float
    (SFmul prec emax (binary_round prec emax s p 0) (binary_round prec emax false f 0))
  = Some (if s then - (Zpos p * Zpos f) else Zpos p * Zpos f).
Proof.
  intros H.
  assert (Hp : Zpos p < 2 ^ 53) by nia.
  assert (Hf : Zpos f < 2 ^ 53) by nia.
  rewrite (round_int_exact s p Hp), (round_int_exact false f Hf).
  set (dp := Zpos (digits2_pos p)). set (df := Zpos (digits2_pos f)).
  pose proof (digits_bound p Hp) as Bp. pose proof (digits_bound f Hf) as Bf.
  pose proof (digits_bound (p * f) H) as Bq. fold dp in Bp. fold df in Bf.
  set (dq := Zpos (digits2_pos (p * f))) in *.
  assert (Hq : dp + df - 1 <= dq).
  { unfold dp, df, dq. rewrite !digits2_log2.
    pose proof (Z.log2_mul_below (Zpos p) (Zpos f)). rewrite Pos2Z.inj_mul. lia. }
  assert (P : forall q k, 0 <= k -> Zpos (Z.to_pos (Zpos q * 2 ^ k)) = Zpos q * 2 ^ k).
  { intros q k Hk. apply Z2Pos.id. apply Z.mul_pos_pos; [lia | now apply Z.pow_pos_nonneg]. }
  unfold SFmul. rewrite Pos2Z.inj_mul, !P by lia.
  replace (Zpos p * 2 ^ (53 - dp) * (Zpos f * 2 ^ (53 - df)))
    with (Zpos (p * f) * 2 ^ (106 - dp - df)).
  2:{ replace (106 - dp - df) with ((53 - dp) + (53 - df)) by lia.
      rewrite Z.pow_add_r, Pos2Z.inj_mul by lia. ring. }
  replace (dp - 53 + (df - 53)) with (- (106 - dp - df)) by lia.
  rewrite round_aux_exact by (fold dq; lia). fold dq.
  unfold py_int_of_float. rewrite P by lia. rewrite xorb_false_r.
  destruct (Z.leb_spec 0 (dq - 53)).
  - replace (dq - 53) with 0 by lia. replace (53 - dq) with 0 by lia.
    rewrite Z.shiftl_0_r. change (2 ^ 0) with 1. rewrite Z.mul_1_r, Pos2Z.inj_mul.
    reflexivity.
  - replace (- (dq - 53)) with (53 - dq) by lia.
    rewrite Z.shiftr_div_pow2, Z.div_mul, Pos2Z.inj_mul by (try apply Z.pow_nonzero; lia).
    reflexivity.
Qed.

Lemma span_digits_all ds : all_chars is_digit ds = true -> span_digits ds = (ds, "").
Proof.
  induction ds as [|c r IH]; simpl; [reflexivity|].
  intros H. apply andb_true_iff in H as [Hc Hr]. now rewrite Hc, (IH Hr).
Qed.

Lemma digit_not_word c r w :
  is_digit c = true -> all_chars is_upper w = true -> w <> "" ->
  String.eqb (String c r) w = false.
Proof.
  intros Hc Hw Hne. destruct w as [|x w]; [congruence|]. simpl in *.
  apply andb_true_iff in Hw as [Hx _].
  destruct (Ascii.eqb_spec c x) as [->|]; [|reflexivity].
  exfalso. revert Hc Hx. destruct x as [[] [] [] [] [] [] [] []]; vm_compute; congruence.
Qed.

Lemma append_empty s : (s ++ "")%string = s.
Proof. induction s as [|c r IH]; simpl; [reflexivity | now rewrite IH]. Qed.

(** [float] reads a run of digits, with or without a minus sign, as the
    float nearest to the integer it denotes. *)
Lemma py_float_digits (neg : bool) ds :
  ds <> "" -> all_chars is_digit ds = true ->
  py_float (if neg then String "-" ds else ds)
  = Some (float_of_decimal neg (digits_value ds) 0).
Proof.
  intros Hne Hd. unfold py_float.
  assert (Hs : strip (if neg then String "-" ds else ds) = if neg then String "-" ds else ds).
  { apply strip_no_space. destruct neg; simpl; now apply digits_no_space. }
  rewrite Hs.
  assert (Hu : underscores_ok (if neg then String "-" ds else ds) = true).
  { unfold underscores_ok. destruct neg; [simpl|];
      apply underscores_ok_digits; auto. }
  rewrite Hu. simpl negb. cbv iota.
  assert (Hp : parse_sign (remove_char "_" (if neg then String "-" ds else ds)) = (neg, ds)).
  { destruct neg; simpl; rewrite digits_no_underscore by exact Hd; [reflexivity|].
    destruct ds as [|c r]; [congruence|]. simpl in Hd. apply andb_true_iff in Hd as [Hc _].
    now apply parse_sign_digit. }
  rewrite Hp. rewrite (upper_digits ds Hd).
  destruct ds as [|c r]; [congruence|].
  pose proof Hd as Hd'. simpl in Hd'. apply andb_true_iff in Hd' as [Hc _].
  rewrite !(digit_not_word c r) by (exact Hc || reflexivity || discriminate).
  simpl orb. cbv iota.
  rewrite (span_digits_all _ Hd). rewrite append_empty.
  simpl parse_exponent. cbv iota. reflexivity.
Qed.

(** Text built from a numeral and a suffix letter. *)
Lemma all_chars_app p s t :
  all_chars p (s ++ t) = all_chars p s && all_chars p t.
Proof. induction s as [|c r IH]; simpl; [reflexivity | now rewrite IH, andb_assoc]. Qed.

Lemma contains_char_app x s t :
  contains_char x (s ++ t) = contains_char x s || contains_char x t.
Proof. induction s as [|c r IH]; simpl; [reflexivity | now rewrite IH, orb_assoc]. Qed.

Lemma remove_char_app x s t :
  remove_char x (s ++ t) = (remove_char x s ++ remove_char x t)%string.
Proof.
  induction s as [|c r IH]; simpl; [reflexivity|].
  rewrite IH. now destruct (Ascii.eqb c x).
Qed.

Lemma map_chars_app f s t :
  map_chars f (s ++ t) = (map_chars f s ++ map_chars f t)%string.
Proof. induction s as [|c r IH]; simpl; [reflexivity | now rewrite IH]. Qed.

Lemma signed_plain (p : ascii -> bool) neg ds :
  p "-"%char = true -> all_chars p ds = true -> all_chars p (signed neg ds) = true.
Proof. intros Hm Hd. destruct neg; simpl; [now rewrite Hm|exact Hd]. Qed.

Lemma digit_value_nonneg c : is_digit c = true -> 0 <= digit_value c.
Proof. destruct c as [[] [] [] [] [] [] [] []]; vm_compute; congruence. Qed.

Lemma digits_value_nonneg ds :
  all_chars is_digit ds = true -> 0 <= digits_value ds.
Proof.
  unfold digits_value. assert (G : forall acc, 0 <= acc ->
    all_chars is_digit ds = true -> 0 <= digits_value_from acc ds).
  { induction ds as [|c r IH]; intros acc Ha H; simpl; [exact Ha|].
    simpl in H. apply andb_true_iff in H as [Hc Hr].
    apply IH; [|exact Hr]. pose proof (digit_value_nonneg c Hc). lia. }
  now apply G.
Qed.

Lemma scaled_numeral (x : ascii) (factor : positive) (neg : bool) ds :
  is_digit x = false -> is_space x = false -> upper_char x = x -> x <> "-"%char ->
  ds <> "" -> all_chars is_digit ds = true ->
  Zpos factor < 2 ^ 53 ->
  digits_value ds * Zpos factor < 2 ^ 53 ->
  upper (strip (signed neg ds ++ String x "")) = (signed neg ds ++ String x "")%string
  /\ contains_char x (signed neg ds ++ String x "") = true
  /\ scaled_count x (Zpos factor) (signed neg ds ++ String x "")
     = Some (if neg then - (digits_value ds * Zpos factor) else digits_value ds * Zpos factor).
Proof.
  intros Hx Hsp Hup Hm Hne Hd Hf Hv.
  assert (Hnx : contains_char x (signed neg ds) = false).
  { destruct neg; unfold signed.
    - change (contains_char x (String "-" ds))
        with (Ascii.eqb "-" x || contains_char x ds).
      destruct (Ascii.eqb_spec "-"%char x) as [E|_]; [now contradiction Hm|].
      now apply (contains_char_absent is_digit).
    - now apply (contains_char_absent is_digit). }
  split; [|split].
  - rewrite strip_no_space.
    + unfold upper. rewrite map_chars_app. simpl. rewrite Hup. f_equal.
      destruct neg; simpl; [f_equal|]; now apply upper_digits.
    + rewrite all_chars_app. simpl. rewrite Hsp. simpl. rewrite andb_true_r.
      apply signed_plain; [reflexivity | now apply digits_no_space].
  - rewrite contains_char_app. simpl. rewrite Ascii.eqb_refl. now rewrite orb_true_r.
  - unfold scaled_count. rewrite remove_char_app, (remove_char_absent _ _ Hnx).
    simpl. rewrite Ascii.eqb_refl, append_empty.
    unfold signed. rewrite (py_float_digits neg ds Hne Hd).
    unfold float_of_decimal, float_mul_int, float_of_int.
    pose proof (digits_value_nonneg ds Hd) as Hnn.
    change (binary_normalize prec emax (Zpos factor) 0 false)
      with (binary_round prec emax false factor 0).
    destruct (digits_value ds) as [|p|p] eqn:V; [|clear Hnn|lia].
    + rewrite (round_int_exact false factor Hf). simpl. now destruct neg.
    + simpl Z.leb. cbv iota. change (10 ^ 0) with 1. rewrite Z.mul_1_r.
      replace (binary_normalize prec emax (if neg then - Zpos p else Zpos p) 0 neg)
        with (binary_round prec emax neg p 0) by now destruct neg.
      now apply mul_int_exact.
Qed.

End FloatFacts.

(* ===================================================================== *)
(** * CountParser: what [_parse_count] computes *)
(* ===================================================================== *)

Module CountFacts.
Import Text Num TextFacts NumFacts FloatFacts.

Lemma body_lower s : parse_count_body (lower s) = parse_count_body s.
Proof. unfold parse_count_body. now rewrite strip_lower, upper_lower. Qed.

Lemma body_upper s : parse_count_body (upper s) = parse_count_body s.
Proof. unfold parse_count_body. now rewrite strip_upper, upper_upper. Qed.

Lemma body_padded l s r :
  all_chars is_space l = true -> all_chars is_space r = true ->
  parse_count_body (l ++ s ++ r) = parse_count_body s.
Proof. intros Hl Hr. unfold parse_count_body. now rewrite strip_padded. Qed.

Lemma no_digit_normal s :
  all_chars no_digit s = true -> all_chars no_digit (upper (strip s)) = true.
Proof.
  intros H. apply all_chars_map; [|now apply all_chars_strip].
  intros c. unfold no_digit. now rewrite is_digit_upper.
Qed.

Lemma body_no_digit s : all_chars no_digit s = true -> parse_count_body s = None.
Proof.
  intros H. apply no_digit_normal in H. unfold parse_count_body.
  destruct (contains_char "K" (upper (strip s))).
  { apply scaled_no_digit; [exact H|]. vm_compute. eauto. }
  destruct (contains_char "M" (upper (strip s))).
  { apply scaled_no_digit; [exact H|]. vm_compute. eauto. }
  now apply py_int_no_digit.
Qed.

Lemma digits_normal ds :
  all_chars is_digit ds = true -> upper (strip ds) = ds.
Proof.
  intros H. rewrite strip_no_space by now apply digits_no_space.
  now apply upper_digits.
Qed.

Lemma body_digits ds :
  ds <> "" -> all_chars is_digit ds = true ->
  (String.length ds <= int_max_str_digits)%nat ->
  parse_count_body ds = Some (digits_value ds)
  /\ parse_count_body (String "-" ds) = Some (- digits_value ds).
Proof.
  intros Hne Hd Hlen. unfold parse_count_body. split.
  - rewrite digits_normal by exact Hd.
    rewrite (contains_char_absent is_digit "K" ds eq_refl Hd).
    rewrite (contains_char_absent is_digit "M" ds eq_refl Hd).
    now apply py_int_digits.
  - assert (E : upper (strip (String "-" ds)) = String "-" ds).
    { rewrite strip_no_space by (simpl; now apply digits_no_space).
      unfold upper. simpl. f_equal. now apply upper_digits. }
    rewrite E. simpl contains_char.
    rewrite (contains_char_absent is_digit "K" ds eq_refl Hd).
    rewrite (contains_char_absent is_digit "M" ds eq_refl Hd).
    now apply py_int_minus_digits.
Qed.

Lemma body_numeral n :
  (String.length (Fmt.str_of_int n) <= int_max_str_digits)%nat ->
  parse_count_body (Fmt.str_of_int n) = Some n.
Proof.
  unfold Fmt.str_of_int. destruct n as [|p|p]; simpl NilZero.string_of_int.
  - intros _. vm_compute. reflexivity.
  - destruct (pos_numeral p) as (-> & Hne & Hv). intros Hlen.
    destruct (body_digits _ Hne (uint_digits _) Hlen) as [-> _].
    now rewrite Hv.
  - destruct (pos_numeral p) as (-> & Hne & Hv). intros Hlen.
    simpl String.length in Hlen.
    destruct (body_digits _ Hne (uint_digits _)) as [_ ->]; [lia|].
    now rewrite Hv.
Qed.

(** The numeral of an integer: a run of digits, after a minus sign when
    the integer is negative. *)
Lemma numeral_signed n :
  exists neg ds,
    Fmt.str_of_int n = signed neg ds
    /\ ds <> "" /\ all_chars is_digit ds = true
    /\ digits_value ds = Z.abs n
    /\ n = if neg then - digits_value ds else digits_value ds.
Proof.
  unfold Fmt.str_of_int. destruct n as [|p|p]; simpl NilZero.string_of_int.
  - exists false, "0". repeat split; discriminate.
  - destruct (pos_numeral p) as (-> & Hne & Hv).
    exists false, (NilEmpty.string_of_uint (Pos.to_uint p)).
    repeat split; auto using uint_digits.
  - destruct (pos_numeral p) as (-> & Hne & Hv).
    exists true, (NilEmpty.string_of_uint (Pos.to_uint p)).
    repeat split; auto using uint_digits. now rewrite Hv.
Qed.

(** A whole number of thousands or of millions. *)
Lemma body_thousands n :
  Z.abs n * 1000 < 2 ^ 53 ->
  parse_count_body (Fmt.str_of_int n ++ "K") = Some (n * 1000).
Proof.
  intros Hn. destruct (numeral_signed n) as (neg & ds & -> & Hne & Hd & Hv & E).
  rewrite <- Hv in Hn.
  destruct (scaled_numeral "K" 1000 neg ds eq_refl eq_refl eq_refl
              ltac:(discriminate) Hne Hd eq_refl Hn) as (Hu & Hc & Hs).
  unfold parse_count_body. rewrite Hu, Hc, Hs. f_equal.
  destruct neg; lia.
Qed.

Lemma body_millions n :
  Z.abs n * 1000000 < 2 ^ 53 ->
  parse_count_body (Fmt.str_of_int n ++ "M") = Some (n * 1000000).
Proof.
  intros Hn. destruct (numeral_signed n) as (neg & ds & -> & Hne & Hd & Hv & E).
  rewrite <- Hv in Hn.
  destruct (scaled_numeral "M" 1000000 neg ds eq_refl eq_refl eq_refl
              ltac:(discriminate) Hne Hd eq_refl Hn) as (Hu & Hc & Hs).
  unfold parse_count_body. rewrite Hu, Hc, Hs.
  assert (HK : contains_char "K" (signed neg ds ++ "M") = false).
  { rewrite contains_char_app. apply orb_false_iff. split; [|reflexivity].
    destruct neg; unfold signed;
      [change (contains_char "K" (String "-" ds)) with (contains_char "K" ds)|];
      now apply (contains_char_absent is_digit). }
  rewrite HK. f_equal. destruct neg; lia.
Qed.

(** The product is the float one, cut off towards zero, and the letter
    may stand anywhere in the text. *)
Remark float_product_examples :
  _parse_count "2.5K" = 2500 /\ _parse_count "1.001K" = 1000
  /\ _parse_count "1K2" = 12000 /\ _parse_count "1KM" = 0
  /\ _parse_count "1.5" = 0.
Proof. repeat split; vm_compute; reflexivity. Qed.

End CountFacts.

(* ===================================================================== *)
(** * Properties of dictionaries and slices *)
(* ===================================================================== *)

Module PyFacts.
Import Py.

Lemma dict_get_set_ne d k v k' :
  k <> k' -> dict_get (dict_set d k v) k' = dict_get d k'.
Proof.
  intros Hne. induction d as [|[k0 v0] r IH]; simpl.
  - destruct (String.eqb_spec k k'); [contradiction | reflexivity].
  - destruct (String.eqb_spec k0 k) as [->|]; simpl.
    + destruct (String.eqb_spec k k'); [contradiction | reflexivity].
    + destruct (String.eqb_spec k0 k'); [reflexivity | exact IH].
Qed.

Lemma dict_get_set_eq d k v : dict_get (dict_set d k v) k = Some v.
Proof.
  induction d as [|[k0 v0] r IH]; simpl.
  - now rewrite String.eqb_refl.
  - destruct (String.eqb_spec k0 k) as [->|Hne]; simpl.
    + now rewrite String.eqb_refl.
    + destruct (String.eqb_spec k0 k); [contradiction | exact IH].
Qed.

(** A list no longer than the bound is its own slice. *)
Lemma slice_to_all {A : Type} (n : Z) (l : list A) :
  len l <= Z.max 0 n -> slice_to n l = l.
Proof.
  unfold slice_to, len. intros H. destruct (Z.leb_spec 0 n).
  - apply take_ge. lia.
  - destruct l; [reflexivity | simpl in H; lia].
Qed.

Lemma slice_to_length {A : Type} (n : Z) (l : list A) :
  0 <= n -> len (slice_to n l) <= n.
Proof.
  unfold slice_to, len. intros H. destruct (Z.leb_spec 0 n); [|lia].
  rewrite length_take. lia.
Qed.

End PyFacts.

(* ===================================================================== *)
(** * Properties of the scroll collector *)
(* ===================================================================== *)

Module ScrollFacts.
Import Py PyFacts.

(** An element changes nothing, or adds the record it stands for. *)
Lemma visit_element_cases element vs :
  visit_element element vs = vs \/
  exists href c,
    element_href element = Some href /\
    collected_urls vs <> None /\
    (forall urls, collected_urls vs = Some urls -> href_in href urls = false) /\
    _extract_video_info_from_element element href = Some c /\
    visit_element element vs = (vs ++ [c])%list.
Proof.
  unfold visit_element, element_href.
  destruct (query_a element) as [[link|]|]; auto.
  destruct (get_href link) as [[href|]|]; auto.
  destruct (String.eqb href ""); auto.
  destruct (collected_urls vs) as [urls|] eqn:Hu; auto.
  destruct (href_in href urls) eqn:Hin; auto.
  destruct (_extract_video_info_from_element element href) as [c|] eqn:Hc; auto.
  destruct (truthy c); auto.
  right. exists href, c. repeat split; auto; congruence.
Qed.

Lemma visit_element_candidate element vs :
  visit_element element vs = vs \/
  exists c, candidate element = Some c /\ visit_element element vs = (vs ++ [c])%list.
Proof.
  destruct (visit_element_cases element vs) as [|(h & c & Hh & _ & _ & Hc & E)]; auto.
  right. exists c. unfold candidate. now rewrite Hh.
Qed.

(** A round adds records at the end only, in the order of its elements. *)
Lemma visit_elements_extends max_videos elements vs :
  exists extra,
    visit_elements max_videos elements vs = (vs ++ extra)%list
    /\ sublist extra (omap candidate elements).
Proof.
  revert vs. induction elements as [|e r IH]; intros vs; simpl.
  - exists []. split; [now rewrite app_nil_r | constructor].
  - destruct (max_videos <=? len vs).
    + exists []. split; [now rewrite app_nil_r | apply sublist_nil_l].
    + destruct (visit_element_candidate e vs) as [E | (c & Hc & E)]; rewrite E.
      * destruct (IH vs) as (extra & -> & Hs). exists extra. split; [reflexivity|].
        destruct (candidate e); [now apply sublist_cons | exact Hs].
      * destruct (IH (vs ++ [c])%list) as (extra & -> & Hs).
        exists (c :: extra). split; [now rewrite <- app_assoc|].
        rewrite Hc. now apply sublist_skip.
Qed.

Lemma visit_element_length element vs :
  len (visit_element element vs) <= len vs + 1.
Proof.
  unfold len.
  destruct (visit_element_candidate element vs) as [-> | (c & _ & ->)];
    [|rewrite length_app; simpl]; lia.
Qed.

(** The [break] keeps the collection within the target. *)
Lemma visit_elements_bound max_videos elements vs :
  len (visit_elements max_videos elements vs) <= Z.max (len vs) max_videos.
Proof.
  revert vs. induction elements as [|e r IH]; intros vs; simpl; [lia|].
  destruct (Z.leb_spec max_videos (len vs)); [lia|].
  specialize (IH (visit_element e vs)).
  pose proof (visit_element_length e vs). lia.
Qed.

Section Feed.
Variable page : nat -> Round.
Variable max_videos : Z.

Local Abbreviation state := (scroll_state page max_videos).

Lemma state_bound k : len (videos (state k)) <= Z.max 0 max_videos.
Proof.
  induction k as [|k IH]; [unfold len; simpl; lia|].
  pose proof (visit_elements_bound max_videos (video_elements (page k))
                (videos (state k))) as B.
  change (videos (state (S k)))
    with (visit_elements max_videos (video_elements (page k)) (videos (state k))).
  lia.
Qed.

Lemma state_attempts_nonneg k : 0 <= scroll_attempts (state k).
Proof.
  induction k as [|k IH]; simpl; [lia|].
  destruct (new_height (page k) =? current_height (page k)); lia.
Qed.

Lemma discovered_succ k :
  discovered page (S k) =
  (discovered page k ++ omap candidate (video_elements (page k)))%list.
Proof.
  unfold discovered. rewrite seq_S, flat_map_app. simpl. now rewrite app_nil_r.
Qed.

(** What was collected is part of what was shown, in the same order. *)
Lemma state_in_order k : sublist (videos (state k)) (discovered page k).
Proof.
  induction k as [|k IH]; [constructor|].
  rewrite discovered_succ. simpl.
  destruct (visit_elements_extends max_videos (video_elements (page k))
              (videos (scroll_state page max_videos k))) as (extra & -> & Hs).
  now apply sublist_app.
Qed.

(** The loop, started in the state of round [n], follows [scroll_state]. *)
Lemma scroll_loop_runs k : forall n fuel,
  (k <= fuel)%nat ->
  (forall j, (j < k)%nat -> keep_scrolling max_videos (state (n + j)) = true) ->
  keep_scrolling max_videos (state (n + k)) = false ->
  scroll_loop fuel page n max_videos (state n) = Some (state (n + k)).
Proof.
  induction k as [|k IH]; intros n fuel Hf Hgo Hstop.
  - rewrite Nat.add_0_r in *. destruct fuel; simpl; now rewrite Hstop.
  - destruct fuel as [|fuel]; [lia|]. simpl.
    assert (K0 : keep_scrolling max_videos (state n) = true).
    { specialize (Hgo 0%nat). rewrite Nat.add_0_r in Hgo. apply Hgo. lia. }
    rewrite K0.
    change (scroll_round max_videos (page n) (state n)) with (state (S n)).
    rewrite (IH (S n) fuel); [f_equal; f_equal; lia | lia | | ].
    + intros j Hj. replace (S n + j)%nat with (n + S j)%nat by lia. apply Hgo. lia.
    + now replace (S n + k)%nat with (n + S k)%nat by lia.
Qed.

Lemma scroll_loop_reaches fuel : forall n st,
  scroll_loop fuel page n max_videos (state n) = Some st ->
  exists k, st = state (n + k) /\ keep_scrolling max_videos st = false.
Proof.
  induction fuel as [|fuel IH]; intros n st; simpl;
    destruct (keep_scrolling max_videos (state n)) eqn:K; try discriminate.
  - intros [= <-]. exists 0%nat. now rewrite Nat.add_0_r.
  - intros H. apply (IH (S n)) in H as (k & -> & Hk).
    exists (S k). split; [f_equal; lia | exact Hk].
  - intros [= <-]. exists 0%nat. now rewrite Nat.add_0_r.
Qed.

(** The first round at which the condition of the [while] fails. *)
Lemma running_or_stopped j :
(forall i, (i < j)%nat -> keep_scrolling max_videos (state i) = true)
\/ exists k, (k < j)%nat
     /\ keep_scrolling max_videos (state k) = false
     /\ forall i, (i < k)%nat -> keep_scrolling max_videos (state i) = true.
Proof.
  induction j as [|j [All | (k & Hk & Hs & Hb)]]; [left; intros; lia | |].
  - destruct (keep_scrolling max_videos (state j)) eqn:Kj.
    + left. intros i Hi. destruct (Nat.eq_dec i j) as [->|]; [exact Kj | apply All; lia].
    + right. exists j. repeat split; [lia | exact Kj | exact All].
  - right. exists k. repeat split; [lia | exact Hs | exact Hb].
Qed.

Lemma first_stop m :
keep_scrolling max_videos (state m) = false ->
exists k, (k <= m)%nat
  /\ keep_scrolling max_videos (state k) = false
  /\ forall j, (j < k)%nat -> keep_scrolling max_videos (state j) = true.
Proof.
  intros Hm. destruct (running_or_stopped m) as [All | (k & Hk & Hs & Hb)].
  - exists m. repeat split; [lia | exact Hm | exact All].
  - exists k. repeat split; [lia | exact Hs | exact Hb].
Qed.

(** Twenty rounds without a change of height end the loop. *)
Lemma stagnant_attempts n0 j :
  stagnant_from page n0 -> Z.of_nat j <= scroll_attempts (state (n0 + j)).
Proof.
  intros Hs. induction j as [|j IH].
  - pose proof (state_attempts_nonneg (n0 + 0)). lia.
  - replace (n0 + S j)%nat with (S (n0 + j)) by lia. simpl.
    rewrite (Hs (n0 + j)%nat) by lia. rewrite Z.eqb_refl. lia.
Qed.

Lemma stagnant_stops n0 :
  stagnant_from page n0 -> keep_scrolling max_videos (state (n0 + 20)) = false.
Proof.
  intros Hs. unfold keep_scrolling. apply andb_false_iff. right.
  apply Z.ltb_ge. pose proof (stagnant_attempts n0 20 Hs).
  unfold max_scroll_attempts. lia.
Qed.

End Feed.

End ScrollFacts.

(* ===================================================================== *)
(** * Properties of the detail visit *)
(* ===================================================================== *)

Module DetailFacts.
Import Py PyFacts.

(** Case analysis on the step that a hypothesis [H : ... = Some _] is
    stuck on. *)
Ltac step H :=
  match type of H with
  | match ?e with _ => _ end = Some _ =>
      let E := fresh "E" in destruct e eqn:E; try discriminate H
  end.

Lemma set_if_present_other item k field build vi vi' k' :
  set_if_present item k field build vi = Some vi' ->
  field <> k' -> dict_get vi' k' = dict_get vi k'.
Proof.
  unfold set_if_present. intros H Hne. repeat step H;
    injection H as <-; [now apply dict_get_set_ne | reflexivity].
Qed.

Lemma parse_details_record data video_url d :
  _parse_video_details_json data video_url = Some d -> detail_record video_url d.
Proof.
  unfold _parse_video_details_json. cbv zeta. intros H.
  do 12 step H.
  repeat step H. injection H as <-.
  eexists. split; [reflexivity|].
  split;
    repeat (erewrite set_if_present_other; [|eassumption|discriminate]);
    rewrite !dict_get_set_ne by discriminate; reflexivity.
Qed.

Lemma attach_comments_record page max_comments video_details video_url d :
  detail_record video_url (VDict video_details) ->
  attach_comments page max_comments video_details = Some d ->
  detail_record video_url d.
Proof.
  intros (fields & [= <-] & Hu & Hs). unfold attach_comments. intros H.
  repeat step H; injection H as <-;
    try (exists video_details; now repeat split).
  eexists. split; [reflexivity|].
  now rewrite !dict_get_set_ne by discriminate.
Qed.

Lemma visit_detail_record page video_url scrape_comments max_comments d :
  visit_detail_page page video_url scrape_comments max_comments = Some d ->
  detail_record video_url d.
Proof.
  unfold visit_detail_page. intros H.
  destruct (dp_goto page); [|discriminate].
  destruct (dp_script page) as [| | |data]; try discriminate.
  destruct (_parse_video_details_json data video_url) as [v|] eqn:E; [|discriminate].
  pose proof (parse_details_record _ _ _ E) as R.
  destruct R as (fields & -> & Hu & Hs).
  destruct (scrape_comments && truthy (VDict fields)).
  - eapply attach_comments_record; [|exact H]. now exists fields.
  - injection H as <-. now exists fields.
Qed.

(** A detail record carries the url it was asked for and the mark of the
    detail page. *)
Lemma details_record new_page video_url scrape_comments max_comments d :
  scrape_video_details new_page video_url scrape_comments max_comments = Some d ->
  detail_record video_url d.
Proof.
  unfold scrape_video_details. destruct new_page as [page|]; [|discriminate].
  destruct (dp_close page); [|discriminate].
  apply visit_detail_record.
Qed.

Lemma detail_record_truthy video_url d : detail_record video_url d -> truthy d = true.
Proof. intros (fields & -> & Hu & _). destruct fields; [discriminate | reflexivity]. Qed.

Lemma detail_record_url video_url d :
  detail_record video_url d -> url_field d = Some (VStr video_url).
Proof. now intros (fields & -> & Hu & _). Qed.

(** No payload, no record. *)
Lemma parse_fails_none new_page video_url scrape_comments max_comments :
  detail_parse_fails new_page video_url ->
  scrape_video_details new_page video_url scrape_comments max_comments = None.
Proof.
  unfold detail_parse_fails, scrape_video_details, visit_detail_page.
  destruct new_page as [page|]; [|reflexivity].
  destruct (dp_goto page); [|now destruct (dp_close page)].
  destruct (dp_script page); try (now destruct (dp_close page)).
  intros ->. now destruct (dp_close page).
Qed.

Lemma has_url_get v u :
  url_field v = Some (VStr u) -> Py.get v "url" VNone = Some (VStr u).
Proof.
  unfold url_field, getitem, get. destruct v; try discriminate. now intros ->.
Qed.

(** One turn of the detail loop, on a record with a url. *)
Lemma enrich_has_url ctx i scrape_comments max_comments video :
  has_url video ->
  enrich ctx i scrape_comments max_comments video
  = Returns (enriched ctx scrape_comments max_comments i video).
Proof.
  intros [u Hu]. unfold enrich, enriched.
  rewrite (has_url_get _ _ Hu). unfold url_field in *. rewrite Hu.
  destruct (scrape_video_details (ctx i u) u scrape_comments max_comments) as [d|] eqn:E;
    [|reflexivity].
  now rewrite (detail_record_truthy u d (details_record _ _ _ _ _ E)).
Qed.

Lemma enriched_url ctx scrape_comments max_comments i video :
  url_field (enriched ctx scrape_comments max_comments i video) = url_field video.
Proof.
  unfold enriched. destruct (url_field video) as [[| | |u| | |]|] eqn:Hu; try exact Hu.
  destruct (scrape_video_details (ctx i u) u scrape_comments max_comments) as [d|] eqn:E;
    [|exact Hu].
  apply detail_record_url. eapply details_record, E.
Qed.

(** The detail loop visits the records in order, one visit each. *)
Lemma enrich_from_spec ctx scrape_comments max_comments vs : forall i acc,
  Forall has_url vs ->
  enrich_from ctx i scrape_comments max_comments vs acc
  = Returns (acc ++ imap (fun j => enriched ctx scrape_comments max_comments (i + j)) vs)%list.
Proof.
  induction vs as [|v r IH]; intros i acc Hall; simpl.
  - now rewrite app_nil_r.
  - apply Forall_cons in Hall as [Hv Hr].
    rewrite (enrich_has_url _ _ _ _ _ Hv), (IH (S i) _ Hr).
    rewrite <- app_assoc. simpl. rewrite Nat.add_0_r. do 3 f_equal.
    apply imap_ext. intros j x _. simpl. f_equal. lia.
Qed.

End DetailFacts.

(* ===================================================================== *)
(** * Uniqueness of urls in the scroll collector *)
(* ===================================================================== *)

Module UniqueFacts.
Import Py PyFacts ScrollFacts DetailFacts.

Lemma collected_urls_spec vs :
  Forall has_url vs ->
  exists urls, collected_urls vs = Some urls /\ map Some urls = map url_field vs.
Proof.
  unfold collected_urls. induction vs as [|v r IH]; intros Hall; simpl.
  - now exists [].
  - apply Forall_cons in Hall as [[u Hv] Hr].
    destruct (IH Hr) as (urls & -> & E).
    rewrite (has_url_get _ _ Hv). exists (VStr u :: urls). simpl.
    now rewrite E, Hv.
Qed.

Lemma href_in_spec href urls : href_in href urls = true <-> VStr href ∈ urls.
Proof.
  unfold href_in. rewrite existsb_exists. split.
  - intros (x & Hx & E). destruct x; try discriminate.
    apply String.eqb_eq in E as ->. now apply list_elem_of_In.
  - intros H. exists (VStr href). split; [now apply list_elem_of_In|].
    apply String.eqb_refl.
Qed.

Lemma url_collected href vs urls :
  map Some urls = map url_field vs ->
  (Some (VStr href) ∈ map url_field vs <-> VStr href ∈ urls).
Proof.
  intros <-. rewrite list_elem_of_fmap. split.
  - now intros (x & [= <-] & Hx).
  - intros H. now exists (VStr href).
Qed.

(** An href that is already the url of a collected record is skipped. *)
Lemma visit_element_present element href vs :
  Forall has_url vs ->
  element_href element = Some href ->
  Some (VStr href) ∈ map url_field vs ->
  visit_element element vs = vs.
Proof.
  intros Hall Hh Hin.
  destruct (visit_element_cases element vs) as [|(h & c & Hh' & _ & Hno & _)]; [assumption|].
  destruct (collected_urls_spec vs Hall) as (urls & Hu & E).
  assert (h = href) as -> by congruence.
  specialize (Hno urls Hu). apply (url_collected href vs urls E), href_in_spec in Hin.
  congruence.
Qed.

(** The record of an element: its url is the href, completed when it is
    relative, and its source is the scroll. *)
Lemma extract_record element href c :
  _extract_video_info_from_element element href = Some c ->
  url_field c = Some (VStr (if startswith "http" href then href
                            else "https://www.tiktok.com" ++ href))
  /\ getitem c "scraped_via" = Some (VStr "html_scroll").
Proof.
  unfold _extract_video_info_from_element.
  destruct (inner_text element); [|discriminate].
  intros [= <-]. split; reflexivity.
Qed.

Lemma visit_element_unique element vs :
  (forall href, element_href element = Some href -> startswith "http" href = true) ->
  unique_urls vs -> unique_urls (visit_element element vs).
Proof.
  intros Habs [Hall Hnd].
  destruct (visit_element_cases element vs) as [-> | (h & c & Hh & _ & Hno & Hc & ->)];
    [now split|].
  destruct (collected_urls_spec vs Hall) as (urls & Hu & E).
  specialize (Hno urls Hu).
  apply extract_record in Hc as [Hurl _]. rewrite (Habs h Hh) in Hurl.
  split.
  - apply Forall_app. split; [exact Hall|]. constructor; [now exists h | constructor].
  - rewrite map_app. simpl. rewrite Hurl. apply NoDup_app. repeat split.
    + exact Hnd.
    + intros x Hx Hx'. apply list_elem_of_singleton in Hx' as ->.
      apply (url_collected h vs urls E), href_in_spec in Hx. congruence.
    + apply NoDup_singleton.
Qed.

Lemma visit_elements_unique max_videos elements vs :
  (forall element href, element ∈ elements ->
     element_href element = Some href -> startswith "http" href = true) ->
  unique_urls vs -> unique_urls (visit_elements max_videos elements vs).
Proof.
  revert vs. induction elements as [|e r IH]; intros vs Habs Hu; simpl; [exact Hu|].
  destruct (max_videos <=? len vs); [exact Hu|].
  apply IH.
  - intros x h Hx. apply Habs. now right.
  - apply visit_element_unique; [|exact Hu]. intros h. apply Habs. now left.
Qed.

Lemma state_unique page max_videos k :
  absolute_feed page -> unique_urls (videos (scroll_state page max_videos k)).
Proof.
  intros Habs. induction k as [|k IH]; simpl.
  - split; constructor.
  - apply visit_elements_unique; [|exact IH]. intros e h. apply Habs.
Qed.

(** Every record of the collector has a url, absolute feed or not. *)
Lemma visit_element_has_url element vs :
  Forall has_url vs -> Forall has_url (visit_element element vs).
Proof.
  intros Hall.
  destruct (visit_element_cases element vs) as [-> | (h & c & _ & _ & _ & Hc & ->)];
    [exact Hall|].
  apply Forall_app. split; [exact Hall|].
  apply extract_record in Hc as [Hurl _]. constructor; [eexists; exact Hurl | constructor].
Qed.

Lemma visit_elements_has_url max_videos elements vs :
  Forall has_url vs -> Forall has_url (visit_elements max_videos elements vs).
Proof.
  revert vs. induction elements as [|e r IH]; intros vs Hall; simpl; [exact Hall|].
  destruct (max_videos <=? len vs); [exact Hall|].
  now apply IH, visit_element_has_url.
Qed.

Lemma state_has_url page max_videos k :
  Forall has_url (videos (scroll_state page max_videos k)).
Proof.
  induction k as [|k IH]; simpl; [constructor|].
  now apply visit_elements_has_url.
Qed.

(** The detail loop changes no url. *)
Lemma enriched_urls ctx scrape_comments max_comments i vs :
  map url_field (imap (fun j => enriched ctx scrape_comments max_comments (i + j)) vs)
  = map url_field vs.
Proof.
  revert i. induction vs as [|v r IH]; intros i; simpl; [reflexivity|].
  rewrite enriched_url. f_equal.
  rewrite <- (IH (S i)). f_equal. apply imap_ext. intros j x _. simpl. f_equal. lia.
Qed.

(** The end of [_scrape_videos_by_scrolling], for the videos of a state
    of the loop: nothing is cut off, and with a context every record is
    replaced by its enriched form. *)
Lemma finish_state page max_videos k ctx scrape_comments max_comments :
  finish_scrolling max_videos ctx scrape_comments max_comments
    (videos (scroll_state page max_videos k))
  = Returns match ctx with
            | Some c => imap (fun j => enriched c scrape_comments max_comments (1 + j))
                          (videos (scroll_state page max_videos k))
            | None => videos (scroll_state page max_videos k)
            end.
Proof.
  pose proof (state_bound page max_videos k) as B.
  unfold finish_scrolling. destruct ctx as [c|].
  - rewrite enrich_from_spec by apply state_has_url. simpl. f_equal.
    apply slice_to_all. unfold len in *. now rewrite length_imap.
  - f_equal. now apply slice_to_all.
Qed.

End UniqueFacts.

(* ===================================================================== *)
(** * The records of the scroll collector *)
(* ===================================================================== *)

Module RecordFacts.
Import Py ScrollFacts UniqueFacts.

Lemma visit_element_records element vs :
  Forall scroll_record vs -> Forall scroll_record (visit_element element vs).
Proof.
  intros Hall.
  destruct (visit_element_cases element vs) as [-> | (h & c & _ & _ & _ & Hc & ->)];
    [exact Hall|].
  apply Forall_app. split; [exact Hall|].
  apply extract_record in Hc as [Hurl Hvia].
  constructor; [|constructor]. split; [eexists; exact Hurl | exact Hvia].
Qed.

Lemma visit_elements_records max_videos elements vs :
  Forall scroll_record vs -> Forall scroll_record (visit_elements max_videos elements vs).
Proof.
  revert vs. induction elements as [|e r IH]; intros vs Hall; simpl; [exact Hall|].
  destruct (max_videos <=? len vs); [exact Hall|].
  now apply IH, visit_element_records.
Qed.

Lemma state_records page max_videos k :
  Forall scroll_record (videos (scroll_state page max_videos k)).
Proof.
  induction k as [|k IH]; simpl; [constructor|].
  now apply visit_elements_records.
Qed.

(** What [_scrape_videos_by_scrolling] returns when its loop ends in the
    state [st]. *)
Lemma scrape_result fuel page max_videos ctx scrape_comments max_comments st :
  scroll_loop fuel page 0 max_videos scroll_start = Some st ->
  exists k,
    st = scroll_state page max_videos k
    /\ _scrape_videos_by_scrolling fuel page max_videos ctx scrape_comments max_comments
       = Some (Returns match ctx with
                       | Some c => imap (fun j => enriched c scrape_comments max_comments (1 + j))
                                     (videos st)
                       | None => videos st
                       end).
Proof.
  intros H. unfold _scrape_videos_by_scrolling. rewrite H.
  apply (scroll_loop_reaches page max_videos fuel 0) in H as (k & -> & _).
  exists k. split; [reflexivity|]. simpl. now rewrite finish_state.
Qed.

End RecordFacts.

(* ===================================================================== *)
(** * Properties of the comment harvester *)
(* ===================================================================== *)

Module CommentFacts.
Import Py.

Lemma extract_into_extends elements comments :
  exists datas, extract_into elements comments = (comments ++ map Data datas)%list.
Proof.
  revert comments. induction elements as [|e r IH]; intros comments; simpl.
  - exists []. now rewrite app_nil_r.
  - destruct (_extract_comment_data e) as [c|]; [destruct (truthy c)|]; try apply IH.
    destruct (IH (comments ++ [Data c])%list) as (datas & ->).
    exists (c :: datas). now rewrite <- app_assoc.
Qed.

Lemma comment_scroll_nonempty page max_comments remaining : forall attempts comments,
  comments <> [] -> comment_scroll page max_comments remaining attempts comments <> [].
Proof.
  induction remaining as [|n IH]; intros attempts comments Hne; simpl; [exact Hne|].
  destruct (len comments <? max_comments); [|exact Hne].
  apply IH.
  destruct (scrolled (scroll_answer page attempts)); [|exact Hne].
  destruct (requery (scroll_answer page attempts)) as [elements|]; [|exact Hne].
  destruct (Z.ltb_spec (len comments) (len elements)); [|exact Hne].
  unfold len in *. destruct elements; [simpl in *; lia | discriminate].
Qed.

(** The list that is returned starts with the element handles it was
    measured against. *)
Lemma entries_start_with_nodes page max_comments :
  scrape_comment_entries page max_comments = []
  \/ exists element rest,
       scrape_comment_entries page max_comments = Node element :: rest.
Proof.
  unfold scrape_comment_entries.
  destruct (comment_icon page) as [[[|]|]|]; auto.
  destruct (first_query page) as [[|n ns]|]; auto.
  right.
  pose proof (comment_scroll_nonempty page max_comments max_scroll 0 (n :: ns)) as Hne.
  destruct (comment_scroll page max_comments max_scroll 0 (n :: ns)) as [|e es];
    [now contradiction Hne|].
  destruct (extract_into_extends (slice_to max_comments (e :: es)) (map Node (e :: es)))
    as (datas & ->).
  simpl. eauto.
Qed.

(** The like count of a record is whatever [_parse_count] made of the
    text of the first like selector that answers. *)
Lemma comment_likes element c :
  _extract_comment_data element = Some c ->
  getitem c "likes" = Some (VInt (first_match element like_selectors _parse_count 0)).
Proof.
  unfold _extract_comment_data.
  destruct (if String.eqb _ "" then _ else _) as [t|]; [|discriminate].
  destruct (String.eqb t ""); [discriminate|].
  now intros [= <-].
Qed.

End CommentFacts.

(* ===================================================================== *)
(** * The claims *)
(* ===================================================================== *)

Import Py PyFacts TextFacts NumFacts CountFacts ScrollFacts DetailFacts UniqueFacts
  RecordFacts CommentFacts Samples.

(** C8.  [_parse_count] reads the five counts of the specification as
    stated there; it does not tell upper from lower case; blank text
    around the count is ignored; a text with a [K] is the float read from
    the text without its [K]s, times 1000, truncated, and likewise with
    [M] and 1000000 when there is no [K]; any other text is read as an
    integer, so that the numeral of every integer (within the digit limit
    of the interpreter) gives that integer; the numeral of an integer
    followed by [K] or [M] gives the integer times 1000 or 1000000, as
    long as the product is below 2^53 in magnitude; and whenever one of
    these readings fails the result is 0, which is in particular so for
    every text without a digit. *)
Theorem parse_count_contract :
  (_parse_count "1.2K" = 1200 /\ _parse_count "3M" = 3000000
   /\ _parse_count "42" = 42 /\ _parse_count "" = 0 /\ _parse_count "abc" = 0)
  /\ (forall s, _parse_count (lower s) = _parse_count s
                /\ _parse_count (upper s) = _parse_count s)
  /\ (forall l s r, all_chars is_space l = true -> all_chars is_space r = true ->
        _parse_count (l ++ s ++ r) = _parse_count s)
  /\ (forall s, contains_char "K" (upper (strip s)) = true ->
        _parse_count s
        = match py_float (remove_char "K" (upper (strip s))) with
          | Some x => match py_int_of_float (float_mul_int x 1000) with
                      | Some n => n
                      | None => 0
                      end
          | None => 0
          end)
  /\ (forall s, contains_char "K" (upper (strip s)) = false ->
        contains_char "M" (upper (strip s)) = true ->
        _parse_count s
        = match py_float (remove_char "M" (upper (strip s))) with
          | Some x => match py_int_of_float (float_mul_int x 1000000) with
                      | Some n => n
                      | None => 0
                      end
          | None => 0
          end)
  /\ (forall s, contains_char "K" (upper (strip s)) = false ->
        contains_char "M" (upper (strip s)) = false ->
        _parse_count s = match py_int (upper (strip s)) with
                         | Some n => n
                         | None => 0
                         end)
  /\ (forall n, (String.length (Fmt.str_of_int n) <= int_max_str_digits)%nat ->
        _parse_count (Fmt.str_of_int n) = n)
  /\ (forall n, Z.abs n * 1000 < 2 ^ 53 ->
        _parse_count (Fmt.str_of_int n ++ "K") = n * 1000)
  /\ (forall n, Z.abs n * 1000000 < 2 ^ 53 ->
        _parse_count (Fmt.str_of_int n ++ "M") = n * 1000000)
  /\ (forall s, all_chars no_digit s = true -> _parse_count s = 0).
Proof.
  split; [repeat split; vm_compute; reflexivity|].
  split; [intros s; unfold _parse_count; now rewrite body_lower, body_upper|].
  split; [intros l s r Hl Hr; unfold _parse_count; now rewrite body_padded|].
  split.
  { intros s HK. unfold _parse_count, parse_count_body, scaled_count. rewrite HK.
    now destruct (py_float _). }
  split.
  { intros s HK HM. unfold _parse_count, parse_count_body, scaled_count. rewrite HK, HM.
    now destruct (py_float _). }
  split.
  { intros s HK HM. unfold _parse_count, parse_count_body. now rewrite HK, HM. }
  split; [intros n Hn; unfold _parse_count; now rewrite body_numeral|].
  split; [intros n Hn; unfold _parse_count; now rewrite body_thousands|].
  split; [intros n Hn; unfold _parse_count; now rewrite body_millions|].
  intros s Hs. unfold _parse_count. now rewrite body_no_digit.
Qed.

(** C8 on sample texts. *)
Lemma parse_count_contract_witness :
  _parse_count (lower "2.5K") = _parse_count "2.5K"
  /\ _parse_count (" " ++ "2.5k" ++ " ") = 2500
  /\ _parse_count (Fmt.str_of_int (-17)) = -17
  /\ _parse_count (Fmt.str_of_int 7 ++ "K") = 7 * 1000
  /\ _parse_count (Fmt.str_of_int (-3) ++ "M") = -3 * 1000000
  /\ _parse_count "n/a" = 0.
Proof.
  destruct parse_count_contract
    as (_ & Hcase & Hpad & _ & _ & _ & Hint & Hk & Hm & Hnone).
  split; [apply Hcase|].
  split; [rewrite Hpad by reflexivity; vm_compute; reflexivity|].
  split; [apply Hint; vm_compute; lia|].
  split; [apply (Hk 7); reflexivity|].
  split; [apply (Hm (-3)); reflexivity | apply Hnone; reflexivity].
Defined.

(** C10.  [_parse_count] is a total function to the integers, and not
    into the naturals: ["-2K"] gives -2000.  The like count of a comment
    is the result of [_parse_count] on the text of the like selector, put
    into the record as it comes, so that a comment whose like text is
    ["-2K"] is returned with -2000 likes. *)
Theorem parse_count_may_be_negative :
  (forall s, exists n, _parse_count s = n)
  /\ _parse_count "-2K" = -2000
  /\ (forall element like_text c,
        node_query element (data_e2e "comment-like-count") = sub_text like_text ->
        _extract_comment_data element = Some c ->
        getitem c "likes" = Some (VInt (_parse_count like_text)))
  /\ _extract_comment_data (comment_node 0 "Nice" "-2K")
     = Some (VDict [ ("text", VStr "Nice"); ("author", VStr "Unknown");
                     ("likes", VInt (-2000)); ("timestamp", VStr "") ]).
Proof.
  split; [intros s; now exists (_parse_count s)|].
  split; [vm_compute; reflexivity|].
  split; [|vm_compute; reflexivity].
  intros element like_text c Hq Hc.
  rewrite (comment_likes element c Hc). unfold like_selectors. simpl first_match.
  now rewrite Hq.
Qed.

(** C10 on the sample comment. *)
Lemma parse_count_may_be_negative_witness :
  getitem (VDict [ ("text", VStr "Nice"); ("author", VStr "Unknown");
                   ("likes", VInt (-2000)); ("timestamp", VStr "") ]) "likes"
  = Some (VInt (_parse_count "-2K")).
Proof.
  destruct parse_count_may_be_negative as (_ & _ & Hflow & Hex).
  exact (Hflow (comment_node 0 "Nice" "-2K") "-2K" _ eq_refl Hex).
Defined.

(** C5.  On a feed whose height no scroll changes from round [n0] on,
    the scroll loop ends after some [k <= n0 + 20] rounds: [k] is the
    first round at which the collection has reached the target or twenty
    rounds in a row left the height unchanged (the counter goes up by one
    on such a round and back to 0 on any other).  With at least [k] rounds
    of fuel [_scrape_videos_by_scrolling] returns; what it returns is no
    longer than the target, has one record for each collected one, and
    without a context it is the collection itself, which lists records in
    the order in which the feed showed them. *)
Theorem scroll_collection_terminates (page : nat -> Round) (max_videos : Z)
    (n0 : nat) (ctx : option Context) (scrape_comments : bool) (max_comments : Z) :
  stagnant_from page n0 ->
  exists k,
    (k <= n0 + 20)%nat
    /\ (max_videos <= len (videos (scroll_state page max_videos k))
        \/ max_scroll_attempts <= scroll_attempts (scroll_state page max_videos k))
    /\ (forall j, (j < k)%nat ->
          len (videos (scroll_state page max_videos j)) < max_videos
          /\ scroll_attempts (scroll_state page max_videos j) < max_scroll_attempts)
    /\ (forall j,
          scroll_attempts (scroll_state page max_videos (S j))
          = if new_height (page j) =? current_height (page j)
            then scroll_attempts (scroll_state page max_videos j) + 1
            else 0)
    /\ forall fuel, (k <= fuel)%nat ->
         scroll_loop fuel page 0 max_videos scroll_start
         = Some (scroll_state page max_videos k)
         /\ exists res,
              _scrape_videos_by_scrolling fuel page max_videos ctx
                scrape_comments max_comments = Some (Returns res)
              /\ len res <= Z.max 0 max_videos
              /\ length res = length (videos (scroll_state page max_videos k))
              /\ sublist (videos (scroll_state page max_videos k)) (discovered page k)
              /\ (ctx = None -> res = videos (scroll_state page max_videos k)).
Proof.
  intros Hs.
  destruct (first_stop page max_videos _ (stagnant_stops page max_videos n0 Hs))
    as (k & Hk & Hstop & Hgo).
  exists k. split; [exact Hk|]. split.
  { unfold keep_scrolling in Hstop. apply andb_false_iff in Hstop as [H|H];
      apply Z.ltb_ge in H; auto. }
  split.
  { intros j Hj. specialize (Hgo j Hj). unfold keep_scrolling in Hgo.
    apply andb_true_iff in Hgo as [H1 H2]. now apply Z.ltb_lt in H1, H2. }
  split; [reflexivity|].
  intros fuel Hf.
  assert (L : scroll_loop fuel page 0 max_videos scroll_start
              = Some (scroll_state page max_videos k)).
  { apply (scroll_loop_runs page max_videos k 0 fuel Hf); [exact Hgo | exact Hstop]. }
  split; [exact L|].
  unfold _scrape_videos_by_scrolling. rewrite L, finish_state.
  eexists. split; [reflexivity|].
  pose proof (state_bound page max_videos k) as B.
  split; [|split; [|split]].
  - destruct ctx; [|exact B]. unfold len in *. now rewrite length_imap.
  - destruct ctx; [apply length_imap | reflexivity].
  - apply state_in_order.
  - now intros ->.
Qed.

(** C5 on a feed that shows one item and never grows. *)
Lemma scroll_collection_terminates_witness :
  stagnant_from (still_feed [feed_item "https://www.tiktok.com/@u/video/12" "1.2K"]) 0
  /\ exists k res,
       (k <= 20)%nat
       /\ _scrape_videos_by_scrolling 20
            (still_feed [feed_item "https://www.tiktok.com/@u/video/12" "1.2K"])
            3 None false 20 = Some (Returns res)
       /\ len res <= 3.
Proof.
  assert (Hs : stagnant_from
                 (still_feed [feed_item "https://www.tiktok.com/@u/video/12" "1.2K"]) 0)
    by (intros n _; reflexivity).
  split; [exact Hs|].
  destruct (scroll_collection_terminates
              (still_feed [feed_item "https://www.tiktok.com/@u/video/12" "1.2K"])
              3 0 None false 20 Hs) as (k & Hk & _ & _ & _ & Hrun).
  destruct (Hrun 20%nat Hk) as (_ & res & Hres & Hlen & _).
  exists k, res. repeat split; [exact Hk | exact Hres | exact Hlen].
Defined.

(** C1, as stated, fails.  The structured extractor keeps no record of
    what it has seen: a payload that lists one item in two modules gives
    that item twice, with one url and one id, and the session returns the
    two.  The scroll collector compares urls only: two different urls
    with the same video id give two records with that id. *)
Lemma payload_items_are_repeated :
  scrape_hashtag 0 "now" (feed_page (Some (Returns tt)) (Json feed_payload) [] NoScript)
    "tag" 30 false false 20
  = Some (VDict [ ("hashtag", VStr "tag"); ("scraped_at", VStr "now");
                  ("hashtag_info", VDict []);
                  ("videos", VList [payload_video; payload_video]) ])
  /\ _scrape_videos_by_scrolling 20
       (still_feed [ feed_item "https://www.tiktok.com/@u/video/12?lang=en" "a";
                     feed_item "https://www.tiktok.com/@u/video/12" "b" ])
       2 None false 20
     = Some (Returns
         [ scroll_video (VStr "12") "https://www.tiktok.com/@u/video/12?lang=en" "a";
           scroll_video (VStr "12") "https://www.tiktok.com/@u/video/12" "b" ]).
Proof. split; vm_compute; reflexivity. Qed.

(** C1, amended.  In the scroll collector an element whose href is
    already the url of a collected record changes nothing; and on a feed
    all of whose hrefs are absolute, every record that
    [_scrape_videos_by_scrolling] returns has a url and no two of them
    have the same one, with or without detail enrichment. *)
Theorem absolute_urls_are_collected_once (page : nat -> Round) (max_videos : Z)
    (ctx : option Context) (scrape_comments : bool) (max_comments : Z)
    (fuel : nat) (res : list value) :
  absolute_feed page ->
  _scrape_videos_by_scrolling fuel page max_videos ctx scrape_comments max_comments
  = Some (Returns res) ->
  unique_urls res
  /\ forall element href vs,
       Forall has_url vs ->
       element_href element = Some href ->
       Some (VStr href) ∈ map url_field vs ->
       visit_element element vs = vs.
Proof.
  intros Habs Hres. split; [|apply visit_element_present].
  destruct (scroll_loop fuel page 0 max_videos scroll_start) as [st|] eqn:L.
  2:{ unfold _scrape_videos_by_scrolling in Hres. rewrite L in Hres. discriminate. }
  destruct (scrape_result fuel page max_videos ctx scrape_comments max_comments st L)
    as (k & -> & E).
  rewrite E in Hres. injection Hres as <-.
  destruct (state_unique page max_videos k Habs) as [Hall Hnd].
  destruct ctx as [c|]; [|now split].
  split.
  - apply Forall_forall. intros x Hx.
    apply list_elem_of_lookup in Hx as [j Hj].
    rewrite list_lookup_imap in Hj.
    destruct (videos (scroll_state page max_videos k) !! j) as [v|] eqn:Hv; [|discriminate].
    injection Hj as <-.
    apply (Forall_lookup_1 _ _ _ _ Hall) in Hv as [u Hu].
    exists u. now rewrite enriched_url.
  - exact (eq_ind_r (fun l => NoDup l) Hnd
             (enriched_urls c scrape_comments max_comments 1 _)).
Qed.

(** C1, amended, on a feed that shows the same absolute url in every
    round: one record. *)
Lemma absolute_urls_are_collected_once_witness :
  absolute_feed (still_feed [feed_item "https://www.tiktok.com/@u/video/12" "a"])
  /\ _scrape_videos_by_scrolling 20
       (still_feed [feed_item "https://www.tiktok.com/@u/video/12" "a"]) 3 None false 20
     = Some (Returns [scroll_video (VStr "12") "https://www.tiktok.com/@u/video/12" "a"])
  /\ unique_urls [scroll_video (VStr "12") "https://www.tiktok.com/@u/video/12" "a"].
Proof.
  assert (Habs : absolute_feed
                   (still_feed [feed_item "https://www.tiktok.com/@u/video/12" "a"])).
  { intros n element href Hin Hh. simpl in Hin.
    apply list_elem_of_singleton in Hin as ->. now injection Hh as <-. }
  assert (Hres : _scrape_videos_by_scrolling 20
                   (still_feed [feed_item "https://www.tiktok.com/@u/video/12" "a"])
                   3 None false 20
                 = Some (Returns [scroll_video (VStr "12")
                                    "https://www.tiktok.com/@u/video/12" "a"]))
    by (vm_compute; reflexivity).
  split; [exact Habs|]. split; [exact Hres|].
  exact (proj1 (absolute_urls_are_collected_once _ _ _ _ _ _ _ Habs Hres)).
Defined.

(** C4.  A record of the scroll collector whose detail visit yields
    nothing (the visit returns [None], as it does when the payload is
    absent, malformed or without the item) is appended to the detailed
    list as it is: the turn of the detail loop returns the record itself,
    and [_scrape_videos_by_scrolling] returns a list as long as the
    collection with that very record at its position. *)
Theorem enrichment_failure_keeps_item (page : nat -> Round) (max_videos : Z)
    (ctx : Context) (scrape_comments : bool) (max_comments : Z)
    (fuel : nat) (st : ScrollState) (j : nat) (v : value) (u : string) :
  scroll_loop fuel page 0 max_videos scroll_start = Some st ->
  videos st !! j = Some v ->
  url_field v = Some (VStr u) ->
  scrape_video_details (ctx (S j) u) u scrape_comments max_comments = None
  \/ detail_parse_fails (ctx (S j) u) u ->
  enrich ctx (S j) scrape_comments max_comments v = Returns v
  /\ exists res,
       _scrape_videos_by_scrolling fuel page max_videos (Some ctx)
         scrape_comments max_comments = Some (Returns res)
       /\ length res = length (videos st)
       /\ res !! j = Some v.
Proof.
  intros L Hj Hu Hfail.
  assert (N : scrape_video_details (ctx (S j) u) u scrape_comments max_comments = None).
  { destruct Hfail as [H|H]; [exact H | now apply parse_fails_none]. }
  assert (E : enriched ctx scrape_comments max_comments (S j) v = v).
  { unfold enriched. now rewrite Hu, N. }
  split.
  - rewrite enrich_has_url by now exists u. now rewrite E.
  - destruct (scrape_result fuel page max_videos (Some ctx) scrape_comments max_comments
                st L) as (k & _ & ->).
    eexists. split; [reflexivity|]. split; [apply length_imap|].
    rewrite list_lookup_imap, Hj. simpl. now rewrite E.
Qed.

(** C4 on a context whose detail pages carry a malformed payload. *)
Lemma enrichment_failure_keeps_item_witness :
  _scrape_videos_by_scrolling 20
    (still_feed [feed_item "https://www.tiktok.com/@u/video/12" "a"]) 1
    (Some (context_with BadJson)) true 20
  = Some (Returns [scroll_video (VStr "12") "https://www.tiktok.com/@u/video/12" "a"]).
Proof.
  destruct (enrichment_failure_keeps_item
              (still_feed [feed_item "https://www.tiktok.com/@u/video/12" "a"]) 1
              (context_with BadJson) true 20 20
              {| videos := [scroll_video (VStr "12") "https://www.tiktok.com/@u/video/12" "a"];
                 last_height := 1000; scroll_attempts := 1 |}
              0 (scroll_video (VStr "12") "https://www.tiktok.com/@u/video/12" "a")
              "https://www.tiktok.com/@u/video/12"
              eq_refl eq_refl eq_refl (or_intror I))
    as (_ & res & -> & Hlen & Hres).
  destruct res as [|x [|y r]]; try discriminate Hlen.
  now injection Hres as ->.
Defined.

(** C9, as stated, fails: the record of a successful detail visit is
    built from the detail page alone and takes the place of the scroll
    record, so the mark ['html_scroll'] of the scroll record is not in the
    final record, which says ['video_page']. *)
Lemma enrichment_changes_source :
  _scrape_videos_by_scrolling 20
    (still_feed [feed_item "https://www.tiktok.com/@u/video/12" "a"]) 1
    None false 20
  = Some (Returns [scroll_video (VStr "12") "https://www.tiktok.com/@u/video/12" "a"])
  /\ _scrape_videos_by_scrolling 20
       (still_feed [feed_item "https://www.tiktok.com/@u/video/12" "a"]) 1
       (Some (context_with (Json detail_payload))) false 20
     = Some (Returns [detail_video "https://www.tiktok.com/@u/video/12"])
  /\ getitem (scroll_video (VStr "12") "https://www.tiktok.com/@u/video/12" "a")
       "scraped_via" = Some (VStr "html_scroll")
  /\ getitem (detail_video "https://www.tiktok.com/@u/video/12") "scraped_via"
     = Some (VStr "video_page").
Proof. repeat split; vm_compute; reflexivity. Qed.

(** C9, amended.  A record of the scroll collector says ['html_scroll'];
    when its detail visit succeeds, the record returned in its place is
    the record of the visit, which has the same url and says
    ['video_page']. *)
Theorem enrichment_replaces_source (page : nat -> Round) (max_videos : Z)
    (ctx : Context) (scrape_comments : bool) (max_comments : Z)
    (fuel : nat) (st : ScrollState) (j : nat) (v d : value) (u : string) :
  scroll_loop fuel page 0 max_videos scroll_start = Some st ->
  videos st !! j = Some v ->
  url_field v = Some (VStr u) ->
  scrape_video_details (ctx (S j) u) u scrape_comments max_comments = Some d ->
  getitem v "scraped_via" = Some (VStr "html_scroll")
  /\ getitem d "scraped_via" = Some (VStr "video_page")
  /\ url_field d = url_field v
  /\ exists res,
       _scrape_videos_by_scrolling fuel page max_videos (Some ctx)
         scrape_comments max_comments = Some (Returns res)
       /\ res !! j = Some d.
Proof.
  intros L Hj Hu Hd.
  destruct (scrape_result fuel page max_videos (Some ctx) scrape_comments max_comments
              st L) as (k & -> & E).
  pose proof (details_record _ _ _ _ _ Hd) as R.
  split.
  { pose proof (state_records page max_videos k) as Hall.
    now apply (Forall_lookup_1 _ _ _ _ Hall) in Hj as [_ Hvia]. }
  split; [now destruct R as (fields & -> & _ & Hvia)|].
  split; [rewrite Hu; now apply detail_record_url|].
  eexists. split; [exact E|].
  rewrite list_lookup_imap, Hj. simpl. unfold enriched. now rewrite Hu, Hd.
Qed.

(** C9, amended, on a context whose detail pages carry a payload. *)
Lemma enrichment_replaces_source_witness :
  getitem (detail_video "https://www.tiktok.com/@u/video/12") "scraped_via"
  = Some (VStr "video_page").
Proof.
  exact (proj1 (proj2 (enrichment_replaces_source
           (still_feed [feed_item "https://www.tiktok.com/@u/video/12" "a"]) 1
           (context_with (Json detail_payload)) false 20 20
           {| videos := [scroll_video (VStr "12") "https://www.tiktok.com/@u/video/12" "a"];
              last_height := 1000; scroll_attempts := 1 |}
           0 (scroll_video (VStr "12") "https://www.tiktok.com/@u/video/12" "a")
           (detail_video "https://www.tiktok.com/@u/video/12")
           "https://www.tiktok.com/@u/video/12"
           eq_refl eq_refl eq_refl eq_refl))).
Defined.

(** C6.  When [page.goto] raises, whether Playwright's [TimeoutError] or
    any other exception, [scrape_hashtag] returns, whatever the fuel: the
    result has the hashtag, an empty list of videos and an ['error'],
    which is ['timeout'] for a timeout and the text of the exception
    otherwise. *)
Theorem navigation_failure_is_reported (fuel : nat) (now : string) (page : FeedPage)
    (hashtag : string) (max_videos : Z) (detailed_scrape scrape_comments : bool)
    (max_comments : Z) (e : exn) :
  goto page = Raises e ->
  exists msg,
    scrape_hashtag fuel now page hashtag max_videos detailed_scrape
      scrape_comments max_comments
    = Some (VDict [ ("hashtag", VStr (lstrip_char "#" hashtag));
                    ("videos", VList []);
                    ("error", VStr msg) ])
    /\ (e = PlaywrightTimeout -> msg = "timeout")
    /\ (forall text, e = PyError text -> msg = text).
Proof.
  intros H. unfold scrape_hashtag. rewrite H. unfold session_error.
  eexists. split; [reflexivity|].
  split; [now intros -> | now intros text ->].
Qed.

(** C6 on a page whose navigation times out. *)
Lemma navigation_failure_is_reported_witness :
  scrape_hashtag 0 "now" (unreachable_page PlaywrightTimeout) "#tag" 30 true true 20
  = Some (VDict [ ("hashtag", VStr "tag"); ("videos", VList []);
                  ("error", VStr "timeout") ]).
Proof.
  destruct (navigation_failure_is_reported 0 "now" (unreachable_page PlaywrightTimeout)
              "#tag" 30 true true 20 PlaywrightTimeout eq_refl) as (msg & -> & Ht & _).
  now rewrite (Ht eq_refl).
Defined.

(** C7, on the code.  A feed page that loads and has no Refresh button
    ends the session at the click: the locator raises [TimeoutError], and
    the result is the error record with no video, whatever the page
    holds.  So it is for a page whose payload lists items. *)
Theorem missing_refresh_button_ends_session :
  (forall fuel now page hashtag max_videos detailed_scrape scrape_comments max_comments,
     goto page = Returns tt ->
     refresh_button page = None ->
     scrape_hashtag fuel now page hashtag max_videos detailed_scrape
       scrape_comments max_comments
     = Some (session_error (lstrip_char "#" hashtag) PlaywrightTimeout))
  /\ scrape_hashtag 20 "now" (feed_page None (Json feed_payload) [] NoScript)
       "tag" 30 false false 20
     = Some (VDict [ ("hashtag", VStr "tag"); ("videos", VList []);
                     ("error", VStr "timeout") ])
  /\ scrape_hashtag 20 "now" (feed_page (Some (Returns tt)) (Json feed_payload) [] NoScript)
       "tag" 30 false false 20
     = Some (VDict [ ("hashtag", VStr "tag"); ("scraped_at", VStr "now");
                     ("hashtag_info", VDict []);
                     ("videos", VList [payload_video; payload_video]) ]).
Proof.
  split; [|split; vm_compute; reflexivity].
  intros fuel now page hashtag max_videos ds sc mc Hg Hr.
  unfold scrape_hashtag. now rewrite Hg, Hr.
Qed.

(** C2, on the code.  Once the payload of the feed page gives a video,
    [_extract_hashtag_data] returns what the structured extractor found:
    the context is not used and no detail page is visited.  So a session
    with detail enrichment on returns the records of the payload, where
    the scroll collector on the same context returns detail records. *)
Theorem payload_items_are_not_enriched :
  (forall fuel now page hashtag max_videos ctx scrape_comments max_comments found,
     dict_get (_extract_from_json now page hashtag) "videos" = Some found ->
     truthy found = true ->
     _extract_hashtag_data fuel now page hashtag max_videos ctx
       scrape_comments max_comments
     = Some (Returns (VDict (_extract_from_json now page hashtag))))
  /\ scrape_hashtag 20 "now"
       (feed_page (Some (Returns tt)) (Json feed_payload)
          [feed_item "https://www.tiktok.com/@u/video/12" "a"] (Json detail_payload))
       "tag" 30 true false 20
     = Some (VDict [ ("hashtag", VStr "tag"); ("scraped_at", VStr "now");
                     ("hashtag_info", VDict []);
                     ("videos", VList [payload_video; payload_video]) ])
  /\ scrape_hashtag 20 "now"
       (feed_page (Some (Returns tt)) NoScript
          [feed_item "https://www.tiktok.com/@u/video/12" "a"] (Json detail_payload))
       "tag" 1 true false 20
     = Some (VDict [ ("hashtag", VStr "tag");
                     ("videos", VList [detail_video "https://www.tiktok.com/@u/video/12"]) ]).
Proof.
  split; [|split; vm_compute; reflexivity].
  intros fuel now page hashtag max_videos ctx sc mc found Hf Ht.
  unfold _extract_hashtag_data. now rewrite Hf, Ht.
Qed.

(** C3, on the code.  The list [_scrape_comments_from_page] returns is
    empty or starts with an element handle: the records are appended to
    the list of handles they were extracted from.  With one comment on
    the page and [max_comments = 1] it has two entries, the handle and
    the record; and a comment whose text is blank gives a record with an
    empty text. *)
Theorem harvest_returns_handles :
  (forall page max_comments,
     _scrape_comments_from_page page max_comments = []
     \/ exists id rest,
          _scrape_comments_from_page page max_comments = VHandle id :: rest)
  /\ _scrape_comments_from_page (comment_page [comment_node 0 "Nice" "3"]) 1
     = [ VHandle 0;
         VDict [ ("text", VStr "Nice"); ("author", VStr "Unknown");
                 ("likes", VInt 3); ("timestamp", VStr "") ] ]
  /\ _extract_comment_data (comment_node 1 "  " "3")
     = Some (VDict [ ("text", VStr ""); ("author", VStr "Unknown");
                     ("likes", VInt 3); ("timestamp", VStr "") ]).
Proof.
  split; [|split; vm_compute; reflexivity].
  intros page max_comments. unfold _scrape_comments_from_page.
  destruct (entries_start_with_nodes page max_comments) as [-> | (e & rest & ->)];
    [now left | right; simpl; eauto].
Qed.

(* ===================================================================== *)
(** * Further properties: lemmas *)
(* ===================================================================== *)

(** ** The video id of an href *)

Module SearchFacts.
Import Fmt.

Lemma after_prefix_app (p s t : string) :
  after_prefix p s = Some t -> s = p ++ t.
Proof.
  revert s; induction p as [|a p IH]; intros s H.
  - simpl in H. injection H as <-. reflexivity.
  - destruct s as [|b s]; simpl in H; [discriminate|].
    destruct (Ascii.eqb a b) eqn:E; [|discriminate].
    apply Ascii.eqb_eq in E. subst b. simpl. f_equal. auto.
Qed.

Lemma after_prefix_here (p t : string) : after_prefix p (p ++ t) = Some t.
Proof.
  induction p as [|a p IH]; simpl.
  - destruct t; reflexivity.
  - rewrite Ascii.eqb_refl. exact IH.
Qed.

Lemma prefix_app (p t : string) : String.prefix p (p ++ t) = true.
Proof.
  induction p as [|a p IH]; simpl.
  - destruct t; reflexivity.
  - destruct (ascii_dec a a); [exact IH|congruence].
Qed.

Lemma contains_of_prefix (p s : string) :
  String.prefix p s = true -> contains p s = true.
Proof. intros H. destruct s; simpl; simpl in H; rewrite H; reflexivity. Qed.

Lemma contains_prefix (p t : string) : contains p (p ++ t) = true.
Proof. apply contains_of_prefix, prefix_app. Qed.

Lemma contains_later (p : string) (c : ascii) (s : string) :
  contains p s = true -> contains p (String c s) = true.
Proof.
  intros H. change (contains p (String c s))
    with (String.prefix p (String c s) || contains p s).
  rewrite H. apply orb_true_r.
Qed.

Lemma span_digits_spec (s : string) :
  s = fst (span_digits s) ++ snd (span_digits s)
  /\ all_chars is_digit (fst (span_digits s)) = true.
Proof.
  induction s as [|c r [IH1 IH2]]; simpl; [auto|].
  destruct (is_digit c) eqn:E; simpl.
  - destruct (span_digits r) as [d t]. simpl in *. rewrite E, IH2. split; [congruence|reflexivity].
  - auto.
Qed.

Lemma span_digits_run (d rest : string) :
  all_chars is_digit d = true ->
  fst (span_digits rest) = "" ->
  span_digits (d ++ rest) = (d, rest).
Proof.
  intros Hd Hr. induction d as [|c d IH]; simpl in *.
  - destruct rest as [|c r]; [reflexivity|]. simpl in *.
    destruct (is_digit c); [|reflexivity].
    destruct (span_digits r); discriminate.
  - apply andb_true_iff in Hd as [Hc Hd]. rewrite Hc, (IH Hd). reflexivity.
Qed.

Lemma append_assoc (a b c : string) : (a ++ b) ++ c = a ++ (b ++ c).
Proof. induction a; simpl; congruence. Qed.

Lemma search_sound (s d : string) :
  search_video_id s = Some d ->
  d <> "" /\ all_chars is_digit d = true /\ contains ("/video/" ++ d) s = true.
Proof.
  induction s as [|c r IH]; [discriminate|].
  intros H. 
  change (search_video_id (String c r)) with
    (match after_prefix "/video/" (String c r) with
     | Some t => match fst (span_digits t) with
                 | EmptyString => search_video_id r
                 | d => Some d
                 end
     | None => search_video_id r
     end) in H.
  assert (Later : search_video_id r = Some d ->
     d <> "" /\ all_chars is_digit d = true /\ contains ("/video/" ++ d) (String c r) = true).
  { intros K. destruct (IH K) as (A & B & C). auto using contains_later. }
  destruct (after_prefix "/video/" (String c r)) as [t|] eqn:E; [|auto].
  destruct (fst (span_digits t)) as [|a d'] eqn:F; [auto|].
  injection H as <-.
  destruct (span_digits_spec t) as [T D]. rewrite F in T, D.
  apply after_prefix_app in E. split; [discriminate|]. split; [exact D|].
  rewrite E, T, <- append_assoc. apply contains_prefix.
Qed.

Lemma search_front (d rest : string) :
  d <> "" -> all_chars is_digit d = true -> fst (span_digits rest) = "" ->
  search_video_id ("/video/" ++ d ++ rest) = Some d.
Proof.
  intros Hne Hd Hr.
  change (search_video_id ("/video/" ++ d ++ rest)) with
    (match after_prefix "/video/" ("/video/" ++ d ++ rest) with
     | Some t => match fst (span_digits t) with
                 | EmptyString => search_video_id ("video/" ++ d ++ rest)
                 | d => Some d
                 end
     | None => search_video_id ("video/" ++ d ++ rest)
     end).
  rewrite after_prefix_here, (span_digits_run _ _ Hd Hr). simpl.
  destruct d; [congruence|reflexivity].
Qed.

End SearchFacts.

(** ** The scroll collector, record by record *)

Module CollectorFacts.
Import Py PyFacts ScrollFacts UniqueFacts RecordFacts SearchFacts Samples.

(** A property of every record an element can give holds for the whole
    collection. *)
Section Invariant.
Variable P : value -> Prop.
Hypothesis extracted :
  forall element href c, _extract_video_info_from_element element href = Some c -> P c.

Lemma visit_element_all element vs : Forall P vs -> Forall P (visit_element element vs).
Proof.
  intros Hall.
  destruct (visit_element_cases element vs) as [-> | (h & c & _ & _ & _ & Hc & ->)];
    [exact Hall|].
  apply Forall_app. split; [exact Hall|]. constructor; [eauto | constructor].
Qed.

Lemma visit_elements_all max_videos elements vs :
  Forall P vs -> Forall P (visit_elements max_videos elements vs).
Proof.
  revert vs. induction elements as [|e r IH]; intros vs Hall; simpl; [exact Hall|].
  destruct (max_videos <=? len vs); [exact Hall|].
  now apply IH, visit_element_all.
Qed.

Lemma state_all page max_videos k : Forall P (videos (scroll_state page max_videos k)).
Proof.
  induction k as [|k IH]; simpl; [constructor|].
  now apply visit_elements_all.
Qed.

End Invariant.

Lemma completed_url_absolute href :
  startswith "http" (if startswith "http" href then href
                     else "https://www.tiktok.com" ++ href) = true.
Proof. destruct (startswith "http" href) eqn:E; [exact E | reflexivity]. Qed.

Lemma extract_basic element href c :
  _extract_video_info_from_element element href = Some c -> basic_record c.
Proof.
  unfold _extract_video_info_from_element.
  destruct (inner_text element) as [t|]; [|discriminate].
  intros [= <-]. eexists _, _, t. split; [reflexivity|].
  split; [apply completed_url_absolute|].
  destruct (Fmt.search_video_id href) as [d|] eqn:E; [right | now left].
  exists d. split; [reflexivity|]. apply search_sound in E. tauto.
Qed.

(** The loop stops at once when nothing is asked for. *)
Lemma nothing_asked fuel page max_videos st :
  max_videos <= len (videos st) ->
  scroll_loop fuel page 0 max_videos st = Some st.
Proof.
  intros H. assert (K : keep_scrolling max_videos st = false).
  { unfold keep_scrolling. apply andb_false_iff. left. apply Z.ltb_ge. exact H. }
  destruct fuel; simpl; rewrite K; reflexivity.
Qed.

Lemma visit_elements_full max_videos elements vs :
  max_videos <= len vs -> visit_elements max_videos elements vs = vs.
Proof.
  intros H. destruct elements; simpl; [reflexivity|].
  apply Z.leb_le in H. now rewrite H.
Qed.

Lemma visit_element_silent element vs :
  candidate element = None -> visit_element element vs = vs.
Proof.
  intros H. destruct (visit_element_candidate element vs) as [|(c & Hc & _)]; congruence.
Qed.

Lemma visit_elements_filter max_videos elements vs :
  visit_elements max_videos elements vs
  = visit_elements max_videos (List.filter has_candidate elements) vs.
Proof.
  revert vs. induction elements as [|e r IH]; intros vs; [reflexivity|].
  simpl. destruct (has_candidate e) eqn:E; simpl.
  - destruct (max_videos <=? len vs); [reflexivity | apply IH].
  - destruct (Z.leb_spec max_videos (len vs)).
    + symmetry. now apply visit_elements_full.
    + rewrite visit_element_silent; [apply IH|].
      unfold has_candidate in E. now destruct (candidate e).
Qed.

(** An element with a relative href is never found among the collected
    urls, which all start with [http]. *)
Lemma relative_not_collected href vs urls :
  Forall basic_record vs ->
  startswith "http" href = false ->
  collected_urls vs = Some urls ->
  href_in href urls = false.
Proof.
  intros Hall Hrel Hu.
  destruct (href_in href urls) eqn:Hin; [|reflexivity].
  apply href_in_spec in Hin.
  assert (Hurl : Forall has_url vs).
  { eapply Forall_impl; [exact Hall|]. intros v (id & u & t & -> & _). now exists u. }
  destruct (collected_urls_spec vs Hurl) as (urls' & Hu' & E).
  assert (urls' = urls) as -> by congruence.
  apply (url_collected href vs urls E) in Hin.
  apply list_elem_of_fmap in Hin as (v & Hv & Hin).
  rewrite Forall_forall in Hall. destruct (Hall v Hin) as (id & u & t & -> & Habs & _).
  injection Hv as ->. congruence.
Qed.

Lemma visit_relative element href text vs :
  Forall basic_record vs ->
  element_href element = Some href ->
  startswith "http" href = false ->
  inner_text element = Returns text ->
  visit_element element vs
  = (vs ++ [scroll_video match Fmt.search_video_id href with
                         | Some d => VStr d
                         | None => VNone
                         end ("https://www.tiktok.com" ++ href) text])%list.
Proof.
  intros Hall Hh Hrel Ht.
  assert (Hurl : Forall has_url vs).
  { eapply Forall_impl; [exact Hall|]. intros v (id & u & t & -> & _). now exists u. }
  destruct (collected_urls_spec vs Hurl) as (urls & Hu & E).
  pose proof (relative_not_collected href vs urls Hall Hrel Hu) as Hin.
  unfold element_href in Hh. unfold visit_element.
  destruct (query_a element) as [[link|]|]; try discriminate.
  destruct (get_href link) as [[h|]|]; try discriminate.
  destruct (String.eqb h ""); [discriminate|]. injection Hh as ->.
  rewrite Hu, Hin. unfold _extract_video_info_from_element. rewrite Ht, Hrel. reflexivity.
Qed.

End CollectorFacts.

(** ** The scroll loop on particular feeds *)

Module LoopFacts.
Import SearchFacts CollectorFacts.

Lemma prefix_window (q x y : string) :
  (String.length q <= String.length x)%nat ->
  String.prefix q (x ++ y) = String.prefix q x.
Proof.
  revert x. induction q as [|a q IH]; intros x H.
  - destruct x; simpl; [destruct y|]; reflexivity.
  - destruct x as [|b x]; simpl in H; [lia|]. simpl.
    destruct (ascii_dec a b); [apply IH; lia | reflexivity].
Qed.

Lemma after_prefix_none (q s : string) :
  String.prefix q s = false -> after_prefix q s = None.
Proof.
  revert s. induction q as [|a q IH]; intros s H.
  - destruct s; discriminate.
  - destruct s as [|b s]; [reflexivity|]. simpl in *.
    destruct (ascii_dec a b) as [->|Hne].
    + rewrite Ascii.eqb_refl. auto.
    + destruct (Ascii.eqb_spec a b); [contradiction | reflexivity].
Qed.

Lemma length_append (a b : string) :
  String.length (a ++ b) = (String.length a + String.length b)%nat.
Proof. induction a; simpl; congruence. Qed.

Lemma search_first (p d rest : string) :
  contains "/video/" (p ++ "/video") = false ->
  d <> "" -> all_chars is_digit d = true -> fst (span_digits rest) = "" ->
  Fmt.search_video_id (p ++ "/video/" ++ d ++ rest) = Some d.
Proof.
  intros Hp Hne Hd Hr. induction p as [|c p IH].
  - now apply search_front.
  - change (contains "/video/" (String c p ++ "/video"))
      with (String.prefix "/video/" (String c (p ++ "/video"))
            || contains "/video/" (p ++ "/video")) in Hp.
    apply orb_false_iff in Hp as [Hhere Hlater].
    change (Fmt.search_video_id (String c p ++ "/video/" ++ d ++ rest)) with
      (match after_prefix "/video/" (String c (p ++ "/video/" ++ d ++ rest)) with
       | Some t => match fst (span_digits t) with
                   | EmptyString => Fmt.search_video_id (p ++ "/video/" ++ d ++ rest)
                   | d => Some d
                   end
       | None => Fmt.search_video_id (p ++ "/video/" ++ d ++ rest)
       end).
    rewrite after_prefix_none; [now apply IH|].
    change (String c (p ++ "/video/" ++ d ++ rest))
      with (String c p ++ ("/video" ++ ("/" ++ d ++ rest))).
    rewrite <- append_assoc. rewrite prefix_window; [exact Hhere|].
    rewrite length_append. simpl. lia.
Qed.

Section Rounds.
Variable page : nat -> Round.
Variable max_videos : Z.

Lemma loop_never_ends fuel : forall n,
  (forall k, keep_scrolling max_videos (scroll_state page max_videos k) = true) ->
  scroll_loop fuel page n max_videos (scroll_state page max_videos n) = None.
Proof.
  induction fuel as [|fuel IH]; intros n H; simpl; rewrite (H n); [reflexivity|].
  apply (IH (S n) H).
Qed.

Lemma nothing_discovered k :
  (forall n, omap candidate (video_elements (page n)) = []) -> discovered page k = [].
Proof.
  intros H. induction k as [|k IH]; [reflexivity|].
  now rewrite discovered_succ, IH, H.
Qed.

Lemma attempts_reset k :
  (forall n, new_height (page n) <> current_height (page n)) ->
  scroll_attempts (scroll_state page max_videos k) = 0.
Proof.
  intros H. destruct k as [|k]; [reflexivity|]. simpl.
  destruct (Z.eqb_spec (new_height (page k)) (current_height (page k))) as [E|];
    [now apply H in E | reflexivity].
Qed.

End Rounds.

Lemma scroll_round_working max_videos r st :
  scroll_round max_videos (working_round r) st = scroll_round max_videos r st.
Proof. unfold scroll_round. simpl. now rewrite <- visit_elements_filter. Qed.

Lemma scroll_loop_working fuel page max_videos : forall n st,
  scroll_loop fuel (fun n => working_round (page n)) n max_videos st
  = scroll_loop fuel page n max_videos st.
Proof.
  induction fuel as [|fuel IH]; intros n st; simpl; [reflexivity|].
  destruct (keep_scrolling max_videos st); [|reflexivity].
  now rewrite scroll_round_working, IH.
Qed.

Section Single.
Variable element : FeedElement.
Variable href text : string.
Variable height max_videos : Z.
Hypothesis shown : element_href element = Some href.
Hypothesis relative : startswith "http" href = false.
Hypothesis visible : inner_text element = Returns text.

Local Abbreviation record :=
  (scroll_video match Fmt.search_video_id href with
                | Some d => VStr d
                | None => VNone
                end ("https://www.tiktok.com" ++ href) text).
Local Abbreviation state := (scroll_state (single_item_feed element height) max_videos).

Lemma record_basic : basic_record record.
Proof.
  apply (extract_basic element href).
  unfold _extract_video_info_from_element. now rewrite visible, relative.
Qed.

Lemma single_state k :
  videos (state k) = replicate (Nat.min k (Z.to_nat max_videos)) record
  /\ scroll_attempts (state k) = Z.of_nat k.
Proof.
  induction k as [|k [IHv IHa]]; [split; reflexivity|]. split.
  - change (videos (state (S k)))
      with (visit_elements max_videos [element] (videos (state k))).
    rewrite IHv. simpl visit_elements. unfold len. rewrite length_replicate.
    destruct (Z.leb_spec max_videos (Z.of_nat (Nat.min k (Z.to_nat max_videos)))).
    + f_equal. lia.
    + rewrite (visit_relative element href text); auto.
      * replace (Nat.min (S k) (Z.to_nat max_videos)) with (S (Nat.min k (Z.to_nat max_videos)))
          by lia.
        replace (Nat.min k (Z.to_nat max_videos)) with k by lia.
        symmetry. apply replicate_cons_app.
      * apply Forall_replicate, record_basic.
  - simpl. rewrite Z.eqb_refl, IHa. lia.
Qed.

Lemma single_keep k :
  keep_scrolling max_videos (state k)
  = (Z.of_nat k <? max_videos) && (Z.of_nat k <? 20).
Proof.
  unfold keep_scrolling, len. destruct (single_state k) as [-> ->].
  rewrite length_replicate. unfold max_scroll_attempts. f_equal.
  destruct (Z.ltb_spec (Z.of_nat (Nat.min k (Z.to_nat max_videos))) max_videos),
    (Z.ltb_spec (Z.of_nat k) max_videos); try reflexivity; lia.
Qed.

Lemma single_result fuel ctx scrape_comments max_comments :
  (20 <= fuel)%nat ->
  ctx = None ->
  _scrape_videos_by_scrolling fuel (single_item_feed element height) max_videos ctx
    scrape_comments max_comments
  = Some (Returns (replicate (Z.to_nat (Z.min 20 max_videos)) record)).
Proof.
  intros Hf ->. unfold _scrape_videos_by_scrolling.
  pose (k := Z.to_nat (Z.min 20 max_videos)).
  rewrite (scroll_loop_runs _ max_videos k 0 fuel).
  - rewrite finish_state. simpl. destruct (single_state k) as [-> _].
    do 3 f_equal. lia.
  - lia.
  - intros j Hj. simpl. rewrite single_keep. apply andb_true_iff. split; apply Z.ltb_lt; lia.
  - simpl. rewrite single_keep. apply andb_false_iff.
    destruct (Z.le_gt_cases 20 max_videos); [right | left]; apply Z.ltb_ge; lia.
Qed.

End Single.

End LoopFacts.

(** ** The comment harvest *)

Module HarvestFacts.

Lemma rstrip_idem s : rstrip (rstrip s) = rstrip s.
Proof.
  induction s as [|c r IH]; [reflexivity|]. simpl.
  destruct (rstrip r) as [|a r'] eqn:E.
  - destruct (is_space c) eqn:Hs; [reflexivity|]. simpl. now rewrite Hs.
  - change (rstrip (String c (String a r')))
      with (match rstrip (String a r') with
            | EmptyString => if is_space c then EmptyString else String c EmptyString
            | x => String c x
            end).
    now rewrite IH.
Qed.

Lemma rstrip_head c r : is_space c = false -> exists r', rstrip (String c r) = String c r'.
Proof.
  intros H. simpl. destruct (rstrip r); [rewrite H|]; eauto.
Qed.

Lemma lstrip_head s : lstrip s = "" \/ exists c r, lstrip s = String c r /\ is_space c = false.
Proof.
  induction s as [|c r IH]; [now left|]. simpl.
  destruct (is_space c) eqn:E; [exact IH | right; eauto].
Qed.

Lemma strip_idem s : strip (strip s) = strip s.
Proof.
  unfold strip. destruct (lstrip_head s) as [-> | (c & r & -> & Hc)]; [reflexivity|].
  destruct (rstrip_head c r Hc) as [r' E].
  assert (L : lstrip (rstrip (String c r)) = rstrip (String c r)).
  { rewrite E. simpl. now rewrite Hc. }
  rewrite L. apply rstrip_idem.
Qed.

(** A selector chain gives the text of the first selector that answers. *)
Lemma first_match_answers {A : Type} element selectors (f : string -> A) default :
  first_match element selectors f default
  = match omap (answers element) selectors with
    | text :: _ => f text
    | [] => default
    end.
Proof.
  induction selectors as [|s r IH]; [reflexivity|]. simpl. unfold answers at 1.
  destruct (node_query element s) as [[elem|]|]; try exact IH.
  destruct (sub_inner_text elem); [reflexivity | exact IH].
Qed.

Lemma extract_comment_record element c :
  _extract_comment_data element = Some c -> comment_record c.
Proof.
  unfold _extract_comment_data.
  destruct (if String.eqb _ "" then _ else _) as [t|]; [|discriminate].
  destruct (String.eqb t ""); [discriminate|].
  intros [= <-]. eexists _, _, _, _. split; [reflexivity|].
  split; [apply strip_idem|]. split.
  - destruct (String.eqb _ ""); [reflexivity | apply strip_idem].
  - destruct (String.eqb _ ""); [reflexivity | apply strip_idem].
Qed.

Lemma comment_record_truthy c : comment_record c -> truthy c = true.
Proof. now intros (t & a & n & ts & -> & _). Qed.

(** The last loop appends the record of every element that gives one. *)
Lemma extract_into_records elements : forall comments,
  extract_into elements comments
  = (comments ++ map Data (omap _extract_comment_data elements))%list.
Proof.
  induction elements as [|e r IH]; intros comments; simpl.
  - now rewrite app_nil_r.
  - destruct (_extract_comment_data e) as [c|] eqn:E; [|apply IH].
    rewrite (comment_record_truthy c (extract_comment_record e c E)), IH.
    now rewrite <- app_assoc.
Qed.

Lemma comment_scroll_grows page max_comments remaining : forall attempts comments,
  (length comments <= length (comment_scroll page max_comments remaining attempts comments))%nat.
Proof.
  induction remaining as [|n IH]; intros attempts comments; simpl; [lia|].
  destruct (len comments <? max_comments); [|lia].
  etransitivity; [|apply IH].
  destruct (scrolled (scroll_answer page attempts)); [|lia].
  destruct (requery (scroll_answer page attempts)) as [elements|]; [|lia].
  destruct (Z.ltb_spec (len comments) (len elements)); unfold len in *; lia.
Qed.

Lemma comment_scroll_source page max_comments remaining : forall attempts comments,
  comment_scroll page max_comments remaining attempts comments = comments
  \/ exists i, (attempts <= i < attempts + remaining)%nat
       /\ scrolled (scroll_answer page i) = Returns tt
       /\ requery (scroll_answer page i)
          = Returns (comment_scroll page max_comments remaining attempts comments).
Proof.
  induction remaining as [|n IH]; intros attempts comments; simpl; [now left|].
  destruct (len comments <? max_comments); [|now left].
  destruct (scrolled (scroll_answer page attempts)) as [[]|] eqn:Hs.
  2:{ destruct (IH (S attempts) comments) as [->|(i & Hi & H)]; [now left|].
      right. exists i. split; [lia | exact H]. }
  destruct (requery (scroll_answer page attempts)) as [elements|] eqn:Q.
  2:{ destruct (IH (S attempts) comments) as [->|(i & Hi & H)]; [now left|].
      right. exists i. split; [lia | exact H]. }
  destruct (len comments <? len elements).
  - destruct (IH (S attempts) elements) as [->|(i & Hi & H)].
    + right. exists attempts. split; [lia | now split].
    + right. exists i. split; [lia | exact H].
  - destruct (IH (S attempts) comments) as [->|(i & Hi & H)]; [now left|].
    right. exists i. split; [lia | exact H].
Qed.

Lemma comment_scroll_enough page max_comments remaining attempts comments :
  max_comments <= len comments ->
  comment_scroll page max_comments remaining attempts comments = comments.
Proof.
  intros H. destruct remaining; simpl; [reflexivity|].
  apply Z.ltb_ge in H. now rewrite H.
Qed.

(** The list of the harvest: the nodes of the last query, then the
    records of the first [max_comments] of them. *)
Lemma harvest_entries page max_comments :
  scrape_comment_entries page max_comments = []
  \/ exists first nodes,
       comment_icon page = Returns (Some (Returns tt))
       /\ first_query page = Returns first
       /\ first <> []
       /\ nodes = comment_scroll page max_comments max_scroll 0 first
       /\ scrape_comment_entries page max_comments
          = (map Node nodes
             ++ map Data (omap _extract_comment_data (slice_to max_comments nodes)))%list.
Proof.
  unfold scrape_comment_entries.
  destruct (comment_icon page) as [[[[]|]|]|]; auto.
  destruct (first_query page) as [[|n ns]|]; auto.
  right. exists (n :: ns), (comment_scroll page max_comments max_scroll 0 (n :: ns)).
  repeat split; [discriminate|]. apply extract_into_records.
Qed.

Lemma omap_length {A B : Type} (f : A -> option B) (l : list A) :
  (length (omap f l) <= length l)%nat.
Proof.
  induction l as [|x r IH]; [reflexivity|].
  change (omap f (x :: r)) with (match f x with Some y => y :: omap f r | None => omap f r end).
  destruct (f x); simpl; lia.
Qed.

End HarvestFacts.

(** ** Values and [clean_for_json] *)

Module ValueFacts.

(** Induction on values, with the hypothesis for every entry of a list
    and of a dict. *)
Section Induction.
Variable P : value -> Prop.
Hypothesis on_none : P VNone.
Hypothesis on_bool : forall b, P (VBool b).
Hypothesis on_int : forall n, P (VInt n).
Hypothesis on_str : forall s, P (VStr s).
Hypothesis on_list : forall l, Forall P l -> P (VList l).
Hypothesis on_dict : forall d, Forall (fun kv => P (snd kv)) d -> P (VDict d).
Hypothesis on_handle : forall node, P (VHandle node).

Lemma value_induction (v : value) : P v.
Proof.
  revert v. fix IH 1.
  intros [|b|n|s|l|d|node];
    [apply on_none | apply on_bool | apply on_int | apply on_str | | | apply on_handle].
  - apply on_list. revert l. fix IHl 1. intros [|x r]; constructor; [apply IH | apply IHl].
  - apply on_dict. revert d. fix IHd 1. intros [|kv r]; constructor; [apply IH | apply IHd].
Qed.

End Induction.

Section Clean.
Variable handle_str : nat -> string.

Lemma clean_is_json v : json_value (clean_for_json handle_str v) = true.
Proof.
  induction v as [| | | |l IH|d IH|] using value_induction; try reflexivity; simpl.
  - induction IH as [|x r Hx _ IHr]; simpl; [reflexivity|]. now rewrite Hx.
  - induction IH as [|[k x] r Hx _ IHr]; simpl; [reflexivity|]. simpl in Hx. now rewrite Hx.
Qed.

Lemma clean_json_value v : json_value v = true -> clean_for_json handle_str v = v.
Proof.
  induction v as [| | | |l IH|d IH|] using value_induction; try reflexivity; simpl.
  - intros H. f_equal. induction IH as [|x r Hx _ IHr]; [reflexivity|]. simpl in *.
    apply andb_true_iff in H as [H1 H2]. now rewrite Hx, IHr.
  - intros H. f_equal. induction IH as [|[k x] r Hx _ IHr]; [reflexivity|]. simpl in *.
    apply andb_true_iff in H as [H1 H2]. now rewrite Hx, IHr.
  - discriminate.
Qed.

End Clean.

End ValueFacts.

(** ** The feed payload *)

Module PayloadFacts.

Lemma sub_get_not_dict d section x key default :
  dict_get d section = Some x -> is_dict x = false ->
  sub_get (VDict d) section key default = None.
Proof. unfold sub_get. simpl. intros -> H. now destruct x. Qed.

Lemma parse_item_truthy item v : _parse_video_item item = Some v -> truthy v = true.
Proof.
  unfold _parse_video_item. intros H. repeat step H. now injection H as <-.
Qed.

(** A section that is present and is no dict ends the parse of the item. *)
Lemma parse_item_section d section x :
  section ∈ ["author"; "stats"; "video"; "music"] ->
  dict_get d section = Some x -> is_dict x = false ->
  _parse_video_item (VDict d) = None.
Proof.
  intros Hin Hx Hd.
  destruct (_parse_video_item (VDict d)) as [v|] eqn:H; [exfalso | reflexivity].
  unfold _parse_video_item in H. repeat step H.
  repeat (apply elem_of_cons in Hin as [->|Hin]);
    [ | | | | now apply elem_of_nil in Hin];
    match goal with
    | E : sub_get (VDict d) ?s _ _ = Some _, Hx : dict_get d ?s = Some _ |- _ =>
        rewrite (sub_get_not_dict d s x _ _ Hx Hd) in E; discriminate E
    end.
Qed.

Lemma scan_items_spec items : forall vs,
  scan_items items vs = (vs ++ omap item_video (map snd items))%list.
Proof.
  induction items as [|[k item] r IH]; intros vs; simpl.
  - now rewrite app_nil_r.
  - rewrite IH. unfold item_video at 2.
    destruct item as [| | | | |d|]; try reflexivity.
    destruct (dict_get d "video"); [|reflexivity].
    destruct (_parse_video_item (VDict d)) as [video|] eqn:E; [|reflexivity].
    rewrite (parse_item_truthy _ _ E). now rewrite <- app_assoc.
Qed.

Lemma scan_scope_spec d kvs : forall vs,
  (forall k v, (k, v) ∈ kvs -> dict_get d k = Some v) ->
  scan_scope (VDict d) (map (fun kv => VStr (fst kv)) kvs) vs
  = (vs ++ flat_map module_videos kvs)%list.
Proof.
  induction kvs as [|[k v] r IH]; intros vs H; simpl.
  - now rewrite app_nil_r.
  - assert (Hr : forall k v, (k, v) ∈ r -> dict_get d k = Some v)
      by (intros; apply H; now right).
    destruct (contains "itemList" k || contains "itemModule" k); [|now apply IH].
    rewrite (H k v) by now left.
    destruct v; rewrite ?IH by exact Hr; rewrite ?app_nil_r; try reflexivity.
    rewrite scan_items_spec. now rewrite <- app_assoc.
Qed.

Lemma dict_get_unique d k v :
  NoDup (map fst d) -> (k, v) ∈ d -> dict_get d k = Some v.
Proof.
  induction d as [|[k0 v0] r IH]; intros Hnd Hin; [now apply elem_of_nil in Hin|].
  simpl in *. apply NoDup_cons in Hnd as [Hk Hr].
  apply elem_of_cons in Hin as [[= -> ->]|Hin].
  - now rewrite String.eqb_refl.
  - destruct (String.eqb_spec k0 k) as [->|]; [|now apply IH].
    contradict Hk. apply list_elem_of_fmap. now exists (k, v).
Qed.

End PayloadFacts.

Module InfoFacts.

Lemma challenge_info_fields scope i :
  challenge_info scope = Some (Some i) ->
  exists id title desc views count commerce,
    i = VDict [ ("id", id); ("title", title); ("description", desc);
                ("view_count", views); ("video_count", count);
                ("is_commerce", commerce) ].
Proof.
  unfold challenge_info. intros H. repeat step H; injection H as <-. eauto 10.
Qed.

End InfoFacts.

(** ** The detail visit and the session *)

Module SectionFacts.

(** What [set_if_present] leaves under the field it may set. *)
Lemma set_if_present_field d k field build vi vi' :
  set_if_present (VDict d) k field build vi = Some vi' ->
  dict_get vi field = None ->
  (dict_get vi' field = None <-> dict_get d k = None).
Proof.
  unfold set_if_present. simpl. intros H Hno.
  destruct (dict_get d k) as [part|] eqn:E.
  - destruct (build part) as [v|]; [|discriminate]. injection H as <-.
    rewrite dict_get_set_eq. split; discriminate.
  - injection H as <-. now split.
Qed.

Ltac skip_sections :=
  repeat (erewrite set_if_present_other; [|eassumption|discriminate]).

Ltac section_field :=
  skip_sections; (eapply set_if_present_field; [eassumption|]); skip_sections; reflexivity.

End SectionFacts.

Module VisitFacts.
Import HarvestFacts.

Lemma parse_details_no_comments data video_url d :
  _parse_video_details_json data video_url = Some d -> getitem d "comments" = None.
Proof.
  unfold _parse_video_details_json. cbv zeta. intros H.
  do 12 step H.
  repeat step H. injection H as <-. simpl.
  repeat (erewrite set_if_present_other; [|eassumption|discriminate]).
  rewrite !dict_get_set_ne by discriminate. reflexivity.
Qed.

Lemma parse_details_dict data video_url d :
  _parse_video_details_json data video_url = Some d -> exists fields, d = VDict fields.
Proof. intros H. destruct (parse_details_record _ _ _ H) as (fields & -> & _). eauto. Qed.

Lemma attach_comments_found page max_comments fields d cs :
  dict_get fields "comments" = None ->
  attach_comments page max_comments fields = Some d ->
  getitem d "comments" = Some cs ->
  cs = VList (_scrape_comments_from_page (dp_comments page) max_comments)
  /\ _scrape_comments_from_page (dp_comments page) max_comments <> [].
Proof.
  unfold attach_comments. intros Hno H Hcs.
  repeat step H; injection H as <-; simpl in Hcs; try congruence.
  rewrite dict_get_set_eq in Hcs. injection Hcs as <-. split; [reflexivity | discriminate].
Qed.

Lemma slice_to_nil {A : Type} (n : Z) : slice_to n (@nil A) = [].
Proof. unfold slice_to. destruct (0 <=? n); apply take_nil. Qed.

Lemma harvest_value page max_comments :
  _scrape_comments_from_page page max_comments
  = (map (fun n => VHandle (node_id n)) (harvest_nodes page max_comments)
     ++ omap _extract_comment_data (slice_to max_comments (harvest_nodes page max_comments)))%list.
Proof.
  unfold _scrape_comments_from_page, scrape_comment_entries, harvest_nodes.
  destruct (comment_icon page) as [[[[]|]|]|]; try (now rewrite slice_to_nil).
  destruct (first_query page) as [[|n ns]|]; try (now rewrite slice_to_nil).
  cbv zeta. rewrite extract_into_records, map_app, !map_map. f_equal.
  apply map_id.
Qed.

Lemma comment_record_json c : comment_record c -> json_value c = true.
Proof. now intros (t & a & n & ts & -> & _). Qed.

Lemma records_json elements :
  Forall (fun c => json_value c = true) (omap _extract_comment_data elements).
Proof.
  apply Forall_forall. intros c Hc. apply list_elem_of_omap in Hc as (e & _ & He).
  now apply comment_record_json, (extract_comment_record e).
Qed.

End VisitFacts.

Module SessionFacts.
Import VisitFacts.

Lemma lstrip_char_head x s : startswith (String x "") (lstrip_char x s) = false.
Proof.
  induction s as [|c r IH]; [reflexivity|]. simpl.
  destruct (Ascii.eqb_spec c x) as [->|Hne]; [exact IH|].
  unfold startswith. simpl. destruct (ascii_dec x c); [congruence|reflexivity].
Qed.

Lemma lstrip_char_run x s :
  exists n, s = string_of_list_ascii (replicate n x) ++ lstrip_char x s.
Proof.
  induction s as [|c r [n IH]]; [now exists 0%nat|]. simpl.
  destruct (Ascii.eqb_spec c x) as [->|Hne]; [|now exists 0%nat].
  exists (S n). simpl. now rewrite <- IH.
Qed.

(** The scroll collector does not raise. *)
Lemma scrolling_returns fuel page max_videos ctx scrape_comments max_comments :
  _scrape_videos_by_scrolling fuel page max_videos ctx scrape_comments max_comments = None
  \/ exists vs,
       _scrape_videos_by_scrolling fuel page max_videos ctx scrape_comments max_comments
       = Some (Returns vs).
Proof.
  destruct (scroll_loop fuel page 0 max_videos scroll_start) as [st|] eqn:L.
  - right.
    destruct (scrape_result fuel page max_videos ctx scrape_comments max_comments st L)
      as (k & _ & ->). eauto.
  - left. unfold _scrape_videos_by_scrolling. now rewrite L.
Qed.

(** The record [_extract_from_json] starts from. *)
Lemma from_json_fields now page hashtag :
  exists vs,
    (_extract_from_json now page hashtag
     = [ ("hashtag", VStr hashtag); ("videos", VList vs) ] /\ vs = []
     \/ exists info,
          _extract_from_json now page hashtag
          = [ ("hashtag", VStr hashtag); ("scraped_at", VStr now);
              ("hashtag_info", info); ("videos", VList vs) ]).
Proof.
  unfold _extract_from_json, _parse_hashtag_json.
  destruct (script page) as [| | |data]; try (exists []; now left).
  destruct (parse_scope data) as [info vs]. exists vs. right. now exists info.
Qed.

Lemma hashtag_data_fields fuel now page hashtag max_videos ctx scrape_comments max_comments r :
  _extract_hashtag_data fuel now page hashtag max_videos ctx scrape_comments max_comments
  = Some r ->
  exists d vs,
    r = Returns (VDict d)
    /\ dict_get d "hashtag" = Some (VStr hashtag)
    /\ dict_get d "videos" = Some (VList vs)
    /\ dict_get d "error" = None.
Proof.
  unfold _extract_hashtag_data.
  destruct (from_json_fields now page hashtag) as (vs & [[-> ->] | (info & ->)]); simpl.
  - destruct (scrolling_returns fuel (rounds page) max_videos ctx scrape_comments max_comments)
      as [-> | (res & ->)]; [discriminate|].
    intros [= <-]. eexists _, res. now repeat split.
  - destruct vs as [|v vs].
    + destruct (scrolling_returns fuel (rounds page) max_videos ctx scrape_comments max_comments)
        as [-> | (res & ->)]; [discriminate|].
      intros [= <-]. eexists _, res. now repeat split.
    + intros [= <-]. eexists _, (v :: vs). now repeat split.
Qed.

End SessionFacts.

(* ===================================================================== *)
(** * Further properties of the code *)
(* ===================================================================== *)

Import SearchFacts CollectorFacts LoopFacts HarvestFacts ValueFacts PayloadFacts InfoFacts
  SectionFacts VisitFacts SessionFacts.

(** ** ElementExtractor and ScrollCollector *)

(** The id of a record of [_extract_video_info_from_element] is [None]
    when the href has no [/video/] followed by a digit, and otherwise a
    non-empty run of digits that follows a [/video/] of the href. *)
Theorem video_id_is_a_digit_run (element : FeedElement) (href : string) (c : value) :
  _extract_video_info_from_element element href = Some c ->
  (getitem c "id" = Some VNone /\ Fmt.search_video_id href = None)
  \/ exists d,
       getitem c "id" = Some (VStr d)
       /\ d <> "" /\ all_chars is_digit d = true
       /\ contains ("/video/" ++ d) href = true.
Proof.
  unfold _extract_video_info_from_element.
  destruct (inner_text element); [|discriminate]. intros [= <-]. simpl.
  destruct (Fmt.search_video_id href) as [d|] eqn:E; [right | now left].
  exists d. split; [reflexivity|]. now apply search_sound.
Qed.

(** On the record of an href with a query string. *)
Lemma video_id_is_a_digit_run_witness :
  exists d,
    getitem (scroll_video (VStr "12") "https://www.tiktok.com/@u/video/12?lang=en" "a") "id"
    = Some (VStr d)
    /\ all_chars is_digit d = true.
Proof.
  destruct (video_id_is_a_digit_run
              (feed_item "https://www.tiktok.com/@u/video/12?lang=en" "a")
              "https://www.tiktok.com/@u/video/12?lang=en"
              (scroll_video (VStr "12") "https://www.tiktok.com/@u/video/12?lang=en" "a")
              eq_refl) as [[H _] | (d & H & _ & Hd & _)]; [discriminate H|].
  exists d. split; [exact H | exact Hd].
Defined.

(** When the first [/video/] of an href is followed by digits, the id of
    the record is the whole run of these digits, and the url of the record
    is the href, completed with the site when it does not start with
    [http]. *)
Theorem video_id_follows_first_marker (element : FeedElement)
    (before d rest text : string) :
  inner_text element = Returns text ->
  contains "/video/" (before ++ "/video") = false ->
  d <> "" ->
  all_chars is_digit d = true ->
  fst (span_digits rest) = "" ->
  _extract_video_info_from_element element (before ++ "/video/" ++ d ++ rest)
  = Some (scroll_video (VStr d)
            (if startswith "http" (before ++ "/video/" ++ d ++ rest)
             then before ++ "/video/" ++ d ++ rest
             else "https://www.tiktok.com" ++ before ++ "/video/" ++ d ++ rest)
            text).
Proof.
  intros Ht Hb Hne Hd Hr. unfold _extract_video_info_from_element.
  now rewrite Ht, (search_first before d rest Hb Hne Hd Hr).
Qed.

(** On a relative href with a query string. *)
Lemma video_id_follows_first_marker_witness :
  _extract_video_info_from_element (feed_item "/@u/video/12?lang=en" "a")
    ("/@u" ++ "/video/" ++ "12" ++ "?lang=en")
  = Some (scroll_video (VStr "12") "https://www.tiktok.com/@u/video/12?lang=en" "a").
Proof.
  apply (video_id_follows_first_marker (feed_item "/@u/video/12?lang=en" "a")
           "/@u" "12" "?lang=en" "a");
    [reflexivity | reflexivity | discriminate | reflexivity | reflexivity].
Defined.

(** Without a context, every record that [_scrape_videos_by_scrolling]
    returns is a basic record: id, url, visible text, the mark of the
    scroll and four counts that are 0; its url starts with [http], and
    its id is [None] or a non-empty run of digits. *)
Theorem scroll_records_are_basic (fuel : nat) (page : nat -> Round) (max_videos : Z)
    (scrape_comments : bool) (max_comments : Z) (res : list value) :
  _scrape_videos_by_scrolling fuel page max_videos None scrape_comments max_comments
  = Some (Returns res) ->
  Forall basic_record res.
Proof.
  intros H.
  destruct (scroll_loop fuel page 0 max_videos scroll_start) as [st|] eqn:L.
  2:{ unfold _scrape_videos_by_scrolling in H. rewrite L in H. discriminate. }
  destruct (scrape_result fuel page max_videos None scrape_comments max_comments st L)
    as (k & -> & E).
  rewrite E in H. injection H as <-.
  apply state_all. exact extract_basic.
Qed.

(** On a feed that shows one item. *)
Lemma scroll_records_are_basic_witness :
  Forall basic_record
    [scroll_video (VStr "12") "https://www.tiktok.com/@u/video/12" "a"].
Proof.
  apply (scroll_records_are_basic 20
           (still_feed [feed_item "https://www.tiktok.com/@u/video/12" "a"]) 3 false 20).
  vm_compute. reflexivity.
Defined.

(** An href that does not start with [http] is compared as it is with
    the completed urls of the collection, so it is never found there: a
    feed that shows one such item, and whose height does not change,
    gives the record of that item once per round, [min 20 max_videos]
    times in all. *)
Theorem relative_href_is_collected_every_round (element : FeedElement)
    (href text : string) (height max_videos : Z) (fuel : nat)
    (scrape_comments : bool) (max_comments : Z) :
  element_href element = Some href ->
  startswith "http" href = false ->
  inner_text element = Returns text ->
  (20 <= fuel)%nat ->
  _scrape_videos_by_scrolling fuel (single_item_feed element height) max_videos None
    scrape_comments max_comments
  = Some (Returns
      (replicate (Z.to_nat (Z.min 20 max_videos))
         (scroll_video match Fmt.search_video_id href with
                       | Some d => VStr d
                       | None => VNone
                       end ("https://www.tiktok.com" ++ href) text))).
Proof.
  intros Hh Hrel Ht Hf. now apply single_result.
Qed.

(** On a target of three videos: three copies of the one record. *)
Lemma relative_href_is_collected_every_round_witness :
  _scrape_videos_by_scrolling 20 (single_item_feed (feed_item "/@u/video/12" "a") 1000) 3
    None false 20
  = Some (Returns
      [ scroll_video (VStr "12") "https://www.tiktok.com/@u/video/12" "a";
        scroll_video (VStr "12") "https://www.tiktok.com/@u/video/12" "a";
        scroll_video (VStr "12") "https://www.tiktok.com/@u/video/12" "a" ]).
Proof.
  apply (relative_href_is_collected_every_round (feed_item "/@u/video/12" "a")
           "/@u/video/12" "a" 1000 3 20 false 20);
    [reflexivity | reflexivity | reflexivity | lia].
Defined.

(** The scroll loop has no bound of its own on the number of rounds: on
    a feed whose height changes at every scroll and whose elements give
    no record, the counter of idle rounds is reset every time and the
    loop does not end, however many rounds it is given. *)
Theorem changing_height_never_ends (page : nat -> Round) (max_videos : Z)
    (ctx : option Context) (scrape_comments : bool) (max_comments : Z) (fuel : nat) :
  0 < max_videos ->
  (forall n, omap candidate (video_elements (page n)) = []) ->
  (forall n, new_height (page n) <> current_height (page n)) ->
  _scrape_videos_by_scrolling fuel page max_videos ctx scrape_comments max_comments = None.
Proof.
  intros Hmax Hnone Hgrow. unfold _scrape_videos_by_scrolling.
  change scroll_start with (scroll_state page max_videos 0).
  rewrite loop_never_ends; [reflexivity|].
  intros k. unfold keep_scrolling. rewrite (attempts_reset page max_videos k Hgrow).
  pose proof (state_in_order page max_videos k) as Hs.
  rewrite (nothing_discovered page k Hnone) in Hs. apply sublist_nil_r in Hs. rewrite Hs.
  apply andb_true_iff. split; apply Z.ltb_lt; [exact Hmax | reflexivity].
Qed.

(** On an empty feed that grows at every scroll, with a thousand rounds. *)
Lemma changing_height_never_ends_witness :
  _scrape_videos_by_scrolling 1000
    (fun n => {| video_elements := []; current_height := Z.of_nat n;
                 new_height := Z.of_nat n + 1 |})
    30 None false 20 = None.
Proof.
  apply changing_height_never_ends; [lia | reflexivity | intros n; simpl; lia].
Defined.

(** With a target of no video or less, [_scrape_videos_by_scrolling]
    looks at no round and returns the empty list, with or without a
    context. *)
Theorem nothing_asked_nothing_collected (fuel : nat) (page : nat -> Round)
    (max_videos : Z) (ctx : option Context) (scrape_comments : bool) (max_comments : Z) :
  max_videos <= 0 ->
  _scrape_videos_by_scrolling fuel page max_videos ctx scrape_comments max_comments
  = Some (Returns []).
Proof.
  intros H. unfold _scrape_videos_by_scrolling.
  rewrite nothing_asked by exact H. simpl.
  destruct ctx; simpl; now rewrite slice_to_nil.
Qed.

(** On a target of 0, with a context. *)
Lemma nothing_asked_nothing_collected_witness :
  _scrape_videos_by_scrolling 0
    (still_feed [feed_item "https://www.tiktok.com/@u/video/12" "a"]) 0
    (Some (context_with (Json detail_payload))) true 20
  = Some (Returns []).
Proof. apply nothing_asked_nothing_collected. lia. Defined.

(** Elements that give no record (no link, no href, an empty href, or a
    call that raises) are passed over: [_scrape_videos_by_scrolling]
    returns on a feed what it returns on the same feed without them. *)
Theorem failing_elements_are_passed_over (fuel : nat) (page : nat -> Round)
    (max_videos : Z) (ctx : option Context) (scrape_comments : bool) (max_comments : Z) :
  _scrape_videos_by_scrolling fuel page max_videos ctx scrape_comments max_comments
  = _scrape_videos_by_scrolling fuel (fun n => working_round (page n)) max_videos ctx
      scrape_comments max_comments.
Proof.
  unfold _scrape_videos_by_scrolling. now rewrite scroll_loop_working.
Qed.

(** Detail enrichment neither adds nor removes a record and changes no
    url: with a context, [_scrape_videos_by_scrolling] returns one record
    for each record it returns without one, in the same order and with
    the same url. *)
Theorem enrichment_keeps_urls (fuel : nat) (page : nat -> Round) (max_videos : Z)
    (ctx : Context) (scrape_comments : bool) (max_comments : Z) (res : list value) :
  _scrape_videos_by_scrolling fuel page max_videos (Some ctx) scrape_comments max_comments
  = Some (Returns res) ->
  exists basic,
    _scrape_videos_by_scrolling fuel page max_videos None scrape_comments max_comments
    = Some (Returns basic)
    /\ length res = length basic
    /\ map url_field res = map url_field basic.
Proof.
  intros H.
  destruct (scroll_loop fuel page 0 max_videos scroll_start) as [st|] eqn:L.
  2:{ unfold _scrape_videos_by_scrolling in H. rewrite L in H. discriminate. }
  destruct (scrape_result fuel page max_videos (Some ctx) scrape_comments max_comments st L)
    as (k & -> & E).
  destruct (scrape_result fuel page max_videos None scrape_comments max_comments _ L)
    as (_ & _ & E').
  rewrite E in H. injection H as <-.
  eexists. split; [exact E'|]. split; [apply length_imap|].
  exact (enriched_urls ctx scrape_comments max_comments 1 _).
Qed.

(** On a feed with one item and a context whose pages carry a payload. *)
Lemma enrichment_keeps_urls_witness :
  map url_field [detail_video "https://www.tiktok.com/@u/video/12"]
  = map url_field [scroll_video (VStr "12") "https://www.tiktok.com/@u/video/12" "a"].
Proof.
  destruct (enrichment_keeps_urls 20
              (still_feed [feed_item "https://www.tiktok.com/@u/video/12" "a"]) 1
              (context_with (Json detail_payload)) false 20
              [detail_video "https://www.tiktok.com/@u/video/12"] eq_refl)
    as (basic & Hb & _ & Hu).
  injection Hb as <-. exact Hu.
Defined.

(** ** CommentHarvester *)

(** A selector chain of [_extract_comment_data] yields the text of the
    first selector whose node exists and gives its text, passed through
    the reader of the field; selectors without a node, or whose node
    raises, are passed over, and the default stands when none answers. *)
Theorem selector_chain_takes_first_answer (A : Type) (element : CommentNode)
    (selectors : list string) (f : string -> A) (default : A) :
  first_match element selectors f default
  = match omap (answers element) selectors with
    | text :: _ => f text
    | [] => default
    end.
Proof. apply first_match_answers. Qed.

(** [_extract_comment_data] gives no record exactly when no text
    selector gives a non-empty text and the text of the whole node is
    empty or cannot be read: a node without a matching text selector is
    kept, with its whole text as the comment. *)
Theorem comment_is_dropped_only_without_text (element : CommentNode) :
  _extract_comment_data element = None
  <-> first_match element text_selectors (fun t => t) "" = ""
      /\ forall text, node_inner_text element = Returns text -> text = "".
Proof.
  unfold _extract_comment_data.
  destruct (first_match element text_selectors (fun t => t) "") as [|a t] eqn:E.
  - simpl. destruct (node_inner_text element) as [text|e].
    + destruct text as [|b text]; simpl.
      * split; [intros _; split; [reflexivity|now intros ? [= <-]] | reflexivity].
      * split; [discriminate|]. intros [_ H]. now specialize (H _ eq_refl).
    + split; [intros _; split; [reflexivity | discriminate] | reflexivity].
  - simpl. split; [discriminate | intros [H _]; discriminate H].
Qed.

(** A record of [_extract_comment_data] has the four fields text,
    author, likes and timestamp, in this order; the three texts have no
    blank at either end, and the like count is an integer. *)
Theorem comment_fields_are_stripped (element : CommentNode) (c : value) :
  _extract_comment_data element = Some c ->
  exists text author likes timestamp,
    c = VDict [ ("text", VStr text); ("author", VStr author);
                ("likes", VInt likes); ("timestamp", VStr timestamp) ]
    /\ strip text = text /\ strip author = author /\ strip timestamp = timestamp.
Proof. apply extract_comment_record. Qed.

(** On a comment whose text has blanks around it. *)
Lemma comment_fields_are_stripped_witness :
  exists text author likes timestamp,
    VDict [ ("text", VStr "Nice"); ("author", VStr "Unknown");
            ("likes", VInt 3); ("timestamp", VStr "") ]
    = VDict [ ("text", VStr text); ("author", VStr author);
              ("likes", VInt likes); ("timestamp", VStr timestamp) ]
    /\ strip text = text /\ strip author = author /\ strip timestamp = timestamp.
Proof.
  apply (comment_fields_are_stripped (comment_node 0 " Nice " "3")).
  vm_compute. reflexivity.
Defined.

(** What [_scrape_comments_from_page] returns: the handles of the comment
    nodes it ended up with, followed by the records of those among the
    first [max_comments] nodes that give one.  The nodes are those of the
    first query, or of one of at most five later queries that followed a
    scroll and gave more nodes; no scroll is made once the target is
    reached; and with a target that is not negative there are at most
    [max_comments] records. *)
Theorem harvest_is_handles_then_records (page : CommentPage) (max_comments : Z) :
  _scrape_comments_from_page page max_comments
  = (map (fun n => VHandle (node_id n)) (harvest_nodes page max_comments)
     ++ omap _extract_comment_data
          (slice_to max_comments (harvest_nodes page max_comments)))%list
  /\ (harvest_nodes page max_comments = []
      \/ exists first,
           comment_icon page = Returns (Some (Returns tt))
           /\ first_query page = Returns first
           /\ (length first <= length (harvest_nodes page max_comments))%nat
           /\ (harvest_nodes page max_comments = first
               \/ exists i, (i < 5)%nat
                    /\ requery (scroll_answer page i)
                       = Returns (harvest_nodes page max_comments))
           /\ (max_comments <= len first -> harvest_nodes page max_comments = first))
  /\ (0 <= max_comments ->
      len (omap _extract_comment_data
             (slice_to max_comments (harvest_nodes page max_comments))) <= max_comments).
Proof.
  split; [apply harvest_value|]. split.
  - unfold harvest_nodes.
    destruct (comment_icon page) as [[[[]|]|]|]; auto.
    destruct (first_query page) as [[|n ns]|]; auto.
    right. exists (n :: ns). repeat split.
    + apply comment_scroll_grows.
    + destruct (comment_scroll_source page max_comments max_scroll 0 (n :: ns))
        as [H | (i & Hi & _ & H)]; [now left|].
      right. exists i. split; [unfold max_scroll in Hi; lia | exact H].
    + apply comment_scroll_enough.
  - intros H. pose proof (slice_to_length max_comments (harvest_nodes page max_comments) H).
    pose proof (omap_length _extract_comment_data
                  (slice_to max_comments (harvest_nodes page max_comments))).
    unfold len in *. lia.
Qed.

(** ** DetailEnricher *)

(** A detail record exists only for a payload that leads, through
    [__DEFAULT_SCOPE__], [webapp.video-detail], [itemInfo] and
    [itemStruct], to an item that is an object.  The record takes the id
    of the item, or [None]; and it has an author, stats, video, music or
    hashtags field exactly when the item has the section it is made from:
    a missing section is left out of the record, not filled in. *)
Theorem detail_record_follows_the_item (data : value) (video_url : string) (d : value) :
  _parse_video_details_json data video_url = Some d ->
  exists scope detail item_info item,
    getitem data "__DEFAULT_SCOPE__" = Some scope
    /\ getitem scope "webapp.video-detail" = Some detail
    /\ getitem detail "itemInfo" = Some item_info
    /\ getitem item_info "itemStruct" = Some (VDict item)
    /\ getitem d "id" = Some (dict_get_default item "id" VNone)
    /\ (getitem d "author" = None <-> dict_get item "author" = None)
    /\ (getitem d "stats" = None <-> dict_get item "stats" = None)
    /\ (getitem d "video" = None <-> dict_get item "video" = None)
    /\ (getitem d "music" = None <-> dict_get item "music" = None)
    /\ (getitem d "hashtags" = None <-> dict_get item "challenges" = None).
Proof.
  unfold _parse_video_details_json. cbv zeta. intros H.
  do 12 step H.
  match type of H with
  | context [get ?x "id" VNone] => destruct x as [| | | | |item|]; try discriminate H
  end.
  simpl in H. repeat step H. injection H as <-.
  eexists _, _, _, item. split; [reflexivity|]. do 3 (split; [eassumption|]). simpl.
  split; [skip_sections; reflexivity|].
  do 4 (split; [section_field|]). section_field.
Qed.

(** On the sample detail payload, whose item has an id and no stats. *)
Lemma detail_record_follows_the_item_witness :
  getitem (detail_video "u") "id" = Some (VStr "12")
  /\ getitem (detail_video "u") "stats" = None.
Proof.
  destruct (detail_record_follows_the_item detail_payload "u" (detail_video "u") eq_refl)
    as (scope & detail & item_info & item & H1 & H2 & H3 & H4 & Hid & _ & Hstats & _).
  injection H1 as <-. injection H2 as <-. injection H3 as <-. injection H4 as <-.
  split; [exact Hid | apply Hstats; reflexivity].
Defined.

(** A record of [scrape_video_details] has comments only when they were
    asked for, and then they are the list the comment harvest returned,
    which is not empty: without [scrape_comments], and with an empty
    harvest, the record has no such field. *)
Theorem comments_are_attached_only_when_found (page : DetailPage) (video_url : string)
    (scrape_comments : bool) (max_comments : Z) (d cs : value) :
  scrape_video_details (Returns page) video_url scrape_comments max_comments = Some d ->
  getitem d "comments" = Some cs ->
  scrape_comments = true
  /\ cs = VList (_scrape_comments_from_page (dp_comments page) max_comments)
  /\ _scrape_comments_from_page (dp_comments page) max_comments <> [].
Proof.
  unfold scrape_video_details, visit_detail_page.
  destruct (dp_close page); [|discriminate].
  destruct (dp_goto page); [|discriminate].
  destruct (dp_script page) as [| | |data]; try discriminate.
  destruct (_parse_video_details_json data video_url) as [v|] eqn:E; [|discriminate].
  pose proof (parse_details_no_comments _ _ _ E) as Hno.
  destruct (parse_details_dict _ _ _ E) as [fields ->].
  destruct scrape_comments; simpl.
  - destruct fields as [|kv fields]; [intros [= <-] H; simpl in *; congruence|].
    intros Hd Hcs. split; [reflexivity|].
    now apply (attach_comments_found page max_comments (kv :: fields) d cs).
  - intros [= <-] H. simpl in *. congruence.
Qed.

(** On a detail page with one comment. *)
Lemma comments_are_attached_only_when_found_witness :
  VList [ VHandle 0;
          VDict [ ("text", VStr "Nice"); ("author", VStr "Unknown");
                  ("likes", VInt 3); ("timestamp", VStr "") ] ]
  = VList (_scrape_comments_from_page (comment_page [comment_node 0 "Nice" "3"]) 1).
Proof.
  exact (proj1 (proj2 (comments_are_attached_only_when_found
    {| dp_goto := Returns tt;
       dp_script := Json (VDict [ ("__DEFAULT_SCOPE__",
         VDict [ ("webapp.video-detail",
           VDict [ ("itemInfo",
             VDict [ ("itemStruct",
               VDict [ ("id", VStr "12");
                       ("stats", VDict [ ("commentCount", VInt 1) ]) ]) ]) ]) ]) ]);
       dp_comments := comment_page [comment_node 0 "Nice" "3"];
       dp_close := Returns tt |}
    "u" true 1
    (VDict [ ("url", VStr "u"); ("scraped_via", VStr "video_page"); ("id", VStr "12");
             ("description", VStr ""); ("created_at", VNone);
             ("stats", VDict [ ("views", VInt 0); ("likes", VInt 0);
                               ("comments", VInt 1); ("shares", VInt 0);
                               ("saves", VInt 0) ]);
             ("comments", VList [ VHandle 0;
                VDict [ ("text", VStr "Nice"); ("author", VStr "Unknown");
                        ("likes", VInt 3); ("timestamp", VStr "") ] ]) ])
    (VList [ VHandle 0;
             VDict [ ("text", VStr "Nice"); ("author", VStr "Unknown");
                     ("likes", VInt 3); ("timestamp", VStr "") ] ])
    eq_refl eq_refl))).
Defined.

(** When comments are asked for, the comment count of the detail record
    is compared with 0; a count that is no number (a text, or a JSON
    null) makes this comparison raise, and the visit yields nothing,
    although the same page gives its record when comments are not asked
    for. *)
Theorem count_that_is_no_number_loses_the_record (page : DetailPage)
    (video_url : string) (max_comments : Z) (data d stats count : value) :
  dp_goto page = Returns tt ->
  dp_script page = Json data ->
  _parse_video_details_json data video_url = Some d ->
  getitem d "stats" = Some stats ->
  getitem stats "comments" = Some count ->
  gt_zero count = None ->
  visit_detail_page page video_url true max_comments = None
  /\ visit_detail_page page video_url false max_comments = Some d.
Proof.
  intros Hg Hs Hd Hst Hc Hz. unfold visit_detail_page. rewrite Hg, Hs, Hd.
  destruct (parse_details_dict _ _ _ Hd) as [fields ->]. simpl in Hst.
  split; [|reflexivity].
  assert (T : truthy (VDict fields) = true) by (destruct fields; [discriminate | reflexivity]).
  rewrite T. unfold attach_comments. simpl. rewrite Hst.
  destruct stats; try discriminate. simpl in Hc. simpl. now rewrite Hc, Hz.
Qed.

(** On a detail payload whose comment count is a text. *)
Lemma count_that_is_no_number_loses_the_record_witness :
  visit_detail_page
    (detail_page (Json (VDict [ ("__DEFAULT_SCOPE__",
       VDict [ ("webapp.video-detail",
         VDict [ ("itemInfo",
           VDict [ ("itemStruct",
             VDict [ ("id", VStr "12");
                     ("stats", VDict [ ("commentCount", VStr "7") ]) ]) ]) ]) ]) ])))
    "u" true 20 = None.
Proof.
  exact (proj1 (count_that_is_no_number_loses_the_record
    (detail_page (Json (VDict [ ("__DEFAULT_SCOPE__",
       VDict [ ("webapp.video-detail",
         VDict [ ("itemInfo",
           VDict [ ("itemStruct",
             VDict [ ("id", VStr "12");
                     ("stats", VDict [ ("commentCount", VStr "7") ]) ]) ]) ]) ]) ])))
    "u" 20 _ _ _ (VStr "7") eq_refl eq_refl eq_refl eq_refl eq_refl eq_refl)).
Defined.

(** ** StructuredExtractor *)

(** [_parse_video_item] returns a record for an item without author,
    stats, video, music and challenges: whatever else the item holds, the
    four counts are 0, the other fields of the missing sections are
    [None], there is no hashtag, and the url is built with [None] in the
    place of the user name. *)
Theorem sparse_item_gets_defaults (d : Py.dict) :
  dict_get d "author" = None ->
  dict_get d "stats" = None ->
  dict_get d "video" = None ->
  dict_get d "music" = None ->
  dict_get d "challenges" = None ->
  _parse_video_item (VDict d)
  = Some (VDict
      [ ("id", dict_get_default d "id" VNone);
        ("description", dict_get_default d "desc" (VStr ""));
        ("created_at", dict_get_default d "createTime" VNone);
        ("author", VDict [ ("id", VNone); ("username", VNone); ("nickname", VNone);
                           ("verified", VBool false); ("avatar", VNone) ]);
        ("stats", VDict [ ("views", VInt 0); ("likes", VInt 0);
                          ("comments", VInt 0); ("shares", VInt 0) ]);
        ("video", VDict [ ("duration", VNone); ("ratio", VNone); ("cover", VNone);
                          ("download_url", VNone); ("play_url", VNone) ]);
        ("music", VDict [ ("id", VNone); ("title", VNone); ("author", VNone) ]);
        ("hashtags", VList []);
        ("url", VStr ("https://www.tiktok.com/@None/video/"
                        ++ Fmt.str (dict_get_default d "id" VNone))) ]).
Proof.
  intros Ha Hs Hv Hm Hc. unfold _parse_video_item, sub_get, get.
  rewrite Ha, Hs, Hv, Hm, Hc. reflexivity.
Qed.

(** On an item with an id and a description only. *)
Lemma sparse_item_gets_defaults_witness :
  getitem
    match _parse_video_item (VDict [ ("id", VStr "7"); ("desc", VStr "clip") ]) with
    | Some v => v
    | None => VNone
    end "url"
  = Some (VStr "https://www.tiktok.com/@None/video/7").
Proof.
  rewrite (sparse_item_gets_defaults [ ("id", VStr "7"); ("desc", VStr "clip") ]
             eq_refl eq_refl eq_refl eq_refl eq_refl).
  reflexivity.
Defined.

(** An item whose author, stats, video or music is present and is no
    object (a JSON null, say) gives no record: the lookup inside the
    section raises, and [_parse_video_item] returns [None]. *)
Theorem item_with_bad_section_is_dropped (d : Py.dict) (section : string) (x : value) :
  section ∈ ["author"; "stats"; "video"; "music"] ->
  dict_get d section = Some x ->
  is_dict x = false ->
  _parse_video_item (VDict d) = None
  /\ item_video (VDict d) = None.
Proof.
  intros Hin Hx Hd.
  pose proof (parse_item_section d section x Hin Hx Hd) as H.
  split; [exact H|]. unfold item_video. rewrite H. now destruct (dict_get d "video").
Qed.

(** On an item whose music is a JSON null. *)
Lemma item_with_bad_section_is_dropped_witness :
  _parse_video_item (VDict [ ("id", VStr "7"); ("video", VDict []); ("music", VNone) ])
  = None.
Proof.
  refine (proj1 (item_with_bad_section_is_dropped
            [ ("id", VStr "7"); ("video", VDict []); ("music", VNone) ] "music" VNone
            _ eq_refl eq_refl)).
  repeat constructor.
Defined.

(** The videos [_parse_hashtag_json] finds in a payload whose scope is an
    object and whose challenge block does not raise: for every key of the
    scope whose name holds [itemList] or [itemModule] and whose value is
    an object, in the order of the scope, the records of its entries that
    are objects with a [video] key and that [_parse_video_item] accepts, in
    the order of the entries.  An entry that fails is left out and nothing
    else changes; nothing is compared with what was found before. *)
Theorem payload_videos_in_order (now hashtag : string) (top scope : Py.dict)
    (info : option value) :
  dict_get top "__DEFAULT_SCOPE__" = Some (VDict scope) ->
  NoDup (map fst scope) ->
  challenge_info (VDict scope) = Some info ->
  _parse_hashtag_json now (VDict top) hashtag
  = VDict [ ("hashtag", VStr hashtag); ("scraped_at", VStr now);
            ("hashtag_info", match info with Some i => i | None => VDict [] end);
            ("videos", VList (flat_map module_videos scope)) ].
Proof.
  intros Ht Hnd Hi. unfold _parse_hashtag_json, parse_scope. simpl.
  rewrite Ht, Hi. simpl.
  rewrite (scan_scope_spec scope scope []); [reflexivity|].
  intros k v. now apply dict_get_unique.
Qed.

(** On the payload that lists one item in two modules. *)
Lemma payload_videos_in_order_witness :
  _parse_hashtag_json "now" feed_payload "tag"
  = VDict [ ("hashtag", VStr "tag"); ("scraped_at", VStr "now");
            ("hashtag_info", VDict []);
            ("videos", VList [payload_video; payload_video]) ].
Proof.
  refine (payload_videos_in_order "now" "tag"
            [ ("__DEFAULT_SCOPE__",
               VDict [ ("webapp.itemList", VDict [ ("7", payload_item) ]);
                       ("itemModule", VDict [ ("7", payload_item) ]) ]) ]
            [ ("webapp.itemList", VDict [ ("7", payload_item) ]);
              ("itemModule", VDict [ ("7", payload_item) ]) ]
            None eq_refl _ eq_refl).
  apply NoDup_cons. split; [|apply NoDup_singleton].
  intros H. apply list_elem_of_singleton in H. discriminate H.
Defined.

(** A challenge block that raises (a key that is missing, a part that is
    no object) ends the whole parse: [_parse_hashtag_json] returns the
    record without hashtag info and without any video, whatever the item
    modules of the payload hold. *)
Theorem broken_challenge_block_loses_videos (now hashtag : string) (data scope : value) :
  getitem data "__DEFAULT_SCOPE__" = Some scope ->
  challenge_info scope = None ->
  _parse_hashtag_json now data hashtag
  = VDict [ ("hashtag", VStr hashtag); ("scraped_at", VStr now);
            ("hashtag_info", VDict []); ("videos", VList []) ].
Proof.
  intros Hs Hc. unfold _parse_hashtag_json, parse_scope.
  destruct data; try discriminate. simpl in *. now rewrite Hs, Hc.
Qed.

(** On a payload whose challenge info has no challenge, next to a module with one item. *)
Lemma broken_challenge_block_loses_videos_witness :
  _parse_hashtag_json "now"
    (VDict [ ("__DEFAULT_SCOPE__",
              VDict [ ("webapp.challenge-detail", VDict [ ("challengeInfo", VDict []) ]);
                      ("webapp.itemList", VDict [ ("7", payload_item) ]) ]) ])
    "tag"
  = VDict [ ("hashtag", VStr "tag"); ("scraped_at", VStr "now");
            ("hashtag_info", VDict []); ("videos", VList []) ].
Proof.
  exact (broken_challenge_block_loses_videos "now" "tag"
           (VDict [ ("__DEFAULT_SCOPE__",
              VDict [ ("webapp.challenge-detail", VDict [ ("challengeInfo", VDict []) ]);
                      ("webapp.itemList", VDict [ ("7", payload_item) ]) ]) ])
           (VDict [ ("webapp.challenge-detail", VDict [ ("challengeInfo", VDict []) ]);
                    ("webapp.itemList", VDict [ ("7", payload_item) ]) ])
           eq_refl eq_refl).
Defined.

(** A payload that is no object (a list, a text, a number, a null) gives
    the hashtag record without info and without videos, and gives no
    detail record. *)
Theorem payload_that_is_no_object (now hashtag video_url : string) (data : value) :
  is_dict data = false ->
  _parse_hashtag_json now data hashtag
  = VDict [ ("hashtag", VStr hashtag); ("scraped_at", VStr now);
            ("hashtag_info", VDict []); ("videos", VList []) ]
  /\ _parse_video_details_json data video_url = None.
Proof.
  intros H. unfold _parse_hashtag_json, parse_scope, _parse_video_details_json.
  destruct data; try discriminate; simpl; try (split; reflexivity).
  - destruct (contains "__DEFAULT_SCOPE__" s); split; reflexivity.
  - destruct (existsb _ l); split; reflexivity.
Qed.

(** On a payload that is the text of the scope key. *)
Lemma payload_that_is_no_object_witness :
  _parse_hashtag_json "now" (VStr "__DEFAULT_SCOPE__") "tag"
  = VDict [ ("hashtag", VStr "tag"); ("scraped_at", VStr "now");
            ("hashtag_info", VDict []); ("videos", VList []) ].
Proof.
  exact (proj1 (payload_that_is_no_object "now" "tag" "u" (VStr "__DEFAULT_SCOPE__") eq_refl)).
Defined.

(** The hashtag info of [_parse_hashtag_json] is either empty or has the
    six fields id, title, description, view_count, video_count and
    is_commerce, in this order: no partial info is returned. *)
Theorem hashtag_info_is_empty_or_complete (now : string) (data : value) (hashtag : string) :
  exists info,
    getitem (_parse_hashtag_json now data hashtag) "hashtag_info" = Some info
    /\ (info = VDict []
        \/ exists id title desc views count commerce,
             info = VDict [ ("id", id); ("title", title); ("description", desc);
                            ("view_count", views); ("video_count", count);
                            ("is_commerce", commerce) ]).
Proof.
  unfold _parse_hashtag_json, parse_scope.
  destruct (contains_key "__DEFAULT_SCOPE__" data) as [[|]|];
    try (exists (VDict []); split; [reflexivity | now left]).
  destruct (getitem data "__DEFAULT_SCOPE__") as [scope|];
    try (exists (VDict []); split; [reflexivity | now left]).
  destruct (challenge_info scope) as [[i|]|] eqn:E.
  - exists i. split; [now destruct (iter scope)|].
    right. now apply (challenge_info_fields scope).
  - exists (VDict []). split; [now destruct (iter scope) | now left].
  - exists (VDict []). split; [reflexivity | now left].
Qed.

(** ** FeedSession *)

(** Every result of [scrape_hashtag] has the hashtag and a list of
    videos.  The hashtag is the one that was given without its leading
    [#] characters, all of them. *)
Theorem session_result_has_hashtag_and_videos (fuel : nat) (now : string)
    (page : FeedPage) (hashtag : string) (max_videos : Z)
    (detailed_scrape scrape_comments : bool) (max_comments : Z) (r : value) :
  scrape_hashtag fuel now page hashtag max_videos detailed_scrape scrape_comments
    max_comments = Some r ->
  exists tag vs n,
    getitem r "hashtag" = Some (VStr tag)
    /\ getitem r "videos" = Some (VList vs)
    /\ hashtag = string_of_list_ascii (replicate n "#"%char) ++ tag
    /\ startswith "#" tag = false.
Proof.
  intros H. destruct (lstrip_char_run "#" hashtag) as [n Hn].
  pose proof (lstrip_char_head "#" hashtag) as Hh.
  unfold scrape_hashtag in H.
  destruct (goto page).
  2:{ injection H as <-. exists (lstrip_char "#" hashtag), [], n. now repeat split. }
  destruct (click_locator (refresh_button page)).
  2:{ injection H as <-. exists (lstrip_char "#" hashtag), [], n. now repeat split. }
  destruct (_extract_hashtag_data _ _ _ _ _ _ _ _) as [o|] eqn:E; [|discriminate].
  apply hashtag_data_fields in E as (d & vs & -> & Ht & Hv & _).
  injection H as <-. exists (lstrip_char "#" hashtag), vs, n. now repeat split.
Qed.

(** On a page that cannot be reached, for a hashtag given with two leading marks. *)
Lemma session_result_has_hashtag_and_videos_witness :
  exists tag vs n,
    getitem (VDict [ ("hashtag", VStr "tag"); ("videos", VList []);
                     ("error", VStr "timeout") ]) "hashtag" = Some (VStr tag)
    /\ getitem (VDict [ ("hashtag", VStr "tag"); ("videos", VList []);
                        ("error", VStr "timeout") ]) "videos" = Some (VList vs)
    /\ "##tag" = string_of_list_ascii (replicate n "#"%char) ++ tag
    /\ startswith "#" tag = false.
Proof.
  apply (session_result_has_hashtag_and_videos 0 "now"
           (unreachable_page PlaywrightTimeout) "##tag" 30 true true 20).
  reflexivity.
Defined.



(** [scrape_hashtag] returns on every page whose feed stops growing: when
    from some round [n0] on no scroll changes the height, a result comes
    after at most [n0 + 20] rounds, whatever the page holds otherwise and
    whatever the options are. *)
Theorem session_returns_on_a_feed_that_stops (fuel : nat) (now : string)
    (page : FeedPage) (hashtag : string) (max_videos : Z)
    (detailed_scrape scrape_comments : bool) (max_comments : Z) (n0 : nat) :
  stagnant_from (rounds page) n0 ->
  (n0 + 20 <= fuel)%nat ->
  exists r,
    scrape_hashtag fuel now page hashtag max_videos detailed_scrape scrape_comments
      max_comments = Some r.
Proof.
  intros Hs Hf.
  destruct (first_stop (rounds page) max_videos _
              (stagnant_stops (rounds page) max_videos n0 Hs)) as (k & Hk & Hstop & Hgo).
  assert (L : scroll_loop fuel (rounds page) 0 max_videos scroll_start
              = Some (scroll_state (rounds page) max_videos k)).
  { apply (scroll_loop_runs (rounds page) max_videos k 0 fuel); [lia | exact Hgo | exact Hstop]. }
  unfold scrape_hashtag.
  destruct (goto page); [|eauto].
  destruct (click_locator (refresh_button page)); [|eauto].
  unfold _extract_hashtag_data.
  destruct (truthy _); [eauto|].
  destruct (scrape_result fuel (rounds page) max_videos
              (if detailed_scrape then Some (context page) else None)
              scrape_comments max_comments _ L) as (j & _ & ->).
  eauto.
Qed.

(** On a feed that never grows. *)
Lemma session_returns_on_a_feed_that_stops_witness :
  exists r,
    scrape_hashtag 20 "now"
      (feed_page (Some (Returns tt)) NoScript
         [feed_item "https://www.tiktok.com/@u/video/12" "a"] (Json detail_payload))
      "tag" 30 true true 20 = Some r.
Proof.
  apply (session_returns_on_a_feed_that_stops 20 "now" _ "tag" 30 true true 20 0);
    [intros n _; reflexivity | lia].
Defined.

(** ** Output *)

(** [clean_for_json] leaves no object that [json.dump] refuses: its
    result holds no element handle, it changes nothing in data without
    handles, and cleaning twice is cleaning once.  Applied to the list of
    a comment harvest it turns the handles at its front into their texts
    and keeps the records. *)
Theorem saved_data_is_json (handle_str : nat -> string) :
  (forall v, json_value (clean_for_json handle_str v) = true)
  /\ (forall v, json_value v = true -> clean_for_json handle_str v = v)
  /\ (forall v, clean_for_json handle_str (clean_for_json handle_str v)
                = clean_for_json handle_str v)
  /\ (forall page max_comments,
        clean_for_json handle_str (VList (_scrape_comments_from_page page max_comments))
        = VList (map (fun n => VStr (handle_str (node_id n)))
                   (harvest_nodes page max_comments)
                 ++ omap _extract_comment_data
                      (slice_to max_comments (harvest_nodes page max_comments)))).
Proof.
  split; [apply clean_is_json|]. split; [apply clean_json_value|].
  split; [intros v; apply clean_json_value, clean_is_json|].
  intros page max_comments. rewrite harvest_value. simpl. f_equal.
  rewrite map_app, map_map. f_equal.
  pose proof (records_json (slice_to max_comments (harvest_nodes page max_comments))) as H.
  induction H as [|c r Hc _ IH]; [reflexivity|]. simpl.
  now rewrite (clean_json_value handle_str c Hc), IH.
Qed.
